(** * nexus dev-mode watcher and start-module generation

    A shallow embedding of
      - [createPathMatcher], [createWatcher] and [restart]
        (the watcher module, lib/watcher/watcher.ts), and
      - [createStartModuleContent] (runtime/start/start-module.ts),
    followed by the properties of the restart protocol, of the path
    matcher and of the generated start module. *)

From Stdlib Require Import String Ascii List Bool Arith Lia.
Import ListNotations.
Local Open Scope string_scope.
Local Open Scope list_scope.

(* ===================================================================== *)
(** * Path matcher *)
(* ===================================================================== *)

Module Matcher.

(** [item.charAt(0) === '!'] *)
Definition isNegated (item : string) : bool :=
  match item with
  | String c _ => Ascii.eqb c "!"%char
  | EmptyString => false
  end.

(** [item.slice(1)] *)
Definition slice1 (item : string) : string :=
  match item with
  | String _ rest => rest
  | EmptyString => EmptyString
  end.

Section Anymatch.

(** The glob test of the [picomatch] package: [glob pattern path]. It is
    the only part of matching that looks inside a pattern, and it is kept
    abstract here. *)
Variable glob : string -> string -> bool.

(** A positive string matcher of [anymatch] accepts the path itself or
    anything its glob accepts. *)
Definition satisfies (pattern path : string) : bool :=
  String.eqb pattern path || glob pattern path.

(** The [anymatch] package applied to an array of string matchers and a
    path: strings that start with [!] are negated globs, tested first and
    with the [!] removed; a path that one of them accepts is rejected.
    Otherwise the path is accepted when some remaining matcher accepts
    it. *)
Definition anymatch (matchers : list string) (path : string) : bool :=
  let negatedGlobs := map slice1 (filter isNegated matchers) in
  let patterns := filter (fun item => negb (isNegated item)) matchers in
  if existsb (fun nglob => glob nglob path) negatedGlobs then false
  else existsb (fun pattern => satisfies pattern path) patterns.

(** [createPathMatcher({ toMatch, toIgnore })] *)
Definition createPathMatcher
    (toMatch toIgnore : option (list string)) : string -> bool :=
  let toAllow := match toMatch with Some l => l | None => [] end in
  let toIgnore :=
    match toIgnore with
    | Some l => map (fun pattern => ("!" ++ pattern)%string) l
    | None => []
    end in
  let matchers := toAllow ++ toIgnore in
  anymatch matchers.

End Anymatch.

(** ** A reference glob

    Enough of the glob language to run the matcher on concrete patterns:
    literal characters, [?], [*] inside one path segment and a [**]
    segment standing for any number of segments. *)

Fixpoint wild (p : list ascii) : list ascii -> bool :=
  match p with
  | [] => fun s => match s with [] => true | _ => false end
  | c :: p' =>
      if Ascii.eqb c "*"%char then
        fix star (s : list ascii) : bool :=
          wild p' s || match s with [] => false | _ :: s' => star s' end
      else
        fun s =>
          match s with
          | [] => false
          | d :: s' => (Ascii.eqb c d || Ascii.eqb c "?"%char) && wild p' s'
          end
  end.

Fixpoint splitOn (sep : ascii) (acc : list ascii) (s : list ascii)
    : list (list ascii) :=
  match s with
  | [] => [rev acc]
  | c :: s' =>
      if Ascii.eqb c sep then rev acc :: splitOn sep [] s'
      else splitOn sep (c :: acc) s'
  end.

Definition segments (s : string) : list (list ascii) :=
  splitOn "/"%char [] (list_ascii_of_string s).

Definition isGlobstar (seg : list ascii) : bool :=
  match seg with
  | [a; b] => Ascii.eqb a "*"%char && Ascii.eqb b "*"%char
  | _ => false
  end.

Fixpoint segmatch (ps : list (list ascii)) : list (list ascii) -> bool :=
  match ps with
  | [] => fun ss => match ss with [] => true | _ => false end
  | p :: ps' =>
      if isGlobstar p then
        fix skip (ss : list (list ascii)) : bool :=
          segmatch ps' ss || match ss with [] => false | _ :: ss' => skip ss' end
      else
        fun ss =>
          match ss with
          | [] => false
          | s :: ss' => wild p s && segmatch ps' ss'
          end
  end.

Definition refglob (pattern path : string) : bool :=
  segmatch (segments pattern) (segments path).

End Matcher.

(* ===================================================================== *)
(** * The watcher: data model *)
(* ===================================================================== *)

Module Watcher.

Import Matcher.

Definition Error := string.

(** [Chok.ChangeEvent['type']] *)
Inductive ChokChangeType := add | addDir | change | unlink | unlinkDir.

(** [PostInitChangeEvent]: a watch event or a restart asked for by a
    plugin; both carry a file. *)
Inductive PostInitChangeEvent :=
| ChokEvent (type : ChokChangeType) (file : string)
| PluginEvent (file : string).

(** [ChangeEvent = PostInitChangeEvent | InitChangeEvent]; the init event
    is [{ type: 'init', file: null }]. *)
Inductive ChangeEvent :=
| InitEvent
| PostInit (e : PostInitChangeEvent).

Definition fileOf (e : PostInitChangeEvent) : string :=
  match e with
  | ChokEvent _ f => f
  | PluginEvent f => f
  end.

(** [RunnerOptions] *)
Record RunnerOptions := {
  environmentAdditions : option (list (string * string))
}.

(** What a call, or an awaited promise, comes to: a value or an error. *)
Inductive Outcome (A : Type) : Type :=
| Returns (a : A)
| Throws (e : Error).
Arguments Returns {A} a.
Arguments Throws {A} e.

(** [plugin.dev.addToWatcherSettings]; every field is optional. *)
Record WatcherSettings := {
  watchFilePatterns : option (list string);
  (** [listeners?.app?.ignoreFilePatterns] *)
  appIgnoreFilePatterns : option (list string);
  (** [listeners?.plugin?.allowFilePatterns] *)
  pluginAllowFilePatterns : option (list string);
  (** [listeners?.plugin?.ignoreFilePatterns] *)
  pluginIgnoreFilePatterns : option (list string)
}.

(** [WorktimeHooks] (the [dev] part of a plugin). A hook is optional. A
    call of a hook returns or throws; [onBeforeWatcherStartOrRestart]
    returns something that is awaited, which then gives the runner changes
    (or nothing) or an error. [onBeforeWatcherRestart] and
    [onAfterWatcherRestart] may return a promise as well, given here by
    what it comes to; the watcher does not look at what these two return.
    A hook is given by what a call of it comes to; the state that a plugin
    keeps for itself is not modelled, and what a plugin does with the
    controls it was handed is an event of its own (see [Event]). *)
Record WorktimeHooks := {
  addToWatcherSettings : WatcherSettings;
  onBeforeWatcherStartOrRestart :
    option (ChangeEvent -> Outcome (Outcome (option RunnerOptions)));
  onBeforeWatcherRestart : option (unit -> Outcome (Outcome unit));
  onAfterWatcherRestart : option (unit -> Outcome (Outcome unit));
  onFileWatcherEvent : option (ChokChangeType -> string -> Outcome unit)
}.

(** [Options], as far as the watcher reads them. *)
Record Opts := {
  sourceRoot : string;
  plugins : list WorktimeHooks
}.

Inductive LogLevel := trace | info | error.

Inductive LogContext :=
| NoContext
| HookName (name : string)
| OfEvent (event : ChangeEvent)
| OfFile (file : string)
| OfError (e : Error).

(** What the watcher does to its collaborators, in the order it does it.
    A plugin is named by its position in [options.plugins]. *)
Inductive Action :=
| Log (level : LogLevel) (msg : string) (context : LogContext)
| ClearConsole
| CompilerInit
| CompileChanged (file : string)
| LinkUpdateOptions (runnerChanges : RunnerOptions)
| LinkStartOrRestart
| LinkStop
| ChokWatch (paths : list string)
| WatcherAddSilently (file : string)
| WatcherPause
| WatcherResume
| Call_onBeforeWatcherStartOrRestart (plugin : nat) (event : ChangeEvent)
| Call_onBeforeWatcherRestart (plugin : nat)
| Call_onAfterWatcherRestart (plugin : nat)
| Call_onFileWatcherEvent (plugin : nat) (event : ChokChangeType) (file : string)
| SetRestarting (value : bool)
| Uncaught (e : Error).

(** ** Code with suspension points

    The body of a callback or of an async function, in continuation
    style. [Await] and [AwaitLink] are the two places where the code
    gives the control back: at [await <hook result>] and at
    [await link.startOrRestart()]. [Async body next] calls an async
    function without awaiting it: [body] runs up to its first suspension
    and the caller goes on with [next]. *)
Inductive Proc :=
| Done
| Throw (e : Error)
| Do (a : Action) (next : Proc)
| ReadRestarting (next : bool -> Proc)
| WriteRestarting (value : bool) (next : Proc)
| Await (promise : Outcome (option RunnerOptions))
        (next : option RunnerOptions -> Proc)
| AwaitLink (next : Proc)
| Async (body : Proc) (next : Proc).

Definition Stmt := Proc -> Proc.

Notation "s ;; k" := (s k) (at level 61, right associativity, only parsing).

(** A suspended async function and what it waits for. *)
Inductive Suspended :=
| OnPromise (promise : Outcome (option RunnerOptions))
            (next : option RunnerOptions -> Proc)
| OnLink (next : Proc).

(** The mutable state of the watcher: the [restarting] flag of
    [createWatcher], whether the file watcher is paused, and the async
    functions that are suspended. *)
Record Machine := {
  restarting : bool;
  paused : bool;
  pending : list Suspended
}.

(** Modelled from the spec: the file watcher that [Chok.watch] returns
    (./chokidar) is not part of the sources. Its [pause()] stops the
    intake of watch events and its [resume()] starts it again; nothing
    else changes whether it is paused. *)
Definition watcherPaused (a : Action) (paused : bool) : bool :=
  match a with
  | WatcherPause => true
  | WatcherResume => false
  | _ => paused
  end.

Definition perform (a : Action) (m : Machine) : Machine :=
  {| restarting := restarting m;
     paused := watcherPaused a (paused m);
     pending := pending m |}.

Definition setRestarting (value : bool) (m : Machine) : Machine :=
  {| restarting := value; paused := paused m; pending := pending m |}.

Definition suspend (s : Suspended) (m : Machine) : Machine :=
  {| restarting := restarting m;
     paused := paused m;
     pending := pending m ++ [s] |}.

(** Run code up to its end or its next suspension point. An error that
    reaches the end of a callback or of an async function is reported as
    [Uncaught]. *)
Fixpoint exec (p : Proc) (m : Machine) : Machine * list Action :=
  match p with
  | Done => (m, [])
  | Throw e => (m, [Uncaught e])
  | Do a next =>
      let (m', out) := exec next (perform a m) in (m', a :: out)
  | ReadRestarting next => exec (next (restarting m)) m
  | WriteRestarting value next =>
      let (m', out) := exec next (setRestarting value m) in
      (m', SetRestarting value :: out)
  | Await promise next => (suspend (OnPromise promise next) m, [])
  | AwaitLink next => (suspend (OnLink next) m, [])
  | Async body next =>
      let (m1, out1) := exec body m in
      let (m2, out2) := exec next m1 in
      (m2, out1 ++ out2)
  end.

(** Events of the environment: the sources that call into the watcher. *)
Inductive Event :=
| WatchAll (type : ChokChangeType) (file : string)
| WatchError (e : Error)
| WatchReady
| RunnerImportedModule (filePath : string)
| ServerListening
| LensRestart (file : string)
| LensPause
| LensResume
| BeforeExit
| PromiseSettled (n : nat)
| LinkSettled (n : nat) (result : Outcome unit).

Fixpoint entriesFrom {A : Type} (i : nat) (l : list A) : list (nat * A) :=
  match l with
  | [] => []
  | x :: l' => (i, x) :: entriesFrom (S i) l'
  end.

Fixpoint removeNth {A : Type} (n : nat) (l : list A) : list A :=
  match n, l with
  | _, [] => []
  | O, _ :: l' => l'
  | S n', x :: l' => x :: removeNth n' l'
  end.

Definition wake (n : nat) (m : Machine) : Machine :=
  {| restarting := restarting m;
     paused := paused m;
     pending := removeNth n (pending m) |}.

Definition initial : Machine :=
  {| restarting := false; paused := false; pending := [] |}.

Definition andThen (r : Machine * list Action)
    (f : Machine -> Machine * list Action) : Machine * list Action :=
  let (m, out) := r in
  let (m', out') := f m in
  (m', out ++ out').

(* ===================================================================== *)
(** * The watcher: [createWatcher] *)
(* ===================================================================== *)

Section CreateWatcher.

Variable glob : string -> string -> bool.
Variable options : Opts.
(** [compiler.tsConfigPath] *)
Variable tsConfigPath : string.

(** [options.plugins], each plugin with its position. *)
Definition registered : list (nat * WorktimeHooks) :=
  entriesFrom 0 (plugins options).

(** [for (const plugin of plugins) { const runnerChanges = await
    plugin.dev.onBeforeWatcherStartOrRestart?.(change); if
    (runnerChanges) link.updateOptions(runnerChanges) }]. Without the
    hook the code awaits [undefined]. *)
Fixpoint forAwait_onBeforeWatcherStartOrRestart
    (change : ChangeEvent) (ps : list (nat * WorktimeHooks)) : Stmt :=
  fun next =>
  match ps with
  | [] => next
  | (i, plugin) :: rest =>
      match onBeforeWatcherStartOrRestart plugin with
      | None =>
          Await (Returns None) (fun _ =>
            forAwait_onBeforeWatcherStartOrRestart change rest next)
      | Some hook =>
          Do (Call_onBeforeWatcherStartOrRestart i change) ;;
          match hook change with
          | Throws e => Throw e
          | Returns promise =>
              Await promise (fun runnerChanges =>
                match runnerChanges with
                | Some changes =>
                    Do (LinkUpdateOptions changes) ;;
                    forAwait_onBeforeWatcherStartOrRestart change rest next
                | None =>
                    forAwait_onBeforeWatcherStartOrRestart change rest next
                end)
          end
      end
  end.

(** [plugins.forEach((p) => { p.dev.onBeforeWatcherRestart?.() })] *)
Fixpoint forEach_onBeforeWatcherRestart
    (ps : list (nat * WorktimeHooks)) : Stmt :=
  fun next =>
  match ps with
  | [] => next
  | (i, p) :: rest =>
      match onBeforeWatcherRestart p with
      | None => forEach_onBeforeWatcherRestart rest next
      | Some hook =>
          Do (Call_onBeforeWatcherRestart i) ;;
          match hook tt with
          | Throws e => Throw e
          | Returns _ => forEach_onBeforeWatcherRestart rest next
          end
      end
  end.

(** [options.plugins.forEach((p) => { p.dev.onAfterWatcherRestart?.() })] *)
Fixpoint forEach_onAfterWatcherRestart
    (ps : list (nat * WorktimeHooks)) : Stmt :=
  fun next =>
  match ps with
  | [] => next
  | (i, p) :: rest =>
      match onAfterWatcherRestart p with
      | None => forEach_onAfterWatcherRestart rest next
      | Some hook =>
          Do (Call_onAfterWatcherRestart i) ;;
          match hook tt with
          | Throws e => Throw e
          | Returns _ => forEach_onAfterWatcherRestart rest next
          end
      end
  end.

(** [async function restart(change, plugins)] *)
Definition restart (change : PostInitChangeEvent)
    (plugins : list (nat * WorktimeHooks)) : Proc :=
  ReadRestarting (fun restarting =>
  if restarting then
    Do (Log trace "restart already in progress" NoContext) ;;
    Done
  else
    WriteRestarting true ;;
    Do ClearConsole ;;
    Do (Log trace "hook" (HookName "beforeWatcherStartOrRestart")) ;;
    forAwait_onBeforeWatcherStartOrRestart (PostInit change) plugins ;;
    Do (Log trace "hook" (HookName "beforeWatcherRestart")) ;;
    forEach_onBeforeWatcherRestart plugins ;;
    Do (Log info "restarting" (OfEvent (PostInit change))) ;;
    (if String.eqb (fileOf change) tsConfigPath
     then fun next =>
       Do (Log trace "reinitializing TS compilation" NoContext) ;;
       Do CompilerInit ;;
       next
     else fun next => next) ;;
    Do (CompileChanged (fileOf change)) ;;
    Do LinkStartOrRestart ;;
    AwaitLink ;;
    WriteRestarting false ;;
    Done).

(** The callbacks given to [new Link.Link]. *)
Definition onRunnerImportedModule (filePath : string) : Proc :=
  Do (WatcherAddSilently filePath) ;;
  Done.

Definition onServerListening : Proc :=
  forEach_onAfterWatcherRestart registered ;;
  Do WatcherResume ;;
  Done.

(** [process.onBeforeExit] *)
Definition onBeforeExit : Proc :=
  Do (Log trace "tearndown before exit" NoContext) ;;
  Do LinkStop ;;
  Done.

Definition orEmpty (patterns : option (list string)) : list string :=
  match patterns with
  | Some l => l
  | None => []
  end.

Definition pluginWatchContributions : list string :=
  fold_left
    (fun patterns p =>
       patterns ++ orEmpty (watchFilePatterns (addToWatcherSettings p)))
    (plugins options) [].

Definition pluginIgnoreContributions : list string :=
  fold_left
    (fun patterns p =>
       patterns ++ orEmpty (appIgnoreFilePatterns (addToWatcherSettings p)))
    (plugins options) [].

Definition isIgnoredByCoreListener : string -> bool :=
  createPathMatcher glob (Some pluginIgnoreContributions) None.

(** The core listener, [watcher.on('all', ...)]; [next] is what the
    emitter calls after it. *)
Definition coreListener (changeType : ChokChangeType)
    (changedFile : string) : Stmt :=
  fun next =>
  let event := ChokEvent changeType changedFile in
  if isIgnoredByCoreListener changedFile then
    Do (Log trace "global listener - DID NOT match file"
          (OfEvent (PostInit event))) ;;
    next
  else
    Do (Log trace "global listener - matched file"
          (OfEvent (PostInit event))) ;;
    Async (restart event registered) ;;
    next.

(** [devModePluginLens], the controls handed to a plugin's
    [onFileWatcherEvent]. A plugin may use them at any time, so each use
    is an event of its own. *)
Definition lensRestart (file : string) : Proc :=
  Async (restart (PluginEvent file) registered) ;;
  Done.

Definition lensPause : Proc :=
  Do WatcherPause ;;
  Done.

Definition lensResume : Proc :=
  Do WatcherResume ;;
  Done.

Definition isMatchedByPluginListener (p : WorktimeHooks) : string -> bool :=
  createPathMatcher glob
    (pluginAllowFilePatterns (addToWatcherSettings p))
    (pluginIgnoreFilePatterns (addToWatcherSettings p)).

(** The listeners of the plugins, one [watcher.on('all', ...)] for each
    plugin that has [onFileWatcherEvent], in the order of the plugins. A
    listener that throws ends the emit: the listeners after it are not
    called. The handler is also handed the controls [devModePluginLens];
    a use of a control is an event of its own, so that a handler that
    uses a control before it returns is taken as using it right after the
    emit. *)
Fixpoint pluginListeners (ps : list (nat * WorktimeHooks))
    (event : ChokChangeType) (file : string) : Stmt :=
  fun next =>
  match ps with
  | [] => next
  | (i, plugin) :: rest =>
      match onFileWatcherEvent plugin with
      | None => pluginListeners rest event file next
      | Some handler =>
          if isMatchedByPluginListener plugin file then
            Do (Log trace "plugin listener - matched file" (OfFile file)) ;;
            Do (Call_onFileWatcherEvent i event file) ;;
            match handler event file with
            | Throws e => Throw e
            | Returns _ => pluginListeners rest event file next
            end
          else
            Do (Log trace "plugin listener - DID NOT match file"
                  (OfFile file)) ;;
            pluginListeners rest event file next
      end
  end.

(** The watcher emits ['all']: the listeners run in the order they were
    registered. *)
Definition emitAll (type : ChokChangeType) (file : string) : Proc :=
  coreListener type file ;;
  pluginListeners registered type file ;;
  Done.

Definition onError (e : Error) : Proc :=
  Do (Log error "file watcher encountered an error" (OfError e)) ;;
  Done.

Definition onReady : Proc :=
  Do (Log trace "ready" NoContext) ;;
  Done.

(** The body of [createWatcher]: the set-up, then the first start. The
    registrations of the callbacks have no effect of their own. The
    set-up is taken to go through: the calls to the compiler and to the
    file watcher return, and the matchers are built from patterns that
    the glob library accepts (it throws on an empty pattern, which would
    end [createWatcher] where the matcher is built). *)
Definition createWatcher : Proc :=
  Do CompilerInit ;;
  Do (ChokWatch (sourceRoot options :: pluginWatchContributions)) ;;
  (* let restarting = false *)
  WriteRestarting true ;;
  Do ClearConsole ;;
  forAwait_onBeforeWatcherStartOrRestart InitEvent registered ;;
  Do LinkStartOrRestart ;;
  AwaitLink ;;
  WriteRestarting false ;;
  Done.

(** Modelled from the spec: the file watcher of ./chokidar is not part
    of the sources. While it is paused it delivers no watch event to its
    listeners. *)
Definition intake (m : Machine) (p : Proc) : Proc :=
  if paused m then Done else p.

(** One event of the environment. The [n]-th suspended function goes on
    when what it waits for is settled; a rejection is thrown at its
    suspension point. *)
Definition step (m : Machine) (ev : Event) : Machine * list Action :=
  match ev with
  | WatchAll type file => exec (intake m (emitAll type file)) m
  | WatchError e => exec (onError e) m
  | WatchReady => exec onReady m
  | RunnerImportedModule filePath => exec (onRunnerImportedModule filePath) m
  | ServerListening => exec onServerListening m
  | LensRestart file => exec (lensRestart file) m
  | LensPause => exec lensPause m
  | LensResume => exec lensResume m
  | BeforeExit => exec onBeforeExit m
  | PromiseSettled n =>
      match nth_error (pending m) n with
      | Some (OnPromise (Returns value) next) => exec (next value) (wake n m)
      | Some (OnPromise (Throws e) _) => exec (Throw e) (wake n m)
      | _ => (m, [])
      end
  | LinkSettled n result =>
      match nth_error (pending m) n with
      | Some (OnLink next) =>
          match result with
          | Returns _ => exec next (wake n m)
          | Throws e => exec (Throw e) (wake n m)
          end
      | _ => (m, [])
      end
  end.

Fixpoint runFrom (r : Machine * list Action) (evs : list Event)
    : Machine * list Action :=
  match evs with
  | [] => r
  | ev :: evs' => runFrom (andThen r (fun m => step m ev)) evs'
  end.

(** [createWatcher(options)] up to its first suspension. *)
Definition boot : Machine * list Action := exec createWatcher initial.

Definition run (evs : list Event) : Machine * list Action :=
  runFrom boot evs.

End CreateWatcher.

End Watcher.

(* ===================================================================== *)
(** * The restart protocol, as the specification words it *)
(* ===================================================================== *)

Module Protocol.

Import Watcher.

(** The first start and a restart. *)
Inductive CycleKind := FirstStart | Restart.

(** How far a cycle has come: in the before-start-or-restart hooks (with
    the plugins still to call), in the before-restart hooks (likewise),
    after the compiler was initialized again, after the changed file was
    invalidated, after the process restart was requested. *)
Inductive Stage :=
| BeforeStartOrRestart (todo : list nat)
| BeforeRestart (todo : list nat)
| Reinitialized
| Invalidated
| Requested.

Inductive State :=
| NotStarted
| Idle
| Restarting (kind : CycleKind) (stage : Stage).

Definition busy (q : State) : bool :=
  match q with
  | Restarting _ _ => true
  | _ => false
  end.

(** The positions of the plugins that have a given hook. *)
Definition withHook {H : Type} (hook : WorktimeHooks -> option H)
    (ps : list (nat * WorktimeHooks)) : list nat :=
  map fst
    (filter (fun ip => match hook (snd ip) with Some _ => true | None => false end)
       ps).

(** The init event tags the first start, every other event a restart. *)
Definition tagged (kind : CycleKind) (event : ChangeEvent) : bool :=
  match kind, event with
  | FirstStart, InitEvent => true
  | Restart, PostInit _ => true
  | _, _ => false
  end.

Section Monitor.

Variable options : Opts.

Definition phase3 : list nat :=
  withHook onBeforeWatcherStartOrRestart (registered options).

Definition phase4 : list nat :=
  withHook onBeforeWatcherRestart (registered options).

(** The before-restart hooks still to call, once every
    before-start-or-restart hook has been called. *)
Definition beforeRestartTodo (stage : Stage) : option (list nat) :=
  match stage with
  | BeforeStartOrRestart [] => Some phase4
  | BeforeRestart todo => Some todo
  | _ => None
  end.

(** One action, checked against the order of the phases: the hooks of a
    phase in the order of the plugins and none left out, a phase only
    after the one before it, the flag set when a cycle starts and reset
    when the process restart has been requested. Actions that belong to
    no phase are let through. *)
Definition next (q : State) (a : Action) : option State :=
  match a with
  | SetRestarting true =>
      match q with
      | NotStarted => Some (Restarting FirstStart (BeforeStartOrRestart phase3))
      | Idle => Some (Restarting Restart (BeforeStartOrRestart phase3))
      | Restarting _ _ => None
      end
  | SetRestarting false =>
      match q with
      | Restarting _ Requested => Some Idle
      | _ => None
      end
  | Call_onBeforeWatcherStartOrRestart i event =>
      match q with
      | Restarting kind (BeforeStartOrRestart (j :: todo)) =>
          if Nat.eqb i j && tagged kind event
          then Some (Restarting kind (BeforeStartOrRestart todo))
          else None
      | _ => None
      end
  | LinkUpdateOptions _ =>
      match q with
      | Restarting _ (BeforeStartOrRestart _) => Some q
      | _ => None
      end
  | Call_onBeforeWatcherRestart i =>
      match q with
      | Restarting Restart stage =>
          match beforeRestartTodo stage with
          | Some (j :: todo) =>
              if Nat.eqb i j then Some (Restarting Restart (BeforeRestart todo))
              else None
          | _ => None
          end
      | _ => None
      end
  | CompilerInit =>
      match q with
      | NotStarted => Some NotStarted
      | Restarting Restart stage =>
          match beforeRestartTodo stage with
          | Some [] => Some (Restarting Restart Reinitialized)
          | _ => None
          end
      | _ => None
      end
  | CompileChanged _ =>
      match q with
      | Restarting Restart Reinitialized => Some (Restarting Restart Invalidated)
      | Restarting Restart stage =>
          match beforeRestartTodo stage with
          | Some [] => Some (Restarting Restart Invalidated)
          | _ => None
          end
      | _ => None
      end
  | LinkStartOrRestart =>
      match q with
      | Restarting Restart Invalidated => Some (Restarting Restart Requested)
      | Restarting FirstStart (BeforeStartOrRestart []) =>
          Some (Restarting FirstStart Requested)
      | _ => None
      end
  | _ => Some q
  end.

Fixpoint follow (q : State) (tr : list Action) : option State :=
  match tr with
  | [] => Some q
  | a :: tr' =>
      match next q a with
      | Some q' => follow q' tr'
      | None => None
      end
  end.

End Monitor.

(** ** What a cycle does when nothing fails *)

(** The hook of a plugin settles with a value for [event]. *)
Definition settles (event : ChangeEvent) (p : WorktimeHooks) : Prop :=
  forall hook, onBeforeWatcherStartOrRestart p = Some hook ->
    exists changes, hook event = Returns (Returns changes).

(** The call of the hook returns; what it returns, a promise that is
    rejected included, is not looked at. *)
Definition returnsBeforeRestart (p : WorktimeHooks) : Prop :=
  forall hook, onBeforeWatcherRestart p = Some hook ->
    exists u, hook tt = Returns u.

Definition returnsAfterRestart (p : WorktimeHooks) : Prop :=
  forall hook, onAfterWatcherRestart p = Some hook ->
    exists u, hook tt = Returns u.

(** Every plugin's [onBeforeWatcherStartOrRestart(event)], in the order of
    the plugins, each followed by the merge of the patch it gives. *)
Definition beforeStartOrRestartTrace (event : ChangeEvent)
    (ps : list (nat * WorktimeHooks)) : list Action :=
  flat_map
    (fun ip =>
       match onBeforeWatcherStartOrRestart (snd ip) with
       | None => []
       | Some hook =>
           Call_onBeforeWatcherStartOrRestart (fst ip) event ::
           match hook event with
           | Returns (Returns (Some changes)) => [LinkUpdateOptions changes]
           | _ => []
           end
       end)
    ps.

Definition beforeRestartTrace (ps : list (nat * WorktimeHooks)) : list Action :=
  flat_map
    (fun ip =>
       match onBeforeWatcherRestart (snd ip) with
       | None => []
       | Some _ => [Call_onBeforeWatcherRestart (fst ip)]
       end)
    ps.

Definition afterRestartTrace (ps : list (nat * WorktimeHooks)) : list Action :=
  flat_map
    (fun ip =>
       match onAfterWatcherRestart (snd ip) with
       | None => []
       | Some _ => [Call_onAfterWatcherRestart (fst ip)]
       end)
    ps.

(** The calls to the compiler in a restart for [file]. *)
Definition compilerCalls (tsConfigPath file : string) : list Action :=
  if String.eqb file tsConfigPath
  then [CompilerInit; CompileChanged file]
  else [CompileChanged file].

Definition isCompilerCall (a : Action) : bool :=
  match a with
  | CompilerInit | CompileChanged _ => true
  | _ => false
  end.

(** A restart cycle up to the request to restart the process. *)
Definition restartTrace (tsConfigPath : string) (change : PostInitChangeEvent)
    (ps : list (nat * WorktimeHooks)) : list Action :=
  [SetRestarting true; ClearConsole;
   Log trace "hook" (HookName "beforeWatcherStartOrRestart")]
  ++ beforeStartOrRestartTrace (PostInit change) ps
  ++ [Log trace "hook" (HookName "beforeWatcherRestart")]
  ++ beforeRestartTrace ps
  ++ [Log info "restarting" (OfEvent (PostInit change))]
  ++ (if String.eqb (fileOf change) tsConfigPath
      then [Log trace "reinitializing TS compilation" NoContext; CompilerInit]
      else [])
  ++ [CompileChanged (fileOf change); LinkStartOrRestart].

(** The first start up to the request to start the process. *)
Definition firstStartTrace (ps : list (nat * WorktimeHooks)) : list Action :=
  [SetRestarting true; ClearConsole]
  ++ beforeStartOrRestartTrace InitEvent ps
  ++ [LinkStartOrRestart].

(** The settlements that take a cycle over [ps] to its end when the link
    settles with [result]. *)
Definition settleAll (ps : list (nat * WorktimeHooks)) (result : Outcome unit)
    : list Event :=
  repeat (PromiseSettled 0) (length ps) ++ [LinkSettled 0 result].

(** What the listeners of the plugins do with a watch event: each
    plugin that has [onFileWatcherEvent] decides with its own matcher. *)
Fixpoint pluginDeliveries (glob : string -> string -> bool)
    (ps : list (nat * WorktimeHooks)) (event : ChokChangeType) (file : string)
    : list Action :=
  match ps with
  | [] => []
  | (i, plugin) :: rest =>
      match onFileWatcherEvent plugin with
      | None => pluginDeliveries glob rest event file
      | Some handler =>
          if isMatchedByPluginListener glob plugin file then
            Log trace "plugin listener - matched file" (OfFile file)
            :: Call_onFileWatcherEvent i event file
            :: match handler event file with
               | Throws e => [Uncaught e]
               | Returns _ => pluginDeliveries glob rest event file
               end
          else
            Log trace "plugin listener - DID NOT match file" (OfFile file)
            :: pluginDeliveries glob rest event file
      end
  end.

(** How a cycle ends when the link settles. *)
Definition ending (m : Machine) (result : Outcome unit)
    : Machine * list Action :=
  match result with
  | Returns _ =>
      ({| restarting := false; paused := paused m; pending := [] |},
       [SetRestarting false])
  | Throws e =>
      ({| restarting := true; paused := paused m; pending := [] |},
       [Uncaught e])
  end.

(** The machine after a cycle that ended by an error: the flag is still
    set and nothing is suspended. *)
Definition aborted (m : Machine) : Machine :=
  {| restarting := true; paused := paused m; pending := [] |}.

(** The hook of a plugin raises [e] for [event], in the call or in what
    the call returns. *)
Definition raisesBeforeStartOrRestart (event : ChangeEvent)
    (p : WorktimeHooks) (e : Error) : Prop :=
  exists hook, onBeforeWatcherStartOrRestart p = Some hook /\
    (hook event = Throws e \/ hook event = Returns (Throws e)).

Definition raisesBeforeRestart (p : WorktimeHooks) (e : Error) : Prop :=
  exists hook, onBeforeWatcherRestart p = Some hook /\ hook tt = Throws e.

Definition raisesAfterRestart (p : WorktimeHooks) (e : Error) : Prop :=
  exists hook, onAfterWatcherRestart p = Some hook /\ hook tt = Throws e.

(** The call of the hook returns a promise that is rejected with [e]. *)
Definition rejectsBeforeRestart (p : WorktimeHooks) (e : Error) : Prop :=
  exists hook, onBeforeWatcherRestart p = Some hook /\
    hook tt = Returns (Throws e).

Definition rejectsAfterRestart (p : WorktimeHooks) (e : Error) : Prop :=
  exists hook, onAfterWatcherRestart p = Some hook /\
    hook tt = Returns (Throws e).

(** Whether the watcher is paused after a run of actions. *)
Definition pausedAfter (tr : list Action) (paused : bool) : bool :=
  fold_left (fun b a => watcherPaused a b) tr paused.

(** [out], then what [r] gives. *)
Definition pre (out : list Action) (r : Machine * list Action)
    : Machine * list Action :=
  (fst r, out ++ snd r).

(** An action that leaves the watcher as it is. *)
Definition quiet (a : Action) : bool :=
  match a with
  | WatcherPause | WatcherResume => false
  | _ => true
  end.

(** An action that belongs to no phase of a cycle and does not pause the
    watcher. *)
Definition foreign (a : Action) : bool :=
  match a with
  | Log _ _ _ | ClearConsole | LinkStop | ChokWatch _ | WatcherAddSilently _
  | WatcherResume | Call_onAfterWatcherRestart _
  | Call_onFileWatcherEvent _ _ _ | Uncaught _ => true
  | _ => false
  end.

(** An action of a phase of a cycle: a write of the flag, a hook before
    the restart, a call to the compiler or to the link. *)
Definition belongsToCycle (a : Action) : bool :=
  match a with
  | SetRestarting _ | Call_onBeforeWatcherStartOrRestart _ _
  | Call_onBeforeWatcherRestart _ | LinkUpdateOptions _
  | CompilerInit | CompileChanged _ | LinkStartOrRestart => true
  | _ => false
  end.

(** An action that the first start leaves to the restarts. *)
Definition onlyInRestart (a : Action) : bool :=
  match a with
  | Call_onBeforeWatcherRestart _ | CompileChanged _ => true
  | _ => false
  end.

(** ** The invariant of the watcher *)

Section Invariant.

Variable options : Opts.
Variable tsConfigPath : string.

(** [InCycle kind stage p]: [p] is the rest of a cycle that stands at
    [stage]: what it does is in the order of the phases, it leaves the
    watcher as it is, and it ends by an error or by resetting the flag
    after the process restart was requested. *)
Inductive InCycle : CycleKind -> Stage -> Proc -> Prop :=
| InCycle_Throw kind stage e :
    InCycle kind stage (Throw e)
| InCycle_Do kind stage stage' a k :
    quiet a = true ->
    next options (Restarting kind stage) a = Some (Restarting kind stage') ->
    InCycle kind stage' k ->
    InCycle kind stage (Do a k)
| InCycle_Finish kind :
    InCycle kind Requested (WriteRestarting false Done)
| InCycle_Await kind stage promise k :
    (forall value, InCycle kind stage (k value)) ->
    InCycle kind stage (Await promise k)
| InCycle_AwaitLink kind stage k :
    InCycle kind stage k ->
    InCycle kind stage (AwaitLink k).

Definition InCycleSuspended (kind : CycleKind) (stage : Stage)
    (s : Suspended) : Prop :=
  match s with
  | OnPromise _ k => forall value, InCycle kind stage (k value)
  | OnLink k => InCycle kind stage k
  end.

(** [Callback p]: [p] is the body of a callback of the watcher: actions
    outside the phases and calls of [restart]. *)
Inductive Callback : Proc -> Prop :=
| Callback_Done : Callback Done
| Callback_Throw e : Callback (Throw e)
| Callback_Do a k :
    foreign a = true -> Callback k -> Callback (Do a k)
| Callback_restart change k :
    Callback k ->
    Callback (Async (restart tsConfigPath change (registered options)) k).

(** The machine and the protocol agree: the flag is set exactly while a
    cycle is on, nothing is suspended outside a cycle, and inside a
    cycle at most the cycle itself is suspended. *)
Definition Consistent (q : State) (m : Machine) : Prop :=
  match q with
  | NotStarted => False
  | Idle => restarting m = false /\ pending m = []
  | Restarting kind stage =>
      restarting m = true /\
      (pending m = [] \/
       exists s, pending m = [s] /\ InCycleSuspended kind stage s)
  end.

End Invariant.

(** The values written to the [restarting] flag, in order. *)
Definition flagWrites (tr : list Action) : list bool :=
  flat_map (fun a => match a with SetRestarting b => [b] | _ => [] end) tr.

(** [expect] first, then the other value, and so on. *)
Fixpoint alternating (expect : bool) (writes : list bool) : bool :=
  match writes with
  | [] => true
  | b :: writes' => Bool.eqb b expect && alternating (negb expect) writes'
  end.

(** ** Waiting for what was called *)

(** An event that lets a suspended function go on. *)
Definition isSettlement (ev : Event) : bool :=
  match ev with
  | PromiseSettled _ | LinkSettled _ _ => true
  | _ => false
  end.

(** A call whose result the cycle waits for: a before-start-or-restart
    hook, and the request to restart the process. *)
Definition isAwaited (a : Action) : bool :=
  match a with
  | Call_onBeforeWatcherStartOrRestart _ _ | LinkStartOrRestart => true
  | _ => false
  end.

Definition writesFlag (a : Action) : bool :=
  match a with
  | SetRestarting _ => true
  | _ => false
  end.

(** In [tr], nothing of a cycle comes after a call whose result the
    cycle waits for. *)
Fixpoint haltsAfterAwaited (tr : list Action) : bool :=
  match tr with
  | [] => true
  | a :: tr' =>
      if isAwaited a then forallb (fun b => negb (belongsToCycle b)) tr'
      else haltsAfterAwaited tr'
  end.

(** [Paced p]: [p] is the rest of a cycle that waits where the code
    awaits. After the call of a before-start-or-restart hook it ends by
    the error of the call or is suspended on what the call returned;
    after the request to restart the process it is suspended on the
    link, and the reset of the flag is all that is left to do. It does
    not write the flag before that. *)
Inductive Paced : Proc -> Prop :=
| Paced_Throw e :
    Paced (Throw e)
| Paced_Do a k :
    isAwaited a = false -> writesFlag a = false ->
    Paced k ->
    Paced (Do a k)
| Paced_Await promise k :
    (forall value, Paced (k value)) ->
    Paced (Await promise k)
| Paced_hook_throws i event e :
    Paced (Do (Call_onBeforeWatcherStartOrRestart i event) (Throw e))
| Paced_hook_awaited i event promise k :
    (forall value, Paced (k value)) ->
    Paced (Do (Call_onBeforeWatcherStartOrRestart i event) (Await promise k))
| Paced_link :
    Paced (Do LinkStartOrRestart (AwaitLink (WriteRestarting false Done))).

Definition PacedSuspended (s : Suspended) : Prop :=
  match s with
  | OnPromise _ k => forall value, Paced (k value)
  | OnLink k => k = WriteRestarting false Done
  end.

End Protocol.

(* ===================================================================== *)
(** * The start module *)
(* ===================================================================== *)

Module StartModule.

Local Open Scope string_scope.

Definition nl : string := String "010"%char EmptyString.
Definition dq : string := String "034"%char EmptyString.

Definition START_MODULE_NAME : string := "index".
Definition START_MODULE_HEADER : string := "GENERATED NEXUS START MODULE".

Inductive Stage := build | dev.

(** [Layout.Layout], as far as the start module reads it. [app] is the
    path of the app module when [app.exists]; [packageJson] is the path of
    package.json when there is one. *)
Record Layout := {
  projectRoot : string;
  sourceRoot : string;
  buildOutputRelative : string;
  schemaModules : list string;
  app : option string;
  packageJson : option string;
  sourceRelative : string -> string
}.

Record StartModuleConfig := {
  internalStage : Stage;
  layout : Layout;
  disableArtifactGeneration : option bool;
  absoluteModuleImports : option bool;
  runtimePluginNames : list string
}.

(** Truth of an optional boolean, as [if (x)] and [x ? a : b] read it. *)
Definition truthy (b : option bool) : bool :=
  match b with
  | Some true => true
  | _ => false
  end.

(** [`${b}`] *)
Definition printBool (b : bool) : string :=
  if b then "true" else "false".

(** [Array.prototype.join] *)
Fixpoint join (sep : string) (l : list string) : string :=
  match l with
  | [] => ""
  | [x] => x
  | x :: l' => x ++ sep ++ join sep l'
  end.

Section CreateStartModuleContent.

(** [EOL] of the os module. *)
Variable EOL : string.
(** The [stripIndent] tag of common-tags, applied to the text of a
    template after its substitutions. *)
Variable stripIndent : string -> string.
(** [resolveFrom(moduleId, fromDir)] *)
Variable resolveFrom : string -> string -> string.
(** [stripExt(path)] *)
Variable stripExt : string -> string.
(** [Path.relative(from, to)] *)
Variable pathRelative : string -> string -> string.

Definition printSideEffectsImport (modulePath : string) : string :=
  "import '" ++ modulePath ++ "'".

Definition calcSourceRootToModule (layout : Layout) (modulePath : string)
    : string :=
  pathRelative (sourceRoot layout) modulePath.

Definition relativeTranspiledImportPath (layout : Layout)
    (modulePath : string) : string :=
  "./" ++ stripExt (calcSourceRootToModule layout modulePath).

Definition printStaticImports (layout : Layout)
    (absolutePaths : option bool) : string :=
  fold_left
    (fun script modulePath =>
       let path :=
         if truthy absolutePaths then stripExt modulePath
         else relativeTranspiledImportPath layout modulePath in
       script ++ nl ++ printSideEffectsImport path)
    (schemaModules layout) "".

(** [`plugin_${Math.random().toString().slice(2, 5)}`], from the decimal
    text of the number drawn. *)
Definition namedImportAlias (randomText : string) : string :=
  "plugin_" ++ substring 2 3 randomText.

(** [config.runtimePluginNames.map((pluginName) => [namedImportAlias,
    pluginName])]; [random i] is the text of the number drawn for the
    plugin at position [i]. *)
Fixpoint aliasesFrom (random : nat -> string) (i : nat)
    (names : list string) : list (string * string) :=
  match names with
  | [] => []
  | pluginName :: rest =>
      (namedImportAlias (random i), pluginName)
        :: aliasesFrom random (S i) rest
  end.

Definition aliasAndPluginNames (config : StartModuleConfig)
    (random : nat -> string) : list (string * string) :=
  aliasesFrom random 0 (runtimePluginNames config).

Definition printPluginImport (config : StartModuleConfig)
    (entry : string * string) : string :=
  let (namedImportAlias, pluginName) := entry in
  "import { plugin as " ++ namedImportAlias ++ " } from '" ++
    (if truthy (absoluteModuleImports config)
     then resolveFrom ("nexus-plugin-" ++ pluginName)
            (projectRoot (layout config))
     else "nexus-plugin-" ++ pluginName ++ "/dist/runtime") ++
  "'".

Definition printPluginUse (entry : string * string) : string :=
  let (namedImportAlias, pluginName) := entry in
  "app.__use('" ++ pluginName ++ "', " ++ namedImportAlias ++ ")".

(** [createStartModuleContent(config)]; [random] stands for
    [Math.random]. *)
Definition createStartModuleContent (config : StartModuleConfig)
    (random : nat -> string) : string :=
  let content := "// " ++ START_MODULE_HEADER ++ nl in

  let content := content ++ EOL ++ EOL ++ EOL in
  let content := content ++ stripIndent (
    nl ++
    "    process.env.NEXUS_SHOULD_GENERATE_ARTIFACTS = '" ++
      printBool (negb (truthy (disableArtifactGeneration config))) ++
      "'" ++ nl ++
    "  ") in

  let content :=
    match internalStage config with
    | dev =>
        let content := content ++ EOL ++ EOL ++ EOL in
        content ++ stripIndent (
          nl ++
          "      process.env.NEXUS_STAGE = 'dev'" ++ nl ++
          "    ")
    | build => content
    end in

  let content := content ++ EOL ++ EOL ++ EOL in
  let content := content ++ stripIndent (
    nl ++
    "    // Run framework initialization side-effects" ++ nl ++
    "    // Also, import the app for later use" ++ nl ++
    "    const app = require(" ++ dq ++
      (if truthy (absoluteModuleImports config)
       then resolveFrom "nexus" (projectRoot (layout config))
       else "nexus") ++
      dq ++ ").default" ++ nl ++
    "  ") in

  let content := content ++ EOL ++ EOL ++ EOL in
  let content := content ++ stripIndent (
    nl ++
    "    // Last resort error handling" ++ nl ++
    "    process.once('uncaughtException', error => {" ++ nl ++
    "      app.log.fatal('uncaughtException', { error: error })" ++ nl ++
    "      process.exit(1)" ++ nl ++
    "    })" ++ nl ++
    nl ++
    "    process.once('unhandledRejection', error => {" ++ nl ++
    "      app.log.fatal('unhandledRejection', { error: error })" ++ nl ++
    "      process.exit(1)" ++ nl ++
    "    })" ++ nl ++
    "  ") in

  let content :=
    match packageJson (layout config) with
    | Some packageJsonPath =>
        let content := content ++ EOL ++ EOL ++ EOL in
        content ++ stripIndent (
          nl ++
          "      // package.json is needed for plugin auto-import system." ++ nl ++
          "      // On the Zeit Now platform, builds and dev copy source into" ++ nl ++
          "      // new directory. Copying follows paths found in source. Give one here" ++ nl ++
          "      // to package.json to make sure Zeit Now brings it along." ++ nl ++
          "      require('" ++
            (if truthy (absoluteModuleImports config)
             then packageJsonPath
             else pathRelative (buildOutputRelative (layout config))
                    packageJsonPath) ++
            "')" ++ nl ++
          "    ")
    | None => content
    end in

  let staticImports :=
    printStaticImports (layout config) (absoluteModuleImports config) in
  let content :=
    if String.eqb staticImports "" then content
    else
      let content := content ++ EOL ++ EOL ++ EOL in
      content ++ stripIndent (
        nl ++
        "        // Import the user's schema modules" ++ nl ++
        "        " ++ staticImports ++ nl ++
        "      ") in

  let content :=
    match app (layout config) with
    | Some appPath =>
        let content := content ++ EOL ++ EOL ++ EOL in
        content ++ stripIndent (
          nl ++
          "      // Import the user's app module" ++ nl ++
          "      require(" ++ dq ++
            (if truthy (absoluteModuleImports config)
             then stripExt appPath
             else "./" ++ stripExt (sourceRelative (layout config) appPath)) ++
            dq ++ ")" ++ nl ++
          "    ")
    | None => content
    end in

  let content :=
    match runtimePluginNames config with
    | [] => content
    | _ :: _ =>
        let aliasAndPluginNames := aliasAndPluginNames config random in
        let content := content ++ EOL ++ EOL ++ EOL in
        content ++ stripIndent (
          nl ++
          "      // Apply runtime plugins" ++ nl ++
          "      " ++
            join EOL (map (printPluginImport config) aliasAndPluginNames) ++
            nl ++
          nl ++
          "      " ++
            join EOL (map printPluginUse aliasAndPluginNames) ++ nl ++
          "    ")
    end in

  let content := content ++ EOL ++ EOL ++ EOL in
  let content := content ++ stripIndent (
    nl ++
    "    // Boot the server if the user did not already." ++ nl ++
    "    if (app.__state.isWasServerStartCalled === false) {" ++ nl ++
    "      app.server.start()" ++ nl ++
    "    }  " ++ nl ++
    "  ") in

  content.

End CreateStartModuleContent.

(** ** A reference [stripIndent]

    What the tag does to a text whose lines end in a line feed: it takes
    the shortest indentation of the lines that are not blank, removes that
    many characters from the start of every line that has as many, and
    trims the result. *)

Definition isSpace (c : ascii) : bool :=
  let n := nat_of_ascii c in
  ((n =? 32) || ((9 <=? n) && (n <=? 13)))%nat.

Fixpoint indentation (line : list ascii) : nat :=
  match line with
  | c :: line' => if isSpace c then S (indentation line') else 0
  | [] => 0
  end.

Definition minIndent (lines : list (list ascii)) : option nat :=
  fold_right
    (fun line acc =>
       if forallb isSpace line then acc
       else match acc with
            | None => Some (indentation line)
            | Some n => Some (Nat.min (indentation line) n)
            end)
    None lines.

Definition unindent (n : nat) (line : list ascii) : list ascii :=
  if (n <=? List.length line)%nat then skipn n line else line.

Fixpoint unlines (lines : list (list ascii)) : list ascii :=
  match lines with
  | [] => []
  | [line] => line
  | line :: rest => (line ++ "010"%char :: unlines rest)%list
  end.

Fixpoint trimStart (s : list ascii) : list ascii :=
  match s with
  | c :: s' => if isSpace c then trimStart s' else s
  | [] => []
  end.

Definition trim (s : list ascii) : list ascii :=
  rev (trimStart (rev (trimStart s))).

Definition refStripIndent (s : string) : string :=
  let text := list_ascii_of_string s in
  let lines := Matcher.splitOn "010"%char [] text in
  let stripped :=
    match minIndent lines with
    | Some (S n) => unlines (map (unindent (S n)) lines)
    | _ => text
    end in
  string_of_list_ascii (trim stripped).

(** Two texts that have different characters at position [k]. *)
Definition differAt (k : nat) (s1 s2 : string) : Prop :=
  k < String.length s1 /\ k < String.length s2 /\ get k s1 <> get k s2.

(** A project with one runtime plugin and nothing else to import. *)
Definition onePlugin : StartModuleConfig :=
  {| internalStage := build;
     layout :=
       {| projectRoot := "/project";
          sourceRoot := "/project/src";
          buildOutputRelative := "node_modules/.build";
          schemaModules := [];
          app := None;
          packageJson := None;
          sourceRelative := fun path => path |};
     disableArtifactGeneration := None;
     absoluteModuleImports := None;
     runtimePluginNames := ["prisma"] |}.

Definition noPlugin : StartModuleConfig :=
  {| internalStage := dev;
     layout := layout onePlugin;
     disableArtifactGeneration := None;
     absoluteModuleImports := None;
     runtimePluginNames := [] |}.

End StartModule.

(* ===================================================================== *)
(** * Concrete projects *)
(* ===================================================================== *)

Module Examples.

Import Watcher.

Definition noSettings : WatcherSettings :=
  {| watchFilePatterns := None;
     appIgnoreFilePatterns := None;
     pluginAllowFilePatterns := None;
     pluginIgnoreFilePatterns := None |}.

(** A project without plugins. *)
Definition bare : Opts :=
  {| sourceRoot := "src"; plugins := [] |}.

Definition tsconfig : string := "tsconfig.json".

(** A plugin with every restart hook; none fails. *)
Definition steady : WorktimeHooks :=
  {| addToWatcherSettings := noSettings;
     onBeforeWatcherStartOrRestart := Some (fun _ => Returns (Returns None));
     onBeforeWatcherRestart := Some (fun _ => Returns (Returns tt));
     onAfterWatcherRestart := Some (fun _ => Returns (Returns tt));
     onFileWatcherEvent := None |}.

(** A plugin whose hooks before and after the restart throw. *)
Definition faulty : WorktimeHooks :=
  {| addToWatcherSettings := noSettings;
     onBeforeWatcherStartOrRestart := None;
     onBeforeWatcherRestart := Some (fun _ => Throws "before failed");
     onAfterWatcherRestart := Some (fun _ => Throws "after failed");
     onFileWatcherEvent := None |}.

(** A plugin that ignores generated files for the app and listens to
    them itself. *)
Definition generator : WorktimeHooks :=
  {| addToWatcherSettings :=
       {| watchFilePatterns := None;
          appIgnoreFilePatterns := Some ["src/generated/**"];
          pluginAllowFilePatterns := Some ["src/generated/*.ts"];
          pluginIgnoreFilePatterns := None |};
     onBeforeWatcherStartOrRestart := None;
     onBeforeWatcherRestart := None;
     onAfterWatcherRestart := None;
     onFileWatcherEvent := Some (fun _ _ => Returns tt) |}.

(** A plugin whose hooks before and after the restart return a promise
    that is rejected. *)
Definition rejecting : WorktimeHooks :=
  {| addToWatcherSettings := noSettings;
     onBeforeWatcherStartOrRestart := None;
     onBeforeWatcherRestart := Some (fun _ => Returns (Throws "before rejected"));
     onAfterWatcherRestart := Some (fun _ => Returns (Throws "after rejected"));
     onFileWatcherEvent := None |}.

Definition withSteady : Opts :=
  {| sourceRoot := "src"; plugins := [steady] |}.

Definition withRejecting : Opts :=
  {| sourceRoot := "src"; plugins := [rejecting; steady] |}.

Definition withFaulty : Opts :=
  {| sourceRoot := "src"; plugins := [faulty; steady] |}.

Definition withGenerator : Opts :=
  {| sourceRoot := "src"; plugins := [generator] |}.

Definition idle : Machine :=
  {| restarting := false; paused := false; pending := [] |}.

Definition busyMachine : Machine :=
  {| restarting := true; paused := false; pending := [] |}.

End Examples.

(* ===================================================================== *)
(** * Notions for the further properties *)
(* ===================================================================== *)

Module Derived.

Import Watcher.

(** An event whose callback calls [restart]: a watch event (in the core
    listener) and the restart control of a plugin. *)
Definition callsRestart (ev : Event) : bool :=
  match ev with
  | WatchAll _ _ | LensRestart _ => true
  | _ => false
  end.

(** The runner changes that the hooks give for [event], in the order of
    the plugins. *)
Definition patches (event : ChangeEvent) (ps : list (nat * WorktimeHooks))
    : list RunnerOptions :=
  flat_map
    (fun ip =>
       match onBeforeWatcherStartOrRestart (snd ip) with
       | Some hook =>
           match hook event with
           | Returns (Returns (Some changes)) => [changes]
           | _ => []
           end
       | None => []
       end)
    ps.

(** The arguments of the calls of [link.updateOptions], in order. *)
Definition updatesOf (tr : list Action) : list RunnerOptions :=
  flat_map
    (fun a => match a with LinkUpdateOptions changes => [changes] | _ => [] end)
    tr.

(** The call of the before-start-or-restart hook of one plugin, when the
    plugin has the hook. *)
Definition callOf (event : ChangeEvent) (ip : nat * WorktimeHooks)
    : list Action :=
  match onBeforeWatcherStartOrRestart (snd ip) with
  | Some _ => [Call_onBeforeWatcherStartOrRestart (fst ip) event]
  | None => []
  end.

(** The call of the hook returns (something to await). *)
Definition returnsPromise (event : ChangeEvent) (p : WorktimeHooks) : Prop :=
  forall hook, onBeforeWatcherStartOrRestart p = Some hook ->
    exists promise, hook event = Returns promise.

(** The patterns that a plugin adds to what the core listener ignores. *)
Definition ignorePatternsOf (p : WorktimeHooks) : list string :=
  orEmpty (appIgnoreFilePatterns (addToWatcherSettings p)).

(** [s] begins with [h]. *)
Definition startsWith (h s : string) : Prop :=
  exists rest, s = (h ++ rest)%string.

(** The characters of the text of a drawn number that go into an alias. *)
Definition digits (random : nat -> string) (i : nat) : string :=
  substring 2 3 (random i).




(** A layout with other schema modules. *)
Definition withModules (layout : StartModule.Layout) (modules : list string)
    : StartModule.Layout :=
  {| StartModule.projectRoot := StartModule.projectRoot layout;
     StartModule.sourceRoot := StartModule.sourceRoot layout;
     StartModule.buildOutputRelative := StartModule.buildOutputRelative layout;
     StartModule.schemaModules := modules;
     StartModule.app := StartModule.app layout;
     StartModule.packageJson := StartModule.packageJson layout;
     StartModule.sourceRelative := StartModule.sourceRelative layout |}.

End Derived.

(* ===================================================================== *)
(** * More concrete projects *)
(* ===================================================================== *)

Module MoreExamples.

Import Watcher.

(** A plugin whose hook gives runner changes. *)
Definition patching : WorktimeHooks :=
  {| addToWatcherSettings :=
       {| watchFilePatterns := Some ["prisma/schema.prisma"];
          appIgnoreFilePatterns := None;
          pluginAllowFilePatterns := None;
          pluginIgnoreFilePatterns := None |};
     onBeforeWatcherStartOrRestart :=
       Some (fun _ =>
         Returns (Returns (Some
           {| environmentAdditions := Some [("PORT", "4000")] |})));
     onBeforeWatcherRestart := None;
     onAfterWatcherRestart := None;
     onFileWatcherEvent := None |}.

Definition withPatching : Opts :=
  {| sourceRoot := "src"; plugins := [patching; Examples.steady] |}.

(** A restart of [Examples.withSteady] that waits for its first hook. *)
Definition waiting : Machine :=
  fst (exec (restart Examples.tsconfig (PluginEvent "src/a.ts")
               (registered Examples.withSteady)) Examples.idle).

(** A project with two schema modules. *)
Definition twoModules : StartModule.Layout :=
  {| StartModule.projectRoot := "/project";
     StartModule.sourceRoot := "/project/src";
     StartModule.buildOutputRelative := "node_modules/.build";
     StartModule.schemaModules :=
       ["/project/src/user.ts"; "/project/src/post.ts"];
     StartModule.app := Some "/project/src/app.ts";
     StartModule.packageJson := Some "/project/package.json";
     StartModule.sourceRelative := fun path => path |}.

Definition twoPlugins : StartModule.StartModuleConfig :=
  {| StartModule.internalStage := StartModule.dev;
     StartModule.layout := twoModules;
     StartModule.disableArtifactGeneration := None;
     StartModule.absoluteModuleImports := None;
     StartModule.runtimePluginNames := ["prisma"; "auth"] |}.

End MoreExamples.

(* ===================================================================== *)
(** * Properties of the path matcher *)
(* ===================================================================== *)

Section MatcherFacts.

Import Matcher.

Variable glob : string -> string -> bool.

Lemma isNegated_bang (pattern : string) :
  isNegated ("!" ++ pattern)%string = true.
Proof. reflexivity. Qed.

Lemma slice1_bang (pattern : string) :
  slice1 ("!" ++ pattern)%string = pattern.
Proof. reflexivity. Qed.

Lemma filter_negated_allow (allow : list string) :
  (forall p, In p allow -> isNegated p = false) ->
  filter isNegated allow = [] /\
  filter (fun item => negb (isNegated item)) allow = allow.
Proof.
  induction allow as [|a allow IH]; intros Hpos; [now split|].
  cbn [filter]. rewrite (Hpos a (or_introl eq_refl)). cbn [negb].
  destruct IH as [IH1 IH2].
  - intros p Hp. apply Hpos. now right.
  - split; [exact IH1 | now rewrite IH2].
Qed.

Lemma filter_negated_deny (deny : list string) :
  filter isNegated (map (fun pattern => ("!" ++ pattern)%string) deny)
    = map (fun pattern => ("!" ++ pattern)%string) deny /\
  filter (fun item => negb (isNegated item))
    (map (fun pattern => ("!" ++ pattern)%string) deny) = [].
Proof.
  induction deny as [|d deny [IH1 IH2]]; [now split|].
  cbn [map filter]. rewrite isNegated_bang. cbn [negb].
  split; [now rewrite IH1 | exact IH2].
Qed.

(** The two lists the matcher is compiled from come back as the
    positive matchers and the negated globs of [anymatch]. *)
Lemma createPathMatcher_unfold (allow deny : list string) (path : string) :
  (forall p, In p allow -> isNegated p = false) ->
  createPathMatcher glob (Some allow) (Some deny) path =
    negb (existsb (fun d => glob d path) deny)
    && existsb (fun p => satisfies glob p path) allow.
Proof.
  intros Hpos. unfold createPathMatcher, anymatch.
  rewrite !filter_app.
  destruct (filter_negated_allow allow Hpos) as [-> ->].
  destruct (filter_negated_deny deny) as [-> ->].
  rewrite app_nil_l, app_nil_r, map_map.
  rewrite (map_ext _ (fun d => d) (fun d => slice1_bang d)), map_id.
  now destruct (existsb (fun d => glob d path) deny).
Qed.

Lemma createPathMatcher_no_allow (toIgnore : option (list string))
    (path : string) :
  createPathMatcher glob (Some []) toIgnore path = false /\
  createPathMatcher glob None toIgnore path = false.
Proof.
  assert (H : forall deny,
    anymatch glob ([] ++ map (fun pattern => ("!" ++ pattern)%string) deny)
      path = false).
  { intros deny. unfold anymatch. cbn [app].
    destruct (filter_negated_deny deny) as [-> ->].
    now destruct (existsb _ _). }
  unfold createPathMatcher. destruct toIgnore as [deny|].
  - split; apply H.
  - split; reflexivity.
Qed.

End MatcherFacts.

(** C6, as the claim states it, fails where the allow list is empty: the
    claim makes every path a candidate there, and the matcher rejects
    every path. *)
Lemma createPathMatcher_empty_allow_rejects :
  ((exists p, In p (@nil string) /\
      Matcher.satisfies Matcher.refglob p "src/a.ts" = true)
   \/ @nil string = [])
  /\ (forall d, In d (@nil string) -> Matcher.refglob d "src/a.ts" = false)
  /\ Matcher.createPathMatcher Matcher.refglob (Some []) (Some []) "src/a.ts"
       = false.
Proof.
  split; [now right|]. split; [intros d []|reflexivity].
Qed.

(** C6 (amended): a path matches if and only if it satisfies at least one
    allow pattern and no deny pattern, so that deny wins over allow; with
    an empty (or absent) allow list no path matches. With
    allow = [src/**/*.ts] and deny = [src/**/*.test.ts], src/a.ts matches
    and src/a.test.ts and lib/a.ts do not. Allow patterns are taken not to
    start with [!]. *)
Theorem createPathMatcher_allow_and_not_deny :
  (forall glob allow deny path,
      (forall p, In p allow -> Matcher.isNegated p = false) ->
      (Matcher.createPathMatcher glob (Some allow) (Some deny) path = true
       <->
       (exists p, In p allow /\ Matcher.satisfies glob p path = true) /\
       (forall d, In d deny -> glob d path = false)))
  /\ (forall glob toIgnore path,
      Matcher.createPathMatcher glob (Some []) toIgnore path = false /\
      Matcher.createPathMatcher glob None toIgnore path = false)
  /\ (let matcher :=
        Matcher.createPathMatcher Matcher.refglob
          (Some ["src/**/*.ts"]) (Some ["src/**/*.test.ts"]) in
      matcher "src/a.ts" = true /\
      matcher "src/a.test.ts" = false /\
      matcher "lib/a.ts" = false).
Proof.
  split; [|split].
  - intros glob allow deny path Hpos.
    rewrite (createPathMatcher_unfold glob allow deny path Hpos).
    rewrite andb_true_iff, negb_true_iff, existsb_exists.
    split.
    + intros [Hdeny Hallow]. split; [exact Hallow|].
      intros d Hd. destruct (glob d path) eqn:E; [|reflexivity].
      assert (Hex : existsb (fun d => glob d path) deny = true)
        by (apply existsb_exists; now exists d).
      congruence.
    + intros [Hallow Hdeny]. split; [|exact Hallow].
      destruct (existsb (fun d => glob d path) deny) eqn:E; [|reflexivity].
      apply existsb_exists in E. destruct E as [d [Hd Hg]].
      rewrite (Hdeny d Hd) in Hg. discriminate.
  - intros glob toIgnore path. apply createPathMatcher_no_allow.
  - cbv zeta. repeat split; vm_compute; reflexivity.
Qed.

Lemma createPathMatcher_allow_and_not_deny_witness :
  Matcher.createPathMatcher Matcher.refglob
    (Some ["src/**/*.ts"]) (Some ["src/**/*.test.ts"]) "src/a.ts" = true
  <->
  (exists p, In p ["src/**/*.ts"] /\
     Matcher.satisfies Matcher.refglob p "src/a.ts" = true) /\
  (forall d, In d ["src/**/*.test.ts"] ->
     Matcher.refglob d "src/a.ts" = false).
Proof.
  apply (proj1 createPathMatcher_allow_and_not_deny).
  intros p [<-|[]]. reflexivity.
Defined.

(* ===================================================================== *)
(** * Properties of the watcher *)
(* ===================================================================== *)

Section ExecFacts.

Import Watcher Protocol.

Lemma pre_nil r : pre [] r = r.
Proof. now destruct r. Qed.

Lemma pair_pre (m : Machine) out : (m, out) = pre out (m, []).
Proof. unfold pre. cbn [fst snd]. now rewrite app_nil_r. Qed.

Lemma pre_pre o1 o2 r : pre o1 (pre o2 r) = pre (o1 ++ o2) r.
Proof. unfold pre. cbn [fst snd]. now rewrite app_assoc. Qed.

Lemma andThen_pre out r f : andThen (pre out r) f = pre out (andThen r f).
Proof.
  destruct r as [m o]. unfold pre, andThen. cbn [fst snd].
  destruct (f m) as [m' o']. cbn [fst snd]. now rewrite app_assoc.
Qed.

Lemma andThen_exec m out f : andThen (m, out) f = pre out (f m).
Proof. unfold andThen, pre. now destruct (f m). Qed.

Lemma exec_Do a next m :
  exec (Do a next) m = pre [a] (exec next (perform a m)).
Proof. cbn [exec]. now destruct (exec next (perform a m)). Qed.

Lemma exec_Write value next m :
  exec (WriteRestarting value next) m
    = pre [SetRestarting value] (exec next (setRestarting value m)).
Proof. cbn [exec]. now destruct (exec next (setRestarting value m)). Qed.

Lemma exec_Read next m :
  exec (ReadRestarting next) m = exec (next (restarting m)) m.
Proof. reflexivity. Qed.

Lemma exec_Async body next m :
  exec (Async body next) m = andThen (exec body m) (exec next).
Proof. reflexivity. Qed.

Lemma perform_quiet a m : quiet a = true -> perform a m = m.
Proof. destruct m, a; cbn; intros H; try reflexivity; discriminate. Qed.

Lemma perform_restarting a m : restarting (perform a m) = restarting m.
Proof. reflexivity. Qed.

Lemma perform_pending a m : pending (perform a m) = pending m.
Proof. reflexivity. Qed.

Lemma pausedAfter_app o1 o2 b :
  pausedAfter (o1 ++ o2) b = pausedAfter o2 (pausedAfter o1 b).
Proof. apply fold_left_app. Qed.

(** Whether the watcher is paused can be read off the actions. *)
Lemma exec_paused p :
  forall m, paused (fst (exec p m)) = pausedAfter (snd (exec p m)) (paused m).
Proof.
  induction p as [|e|a next IH|next IH|value next IH|promise next IH|next IH
                  |body IHb next IHn]; intros m.
  - reflexivity.
  - reflexivity.
  - rewrite exec_Do. cbn [pre fst snd]. rewrite IH. reflexivity.
  - cbn [exec]. apply IH.
  - rewrite exec_Write. cbn [pre fst snd]. rewrite IH. reflexivity.
  - reflexivity.
  - reflexivity.
  - rewrite exec_Async. unfold andThen.
    specialize (IHb m). destruct (exec body m) as [m1 o1].
    specialize (IHn m1). destruct (exec next m1) as [m2 o2].
    cbn [fst snd] in *. now rewrite pausedAfter_app, <- IHb.
Qed.

Lemma pausedAfter_no_pause tr :
  ~ In WatcherPause tr -> pausedAfter tr false = false.
Proof.
  unfold pausedAfter. induction tr as [|a tr IH]; intros H; [reflexivity|].
  cbn [fold_left].
  assert (Ha : watcherPaused a false = false).
  { destruct a; try reflexivity. exfalso. apply H. now left. }
  rewrite Ha. apply IH. intros Hin. apply H. now right.
Qed.

Lemma follow_app options tr1 tr2 q :
  follow options q (tr1 ++ tr2) =
    match follow options q tr1 with
    | Some q' => follow options q' tr2
    | None => None
    end.
Proof.
  revert q. induction tr1 as [|a tr1 IH]; intros q; [reflexivity|].
  cbn [app follow]. destruct (next options q a); [apply IH|reflexivity].
Qed.

End ExecFacts.

Section InvariantFacts.

Import Watcher Protocol.

Variable glob : string -> string -> bool.
Variable options : Opts.
Variable tsConfigPath : string.

Lemma foreign_next a q : foreign a = true -> next options q a = Some q.
Proof. destruct a; cbn; intros H; try discriminate; reflexivity. Qed.

Lemma foreign_not_pause a : foreign a = true -> a <> WatcherPause.
Proof. intros H ->. discriminate. Qed.

Lemma quiet_not_pause tr :
  Forall (fun a => quiet a = true) tr -> ~ In WatcherPause tr.
Proof.
  intros H Hin. rewrite Forall_forall in H. specialize (H _ Hin).
  discriminate.
Qed.

Lemma consistent_perform q m a :
  Consistent options q m -> Consistent options q (perform a m).
Proof. destruct q; cbn; auto. Qed.

(** The rest of a cycle, run from its suspension point. *)
Lemma exec_inCycle kind stage p :
  InCycle options kind stage p ->
  forall m, restarting m = true -> pending m = [] ->
  exists q',
    follow options (Restarting kind stage) (snd (exec p m)) = Some q'
    /\ Consistent options q' (fst (exec p m))
    /\ Forall (fun a => quiet a = true) (snd (exec p m)).
Proof.
  induction 1 as [kind stage e|kind stage stage' a k Hq Hnext Hk IH|kind
                  |kind stage promise k Hk IH|kind stage k Hk IH];
    intros m Hr Hp.
  - exists (Restarting kind stage). cbn. repeat split; auto.
  - rewrite exec_Do, (perform_quiet _ _ Hq).
    destruct (IH m Hr Hp) as [q' [Hf [Hc Hall]]].
    exists q'. cbn [pre fst snd app follow]. rewrite Hnext.
    repeat split; auto.
  - exists Idle. rewrite exec_Write. cbn. repeat split; auto.
  - exists (Restarting kind stage). cbn. repeat split; auto.
    right. rewrite Hp. eexists. split; [reflexivity|]. exact Hk.
  - exists (Restarting kind stage). cbn. repeat split; auto.
    right. rewrite Hp. eexists. split; [reflexivity|]. exact Hk.
Qed.

Lemma inCycle_forAwait kind event ps k :
  tagged kind event = true ->
  InCycle options kind (BeforeStartOrRestart []) k ->
  InCycle options kind
    (BeforeStartOrRestart (withHook onBeforeWatcherStartOrRestart ps))
    (forAwait_onBeforeWatcherStartOrRestart event ps k).
Proof.
  intros Htag Hk. induction ps as [|[i p] rest IH]; [exact Hk|].
  unfold withHook in *. cbn [forAwait_onBeforeWatcherStartOrRestart filter snd].
  destruct (onBeforeWatcherStartOrRestart p) as [hook|].
  - cbn [map fst].
    eapply InCycle_Do; [reflexivity| |].
    + cbn [next]. rewrite Nat.eqb_refl, Htag. reflexivity.
    + destruct (hook event) as [promise|e]; [|constructor].
      constructor. intros [changes|]; [|exact IH].
      eapply InCycle_Do; [reflexivity|reflexivity|exact IH].
  - constructor. intros _. exact IH.
Qed.

Lemma inCycle_forEach ps k :
  (forall stage, beforeRestartTodo options stage = Some [] ->
                 InCycle options Restart stage k) ->
  forall stage,
  beforeRestartTodo options stage
    = Some (withHook onBeforeWatcherRestart ps) ->
  InCycle options Restart stage (forEach_onBeforeWatcherRestart ps k).
Proof.
  intros Hk. induction ps as [|[i p] rest IH]; intros stage Hs.
  - apply Hk. exact Hs.
  - unfold withHook in *. cbn [forEach_onBeforeWatcherRestart filter snd] in *.
    destruct (onBeforeWatcherRestart p) as [hook|].
    + cbn [map fst] in Hs.
      eapply InCycle_Do with
        (stage' := BeforeRestart
                     (map fst (filter (fun ip =>
                        match onBeforeWatcherRestart (snd ip) with
                        | Some _ => true | None => false end) rest))).
      * reflexivity.
      * cbn [next]. rewrite Hs, Nat.eqb_refl. reflexivity.
      * destruct (hook tt); [|constructor]. apply IH. reflexivity.
    + apply IH. exact Hs.
Qed.

Lemma inCycle_invalidate change stage :
  beforeRestartTodo options stage = Some [] ->
  InCycle options Restart stage
    (Do (Log info "restarting" (OfEvent (PostInit change)))
      ((if String.eqb (fileOf change) tsConfigPath
        then fun k =>
          Do (Log trace "reinitializing TS compilation" NoContext)
            (Do CompilerInit k)
        else fun k => k)
       (Do (CompileChanged (fileOf change))
         (Do LinkStartOrRestart
           (AwaitLink (WriteRestarting false Done)))))).
Proof.
  intros Hs.
  assert (Htail : InCycle options Restart Invalidated
            (Do LinkStartOrRestart (AwaitLink (WriteRestarting false Done)))).
  { eapply InCycle_Do; [reflexivity|reflexivity|].
    constructor. constructor. }
  eapply InCycle_Do; [reflexivity|reflexivity|].
  destruct (String.eqb (fileOf change) tsConfigPath).
  - eapply InCycle_Do; [reflexivity|reflexivity|].
    eapply InCycle_Do with (stage' := Reinitialized); [reflexivity| |].
    + cbn [next]. rewrite Hs. reflexivity.
    + eapply InCycle_Do; [reflexivity|reflexivity|exact Htail].
  - eapply InCycle_Do with (stage' := Invalidated); [reflexivity| |exact Htail].
    destruct stage as [todo|todo| | |]; cbn in Hs |- *; try discriminate.
    + destruct todo; [|discriminate]. injection Hs as Hs. now rewrite Hs.
    + injection Hs as ->. reflexivity.
Qed.

(** A call of [restart] keeps the machine and the protocol in step. *)
Lemma exec_restart change q m :
  Consistent options q m ->
  exists q',
    follow options q
      (snd (exec (restart tsConfigPath change (registered options)) m))
      = Some q'
    /\ Consistent options q'
         (fst (exec (restart tsConfigPath change (registered options)) m))
    /\ Forall (fun a => quiet a = true)
         (snd (exec (restart tsConfigPath change (registered options)) m)).
Proof.
  intros Hc. unfold restart. cbn [exec].
  destruct q as [| |kind stage]; [contradiction| |].
  - destruct Hc as [Hr Hp]. rewrite Hr. rewrite exec_Write.
    edestruct (exec_inCycle Restart (BeforeStartOrRestart (phase3 options)))
      as [q' [Hf [Hc' Hall]]].
    2:{ instantiate (1 := setRestarting true m). reflexivity. }
    2:{ exact Hp. }
    2:{ exists q'. cbn [pre fst snd app follow next]. repeat split.
        - exact Hf.
        - exact Hc'.
        - constructor; [reflexivity|exact Hall]. }
    eapply InCycle_Do; [reflexivity|reflexivity|].
    eapply InCycle_Do; [reflexivity|reflexivity|].
    apply inCycle_forAwait; [reflexivity|].
    eapply InCycle_Do; [reflexivity|reflexivity|].
    apply inCycle_forEach; [|reflexivity].
    intros stage Hs. apply inCycle_invalidate. exact Hs.
  - destruct Hc as [Hr Hp]. rewrite Hr.
    exists (Restarting kind stage). cbn. repeat split; auto.
Qed.

(** A callback keeps the machine and the protocol in step, and does not
    pause the watcher. *)
Lemma exec_callback p :
  Callback options tsConfigPath p ->
  forall q m, Consistent options q m ->
  exists q',
    follow options q (snd (exec p m)) = Some q'
    /\ Consistent options q' (fst (exec p m))
    /\ ~ In WatcherPause (snd (exec p m)).
Proof.
  induction 1 as [|e|a k Ha Hk IH|change k Hk IH]; intros q m Hc.
  - exists q. cbn. auto.
  - exists q. cbn. repeat split; auto. intros [H|[]]. discriminate.
  - rewrite exec_Do.
    destruct (IH q (perform a m) (consistent_perform _ _ a Hc))
      as [q' [Hf [Hc' Hno]]].
    exists q'. cbn [pre fst snd app follow].
    rewrite (foreign_next _ _ Ha). repeat split; auto.
    intros [H|H]; [now apply (foreign_not_pause _ Ha)|now apply Hno].
  - rewrite exec_Async. unfold andThen.
    destruct (exec_restart change q m Hc) as [q1 [Hf1 [Hc1 Hall1]]].
    destruct (exec (restart tsConfigPath change (registered options)) m)
      as [m1 o1].
    cbn [fst snd] in *.
    destruct (IH q1 m1 Hc1) as [q2 [Hf2 [Hc2 Hno2]]].
    destruct (exec k m1) as [m2 o2]. cbn [fst snd] in *.
    exists q2. rewrite follow_app, Hf1. repeat split; auto.
    rewrite in_app_iff. intros [H|H]; [|now apply Hno2].
    now apply (quiet_not_pause _ Hall1).
Qed.

Lemma callback_pluginListeners ps event file k :
  Callback options tsConfigPath k ->
  Callback options tsConfigPath (pluginListeners glob ps event file k).
Proof.
  intros Hk. induction ps as [|[i p] rest IH]; [exact Hk|].
  cbn [pluginListeners].
  destruct (onFileWatcherEvent p) as [handler|]; [|exact IH].
  destruct (isMatchedByPluginListener glob p file).
  - constructor; [reflexivity|]. constructor; [reflexivity|].
    destruct (handler event file); [exact IH|constructor].
  - constructor; [reflexivity|exact IH].
Qed.

Lemma callback_emitAll type file :
  Callback options tsConfigPath (emitAll glob options tsConfigPath type file).
Proof.
  unfold emitAll, coreListener.
  destruct (isIgnoredByCoreListener glob options file).
  - constructor; [reflexivity|].
    apply callback_pluginListeners. constructor.
  - constructor; [reflexivity|]. constructor.
    apply callback_pluginListeners. constructor.
Qed.

Lemma callback_forEach_onAfterWatcherRestart ps k :
  Callback options tsConfigPath k ->
  Callback options tsConfigPath (forEach_onAfterWatcherRestart ps k).
Proof.
  intros Hk. induction ps as [|[i p] rest IH]; [exact Hk|].
  cbn [forEach_onAfterWatcherRestart].
  destruct (onAfterWatcherRestart p) as [hook|]; [|exact IH].
  constructor; [reflexivity|].
  destruct (hook tt); [exact IH|constructor].
Qed.

Lemma nth_error_single {A : Type} (x y : A) n :
  nth_error [x] n = Some y -> n = 0 /\ y = x.
Proof.
  destruct n as [|n]; cbn.
  - intros H. injection H as <-. auto.
  - destruct n; discriminate.
Qed.

(** The suspended function of a cycle goes on. *)
Lemma exec_wake kind stage p m n s :
  restarting m = true ->
  pending m = [s] ->
  nth_error (pending m) n = Some s ->
  InCycle options kind stage p ->
  exists q',
    follow options (Restarting kind stage) (snd (exec p (wake n m))) = Some q'
    /\ Consistent options q' (fst (exec p (wake n m)))
    /\ ~ In WatcherPause (snd (exec p (wake n m))).
Proof.
  intros Hr Hp Hn Hin.
  rewrite Hp in Hn. apply nth_error_single in Hn. destruct Hn as [-> _].
  destruct (exec_inCycle kind stage p Hin (wake 0 m)) as [q' [Hf [Hc Hall]]].
  - exact Hr.
  - cbn. now rewrite Hp.
  - exists q'. repeat split; auto. now apply quiet_not_pause.
Qed.

(** Every event keeps the machine and the protocol in step; only the
    pause control of a plugin pauses the watcher. *)
Lemma step_consistent q m ev :
  Consistent options q m ->
  exists q',
    follow options q (snd (step glob options tsConfigPath m ev)) = Some q'
    /\ Consistent options q' (fst (step glob options tsConfigPath m ev))
    /\ (ev <> LensPause ->
        ~ In WatcherPause (snd (step glob options tsConfigPath m ev))).
Proof.
  intros Hc.
  assert (Hcb : forall p, Callback options tsConfigPath p ->
    exists q', follow options q (snd (exec p m)) = Some q'
      /\ Consistent options q' (fst (exec p m))
      /\ (ev <> LensPause -> ~ In WatcherPause (snd (exec p m)))).
  { intros p Hp. destruct (exec_callback p Hp q m Hc) as [q' [Hf [Hc' Hno]]].
    exists q'. auto. }
  assert (Hstay : exists q', follow options q [] = Some q'
      /\ Consistent options q' m
      /\ (ev <> LensPause -> ~ In WatcherPause [])).
  { exists q. cbn. auto. }
  assert (Hthrow : forall e n s,
    nth_error (pending m) n = Some s ->
    exists q', follow options q (snd (exec (Throw e) (wake n m))) = Some q'
      /\ Consistent options q' (fst (exec (Throw e) (wake n m)))
      /\ (ev <> LensPause ->
          ~ In WatcherPause (snd (exec (Throw e) (wake n m))))).
  { intros e n s Hn. exists q. cbn [exec fst snd follow next].
    repeat split.
    - destruct q as [| |kind stage]; [contradiction| |].
      + destruct Hc as [_ Hp]. rewrite Hp in Hn. now destruct n.
      + destruct Hc as [Hr [Hp|[s' [Hp _]]]];
          [rewrite Hp in Hn; now destruct n|].
        rewrite Hp in Hn. apply nth_error_single in Hn.
        destruct Hn as [-> _].
        cbn. split; [exact Hr|left]. now rewrite Hp.
    - intros _ [H|[]]. discriminate. }
  destruct ev; cbn [step].
  - apply Hcb. unfold intake. destruct (paused m); [constructor|].
    apply callback_emitAll.
  - apply Hcb. repeat constructor.
  - apply Hcb. repeat constructor.
  - apply Hcb. repeat constructor.
  - apply Hcb. unfold onServerListening.
    apply callback_forEach_onAfterWatcherRestart. repeat constructor.
  - apply Hcb. repeat constructor.
  - exists q. cbn. repeat split; auto.
  - apply Hcb. repeat constructor.
  - apply Hcb. repeat constructor.
  - destruct (nth_error (pending m) n) as [[[value|e] k|k]|] eqn:Hn;
      try exact Hstay.
    + destruct q as [| |kind stage]; [contradiction| |].
      * destruct Hc as [_ Hp]. rewrite Hp in Hn. now destruct n.
      * destruct Hc as [Hr [Hp|[s [Hp Hs]]]];
          [rewrite Hp in Hn; now destruct n|].
        assert (Heq : s = OnPromise (Returns value) k).
        { rewrite Hp in Hn. apply nth_error_single in Hn.
          now destruct Hn as [_ <-]. }
        subst s. cbn in Hs.
        destruct (exec_wake kind stage (k value) m n _ Hr Hp Hn (Hs value))
          as [q' [Hf [Hc' Hno]]].
        exists q'. auto.
    + eapply Hthrow. exact Hn.
  - destruct (nth_error (pending m) n) as [[promise k|k]|] eqn:Hn;
      try exact Hstay.
    destruct q as [| |kind stage]; [contradiction| |].
    + destruct Hc as [_ Hp]. rewrite Hp in Hn. now destruct n.
    + destruct Hc as [Hr Hpend]. destruct result as [u|e].
      * destruct Hpend as [Hp|[s [Hp Hs]]];
          [rewrite Hp in Hn; now destruct n|].
        assert (Heq : s = OnLink k).
        { rewrite Hp in Hn. apply nth_error_single in Hn.
          now destruct Hn as [_ <-]. }
        subst s. cbn in Hs.
        destruct (exec_wake kind stage k m n _ Hr Hp Hn Hs)
          as [q' [Hf [Hc' Hno]]].
        exists q'. auto.
      * eapply Hthrow. exact Hn.
Qed.

Lemma boot_consistent :
  exists q,
    follow options NotStarted (snd (boot options)) = Some q
    /\ Consistent options q (fst (boot options))
    /\ ~ In WatcherPause (snd (boot options)).
Proof.
  unfold boot, createWatcher.
  rewrite !exec_Do, exec_Write.
  rewrite !perform_quiet by reflexivity.
  edestruct (exec_inCycle FirstStart (BeforeStartOrRestart (phase3 options)))
    as [q [Hf [Hc Hall]]].
  2:{ instantiate (1 := setRestarting true initial). reflexivity. }
  2:{ reflexivity. }
  2:{ exists q. cbn [pre fst snd app follow next]. repeat split.
      - exact Hf.
      - exact Hc.
      - intros [H|[H|[H|H]]]; try discriminate.
        now apply (quiet_not_pause _ Hall). }
  eapply InCycle_Do; [reflexivity|reflexivity|].
  apply inCycle_forAwait; [reflexivity|].
  eapply InCycle_Do; [reflexivity|reflexivity|].
  constructor. constructor.
Qed.

Lemma runFrom_consistent evs :
  forall r q,
  follow options NotStarted (snd r) = Some q ->
  Consistent options q (fst r) ->
  exists q',
    follow options NotStarted
      (snd (runFrom glob options tsConfigPath r evs)) = Some q'
    /\ Consistent options q' (fst (runFrom glob options tsConfigPath r evs))
    /\ (~ In WatcherPause (snd r) -> ~ In LensPause evs ->
        ~ In WatcherPause (snd (runFrom glob options tsConfigPath r evs))).
Proof.
  induction evs as [|ev evs IH]; intros [m out] q Hf Hc.
  - exists q. cbn. auto.
  - cbn [runFrom fst snd] in *. rewrite andThen_exec.
    destruct (step_consistent q m ev Hc) as [q1 [Hf1 [Hc1 Hno1]]].
    destruct (IH (pre out (step glob options tsConfigPath m ev)) q1)
      as [q' [Hf' [Hc' Hno']]].
    + cbn [pre snd]. now rewrite follow_app, Hf.
    + exact Hc1.
    + exists q'. repeat split; auto.
      intros Hout Hev. apply Hno'.
      * cbn [pre snd]. rewrite in_app_iff. intros [H|H]; [now apply Hout|].
        apply Hno1; [|exact H]. intros ->. apply Hev. now left.
      * intros H. apply Hev. now right.
Qed.

(** In every run, what the watcher has done follows the protocol, and
    the machine agrees with where the protocol stands. *)
Lemma run_consistent evs :
  exists q,
    follow options NotStarted (snd (run glob options tsConfigPath evs))
      = Some q
    /\ Consistent options q (fst (run glob options tsConfigPath evs))
    /\ (~ In LensPause evs ->
        ~ In WatcherPause (snd (run glob options tsConfigPath evs))).
Proof.
  destruct boot_consistent as [q0 [Hf0 [Hc0 Hno0]]].
  destruct (runFrom_consistent evs (boot options) q0 Hf0 Hc0)
    as [q [Hf [Hc Hno]]].
  exists q. unfold run. repeat split; auto.
Qed.

Lemma consistent_pending q m :
  Consistent options q m -> length (pending m) <= 1.
Proof.
  destruct q as [| |kind stage]; cbn; [contradiction| |].
  - intros [_ ->]. cbn. lia.
  - intros [_ [->|[s [-> _]]]]; cbn; lia.
Qed.

Lemma consistent_busy q m :
  Consistent options q m -> busy q = restarting m.
Proof.
  destruct q as [| |kind stage]; cbn; [contradiction| |]; intros [-> _];
    reflexivity.
Qed.

Lemma next_busy q a q' :
  next options q a = Some q' ->
  match a with
  | SetRestarting b => busy q = negb b /\ busy q' = b
  | _ => busy q' = busy q
  end.
Proof.
  destruct a; cbn [next]; intros H;
    repeat match type of H with
           | Some _ = Some _ => injection H as <-
           | None = Some _ => discriminate
           | context [match ?x with _ => _ end] => destruct x
           | context [if ?x then _ else _] => destruct x
           end; cbn; auto.
Qed.

(** A trace that follows the protocol sets the flag and resets it by
    turns. *)
Lemma follow_alternating tr :
  forall q q', follow options q tr = Some q' ->
  alternating (negb (busy q)) (flagWrites tr) = true.
Proof.
  induction tr as [|a tr IH]; intros q q' Hf; [reflexivity|].
  cbn [follow] in Hf. destruct (next options q a) as [q1|] eqn:Hn;
    [|discriminate].
  specialize (IH q1 q' Hf). apply next_busy in Hn.
  unfold flagWrites in *. cbn [flat_map].
  destruct a; cbn [app]; try (rewrite <- Hn; exact IH).
  destruct Hn as [Hq Hq1]. cbn [alternating].
  rewrite Hq, Bool.negb_involutive, Bool.eqb_reflx. cbn [andb].
  now rewrite Hq1 in IH.
Qed.

End InvariantFacts.

Section CycleFacts.

Import Watcher Protocol.

Variable glob : string -> string -> bool.
Variable options : Opts.
Variable tsConfigPath : string.

Local Abbreviation runFrom := (Watcher.runFrom glob options tsConfigPath).

Lemma runFrom_pre out evs :
  forall r, runFrom (pre out r) evs = pre out (runFrom r evs).
Proof.
  induction evs as [|ev evs IH]; intros r; [reflexivity|].
  cbn [Watcher.runFrom].
  now rewrite andThen_pre, IH.
Qed.

Lemma runFrom_app evs1 evs2 :
  forall r, runFrom r (evs1 ++ evs2) = runFrom (runFrom r evs1) evs2.
Proof.
  induction evs1 as [|ev evs1 IH]; intros r; [reflexivity|].
  cbn [app Watcher.runFrom]. apply IH.
Qed.

Lemma wake_suspend s m :
  pending m = [] -> wake 0 (suspend s m) = m.
Proof. destruct m as [r b l]. cbn. intros ->. reflexivity. Qed.

(** A function suspended alone goes on at the first settlement. *)
Lemma runFrom_promise value k m evs :
  pending m = [] ->
  runFrom (suspend (OnPromise (Returns value) k) m, []) (PromiseSettled 0 :: evs)
    = runFrom (exec (k value) m) evs.
Proof.
  intros Hp. cbn [Watcher.runFrom].
  rewrite andThen_exec, pre_nil. cbn [step].
  replace (nth_error (pending (suspend (OnPromise (Returns value) k) m)) 0)
    with (Some (OnPromise (Returns value) k))
    by (cbn; now rewrite Hp).
  now rewrite wake_suspend.
Qed.

Lemma runFrom_link result k m evs :
  pending m = [] ->
  runFrom (suspend (OnLink k) m, []) (LinkSettled 0 result :: evs)
    = runFrom (match result with
               | Returns _ => exec k m
               | Throws e => (m, [Uncaught e])
               end) evs.
Proof.
  intros Hp. cbn [Watcher.runFrom].
  rewrite andThen_exec, pre_nil. cbn [step].
  replace (nth_error (pending (suspend (OnLink k) m)) 0)
    with (Some (OnLink k))
    by (cbn; now rewrite Hp).
  rewrite wake_suspend by exact Hp. now destruct result.
Qed.

(** The before-start-or-restart hooks, one settlement for each plugin. *)
Lemma runFrom_forAwait event ps :
  Forall (fun ip => settles event (snd ip)) ps ->
  forall k m evs,
  pending m = [] ->
  runFrom (exec (forAwait_onBeforeWatcherStartOrRestart event ps k) m)
    (repeat (PromiseSettled 0) (length ps) ++ evs)
  = pre (beforeStartOrRestartTrace event ps) (runFrom (exec k m) evs).
Proof.
  induction 1 as [|[i p] rest Hp _ IH]; intros k m evs Hm.
  - cbn. now rewrite pre_nil.
  - cbn [forAwait_onBeforeWatcherStartOrRestart length repeat app].
    unfold beforeStartOrRestartTrace. cbn [flat_map fst snd].
    fold (beforeStartOrRestartTrace event rest).
    cbn [snd] in Hp. unfold settles in Hp.
    destruct (onBeforeWatcherStartOrRestart p) as [hook|].
    + destruct (Hp hook eq_refl) as [changes Hh]. rewrite Hh.
      rewrite exec_Do, perform_quiet by reflexivity.
      cbn [exec]. unfold pre at 1. cbn [fst snd app].
      change (suspend ?s m, [?a]) with (pre [a] (suspend s m, [])).
      rewrite runFrom_pre, runFrom_promise by exact Hm.
      destruct changes as [changes|].
      * rewrite exec_Do, perform_quiet by reflexivity.
        rewrite runFrom_pre, IH by exact Hm.
        now rewrite !pre_pre.
      * rewrite IH by exact Hm. now rewrite !pre_pre.
    + cbn [exec]. rewrite runFrom_promise by exact Hm.
      rewrite IH by exact Hm. reflexivity.
Qed.

Lemma exec_forEach_onBeforeWatcherRestart ps :
  Forall (fun ip => returnsBeforeRestart (snd ip)) ps ->
  forall k m,
  exec (forEach_onBeforeWatcherRestart ps k) m
    = pre (beforeRestartTrace ps) (exec k m).
Proof.
  induction 1 as [|[i p] rest Hp _ IH]; intros k m.
  - cbn. now rewrite pre_nil.
  - cbn [forEach_onBeforeWatcherRestart].
    unfold beforeRestartTrace. cbn [flat_map fst snd].
    fold (beforeRestartTrace rest).
    cbn [snd] in Hp. unfold returnsBeforeRestart in Hp.
    destruct (onBeforeWatcherRestart p) as [hook|]; [|apply IH].
    destruct (Hp hook eq_refl) as [u Hh]. rewrite Hh.
    rewrite exec_Do, perform_quiet by reflexivity.
    now rewrite IH, pre_pre.
Qed.

Lemma exec_forEach_onAfterWatcherRestart ps :
  Forall (fun ip => returnsAfterRestart (snd ip)) ps ->
  forall k m,
  exec (forEach_onAfterWatcherRestart ps k) m
    = pre (afterRestartTrace ps) (exec k m).
Proof.
  induction 1 as [|[i p] rest Hp _ IH]; intros k m.
  - cbn. now rewrite pre_nil.
  - cbn [forEach_onAfterWatcherRestart].
    unfold afterRestartTrace. cbn [flat_map fst snd].
    fold (afterRestartTrace rest).
    cbn [snd] in Hp. unfold returnsAfterRestart in Hp.
    destruct (onAfterWatcherRestart p) as [hook|]; [|apply IH].
    destruct (Hp hook eq_refl) as [u Hh]. rewrite Hh.
    rewrite exec_Do, perform_quiet by reflexivity.
    now rewrite IH, pre_pre.
Qed.

(** An accepted restart whose hooks all return, with every settlement
    it waits for. *)
Lemma restart_cycle change m result evs :
  restarting m = false ->
  pending m = [] ->
  Forall (fun ip => settles (PostInit change) (snd ip)) (registered options) ->
  Forall (fun ip => returnsBeforeRestart (snd ip)) (registered options) ->
  runFrom (exec (restart tsConfigPath change (registered options)) m)
    (settleAll (registered options) result ++ evs)
  = pre (restartTrace tsConfigPath change (registered options))
      (runFrom (ending m result) evs).
Proof.
  intros Hr Hp H3 H4. destruct m as [r b l]. cbn in Hr, Hp. subst r l.
  unfold restart, settleAll, restartTrace.
  rewrite exec_Read. cbn [restarting].
  rewrite exec_Write, !exec_Do, !perform_quiet by reflexivity.
  rewrite !pre_pre, runFrom_pre.
  rewrite <- (app_assoc (repeat (PromiseSettled 0) _) _ evs).
  rewrite (runFrom_forAwait _ _ H3) by reflexivity.
  rewrite exec_Do, perform_quiet by reflexivity.
  rewrite (exec_forEach_onBeforeWatcherRestart _ H4).
  rewrite exec_Do, perform_quiet by reflexivity.
  assert (Htail :
    runFrom
      (exec (AwaitLink (WriteRestarting false Done))
         (setRestarting true
            {| restarting := false; paused := b; pending := [] |}))
      ([LinkSettled 0 result] ++ evs)
    = runFrom
        (ending {| restarting := false; paused := b; pending := [] |} result)
        evs).
  { cbn [exec app]. rewrite runFrom_link by reflexivity.
    destruct result; reflexivity. }
  destruct (String.eqb (fileOf change) tsConfigPath);
    rewrite !exec_Do, !perform_quiet by reflexivity;
    rewrite !pre_pre, !runFrom_pre, Htail, !pre_pre;
    f_equal; rewrite <- !app_assoc; reflexivity.
Qed.

(** The first start when every hook returns, with every settlement it
    waits for. *)
Lemma first_start result evs :
  Forall (fun ip => settles InitEvent (snd ip)) (registered options) ->
  run glob options tsConfigPath (settleAll (registered options) result ++ evs)
  = pre ([CompilerInit;
          ChokWatch (sourceRoot options :: pluginWatchContributions options)]
         ++ firstStartTrace (registered options))
      (runFrom (ending initial result) evs).
Proof.
  intros H3. unfold run, boot, createWatcher, settleAll, firstStartTrace.
  rewrite !exec_Do, exec_Write, !exec_Do, !perform_quiet by reflexivity.
  rewrite !pre_pre, runFrom_pre.
  rewrite <- (app_assoc (repeat (PromiseSettled 0) _) _ evs).
  rewrite (runFrom_forAwait _ _ H3) by reflexivity.
  rewrite exec_Do, perform_quiet by reflexivity.
  rewrite !pre_pre, !runFrom_pre.
  cbn [exec app]. rewrite runFrom_link by reflexivity.
  rewrite !pre_pre. destruct result; reflexivity.
Qed.

Lemma forAwait_app event ps1 ps2 k :
  forAwait_onBeforeWatcherStartOrRestart event (ps1 ++ ps2) k
  = forAwait_onBeforeWatcherStartOrRestart event ps1
      (forAwait_onBeforeWatcherStartOrRestart event ps2 k).
Proof.
  induction ps1 as [|[i p] ps1 IH]; [reflexivity|].
  cbn [app forAwait_onBeforeWatcherStartOrRestart]. rewrite IH.
  reflexivity.
Qed.

Lemma forEach_onBeforeWatcherRestart_app ps1 ps2 k :
  forEach_onBeforeWatcherRestart (ps1 ++ ps2) k
  = forEach_onBeforeWatcherRestart ps1
      (forEach_onBeforeWatcherRestart ps2 k).
Proof.
  induction ps1 as [|[i p] ps1 IH]; [reflexivity|].
  cbn [app forEach_onBeforeWatcherRestart]. now rewrite IH.
Qed.

Lemma forEach_onAfterWatcherRestart_app ps1 ps2 k :
  forEach_onAfterWatcherRestart (ps1 ++ ps2) k
  = forEach_onAfterWatcherRestart ps1
      (forEach_onAfterWatcherRestart ps2 k).
Proof.
  induction ps1 as [|[i p] ps1 IH]; [reflexivity|].
  cbn [app forEach_onAfterWatcherRestart]. now rewrite IH.
Qed.

Lemma runFrom_nothing_pending m n evs :
  pending m = [] ->
  runFrom (m, []) (PromiseSettled n :: evs) = runFrom (m, []) evs.
Proof.
  intros Hp. cbn [Watcher.runFrom].
  rewrite andThen_exec, pre_nil. cbn [step]. rewrite Hp.
  now destruct n.
Qed.

(** A before-start-or-restart hook that raises ends the loop: the
    plugins after it are not called and the code after the loop does not
    run. *)
Lemma runFrom_forAwait_raises event before i p e after k m evs :
  Forall (fun ip => settles event (snd ip)) before ->
  raisesBeforeStartOrRestart event p e ->
  pending m = [] ->
  runFrom
    (exec (forAwait_onBeforeWatcherStartOrRestart event
             (before ++ (i, p) :: after) k) m)
    (repeat (PromiseSettled 0) (S (length before)) ++ evs)
  = pre (beforeStartOrRestartTrace event before
         ++ [Call_onBeforeWatcherStartOrRestart i event; Uncaught e])
      (runFrom (m, []) evs).
Proof.
  intros Hb [hook [Hh He]] Hm.
  rewrite forAwait_app.
  replace (S (length before)) with (length before + 1) by lia.
  rewrite repeat_app, <- app_assoc.
  rewrite (runFrom_forAwait _ _ Hb) by exact Hm.
  cbn [forAwait_onBeforeWatcherStartOrRestart repeat app]. rewrite Hh.
  rewrite exec_Do, perform_quiet by reflexivity.
  rewrite runFrom_pre, pre_pre.
  destruct He as [-> | ->].
  - cbn [exec].
    change (m, [Uncaught e]) with (pre [Uncaught e] (m, [])).
    rewrite runFrom_pre, runFrom_nothing_pending by exact Hm.
    rewrite pre_pre, <- app_assoc. reflexivity.
  - cbn [exec]. cbn [Watcher.runFrom].
    rewrite andThen_exec, pre_nil. cbn [step].
    replace (nth_error (pending (suspend _ m)) 0)
      with (Some (OnPromise (Throws e)
        (fun runnerChanges =>
           match runnerChanges with
           | Some changes =>
               Do (LinkUpdateOptions changes)
                 (forAwait_onBeforeWatcherStartOrRestart event after k)
           | None => forAwait_onBeforeWatcherStartOrRestart event after k
           end)))
      by (cbn; now rewrite Hm).
    rewrite wake_suspend by exact Hm. cbn [exec].
    change (m, [Uncaught e]) with (pre [Uncaught e] (m, [])).
    rewrite runFrom_pre, pre_pre, <- app_assoc. reflexivity.
Qed.

Lemma exec_forEach_onBeforeWatcherRestart_raises before i p e after k m :
  Forall (fun ip => returnsBeforeRestart (snd ip)) before ->
  raisesBeforeRestart p e ->
  exec (forEach_onBeforeWatcherRestart (before ++ (i, p) :: after) k) m
  = (m, beforeRestartTrace before ++ [Call_onBeforeWatcherRestart i; Uncaught e]).
Proof.
  intros Hb [hook [Hh He]].
  rewrite forEach_onBeforeWatcherRestart_app.
  rewrite (exec_forEach_onBeforeWatcherRestart _ Hb).
  cbn [forEach_onBeforeWatcherRestart]. rewrite Hh, He.
  rewrite exec_Do, perform_quiet by reflexivity. reflexivity.
Qed.

Lemma exec_forEach_onAfterWatcherRestart_raises before i p e after k m :
  Forall (fun ip => returnsAfterRestart (snd ip)) before ->
  raisesAfterRestart p e ->
  exec (forEach_onAfterWatcherRestart (before ++ (i, p) :: after) k) m
  = (m, afterRestartTrace before ++ [Call_onAfterWatcherRestart i; Uncaught e]).
Proof.
  intros Hb [hook [Hh He]].
  rewrite forEach_onAfterWatcherRestart_app.
  rewrite (exec_forEach_onAfterWatcherRestart _ Hb).
  cbn [forEach_onAfterWatcherRestart]. rewrite Hh, He.
  rewrite exec_Do, perform_quiet by reflexivity. reflexivity.
Qed.

Lemma beforeRestartTrace_app ps1 ps2 :
  beforeRestartTrace (ps1 ++ ps2)
  = beforeRestartTrace ps1 ++ beforeRestartTrace ps2.
Proof. apply flat_map_app. Qed.

Lemma afterRestartTrace_app ps1 ps2 :
  afterRestartTrace (ps1 ++ ps2)
  = afterRestartTrace ps1 ++ afterRestartTrace ps2.
Proof. apply flat_map_app. Qed.

(** A hook that returns a promise returns: that the promise is rejected
    makes no difference to the loop. *)
Lemma rejects_returnsBeforeRestart p e :
  rejectsBeforeRestart p e -> returnsBeforeRestart p.
Proof.
  intros [hook [Hh He]] hook' Hh'.
  assert (hook' = hook) by congruence. subst hook'.
  eexists. exact He.
Qed.

Lemma rejects_returnsAfterRestart p e :
  rejectsAfterRestart p e -> returnsAfterRestart p.
Proof.
  intros [hook [Hh He]] hook' Hh'.
  assert (hook' = hook) by congruence. subst hook'.
  eexists. exact He.
Qed.

Lemma foreign_outside a : foreign a = true -> belongsToCycle a = false.
Proof. destruct a; cbn; intros H; try discriminate; reflexivity. Qed.

(** While the flag is set a callback starts nothing. *)
Lemma exec_callback_busy p :
  Callback options tsConfigPath p ->
  forall m, restarting m = true ->
  restarting (fst (exec p m)) = true
  /\ pending (fst (exec p m)) = pending m
  /\ Forall (fun a => belongsToCycle a = false) (snd (exec p m)).
Proof.
  induction 1 as [|e|a k Ha Hk IH|change k Hk IH]; intros m Hr.
  - cbn. auto.
  - cbn. repeat split; auto.
  - rewrite exec_Do. destruct (IH (perform a m) Hr) as [H1 [H2 H3]].
    cbn [pre fst snd app]. repeat split; auto.
    constructor; [now apply foreign_outside|exact H3].
  - rewrite exec_Async. unfold restart. rewrite exec_Read, Hr.
    rewrite exec_Do, perform_quiet by reflexivity.
    cbn [exec]. rewrite andThen_pre, andThen_exec, pre_nil.
    destruct (IH m Hr) as [H1 [H2 H3]].
    cbn [pre fst snd app]. repeat split; auto.
Qed.

Lemma step_aborted m ev :
  restarting m = true ->
  pending m = [] ->
  restarting (fst (step glob options tsConfigPath m ev)) = true
  /\ pending (fst (step glob options tsConfigPath m ev)) = []
  /\ Forall (fun a => belongsToCycle a = false)
       (snd (step glob options tsConfigPath m ev)).
Proof.
  intros Hr Hp.
  assert (Hcb : forall p, Callback options tsConfigPath p ->
    restarting (fst (exec p m)) = true
    /\ pending (fst (exec p m)) = []
    /\ Forall (fun a => belongsToCycle a = false) (snd (exec p m))).
  { intros p Hcb. destruct (exec_callback_busy p Hcb m Hr) as [H1 [H2 H3]].
    rewrite Hp in H2. auto. }
  destruct ev; cbn [step]; try rewrite Hp.
  - apply Hcb. unfold intake. destruct (paused m); [constructor|].
    apply callback_emitAll.
  - apply Hcb. repeat constructor.
  - apply Hcb. repeat constructor.
  - apply Hcb. repeat constructor.
  - apply Hcb. unfold onServerListening.
    apply callback_forEach_onAfterWatcherRestart. repeat constructor.
  - apply Hcb. repeat constructor.
  - cbn. auto.
  - apply Hcb. repeat constructor.
  - apply Hcb. repeat constructor.
  - destruct n; cbn; auto.
  - destruct n; cbn; auto.
Qed.

(** After a cycle that ended by an error the flag stays set: whatever
    comes, no cycle starts any more. *)
Lemma runFrom_aborted evs :
  forall m out,
  restarting m = true ->
  pending m = [] ->
  exists extra,
    snd (runFrom (m, out) evs) = out ++ extra
    /\ Forall (fun a => belongsToCycle a = false) extra
    /\ restarting (fst (runFrom (m, out) evs)) = true
    /\ pending (fst (runFrom (m, out) evs)) = [].
Proof.
  induction evs as [|ev evs IH]; intros m out Hr Hp.
  - exists []. cbn. rewrite app_nil_r. auto.
  - cbn [Watcher.runFrom]. rewrite andThen_exec.
    destruct (step_aborted m ev Hr Hp) as [H1 [H2 H3]].
    destruct (step glob options tsConfigPath m ev) as [m1 o1].
    cbn [fst snd pre] in *.
    destruct (IH m1 (out ++ o1) H1 H2) as [extra [He [Hall [Hr' Hp']]]].
    exists (o1 ++ extra).
    change (pre out (m1, o1)) with (m1, out ++ o1).
    rewrite He, <- app_assoc. repeat split; auto.
    apply Forall_app. auto.
Qed.

(** A restart in which a before-start-or-restart hook raises. *)
Lemma restart_beforeStartOrRestart_raises change m before i p e after evs :
  restarting m = false ->
  pending m = [] ->
  Forall (fun ip => settles (PostInit change) (snd ip)) before ->
  raisesBeforeStartOrRestart (PostInit change) p e ->
  runFrom (exec (restart tsConfigPath change (before ++ (i, p) :: after)) m)
    (repeat (PromiseSettled 0) (S (length before)) ++ evs)
  = pre ([SetRestarting true; ClearConsole;
          Log trace "hook" (HookName "beforeWatcherStartOrRestart")]
         ++ beforeStartOrRestartTrace (PostInit change) before
         ++ [Call_onBeforeWatcherStartOrRestart i (PostInit change);
             Uncaught e])
      (runFrom (aborted m, []) evs).
Proof.
  intros Hr Hp Hb He. destruct m as [r b l]. cbn in Hr, Hp. subst r l.
  unfold restart. rewrite exec_Read. cbn [restarting].
  rewrite exec_Write, !exec_Do, !perform_quiet by reflexivity.
  rewrite !pre_pre, runFrom_pre.
  rewrite (runFrom_forAwait_raises _ _ _ _ _ _ _ _ _ Hb He) by reflexivity.
  rewrite pre_pre. reflexivity.
Qed.

(** A restart in which a before-restart hook raises. *)
Lemma restart_beforeRestart_raises change m before i p e after evs :
  restarting m = false ->
  pending m = [] ->
  Forall (fun ip => settles (PostInit change) (snd ip))
    (before ++ (i, p) :: after) ->
  Forall (fun ip => returnsBeforeRestart (snd ip)) before ->
  raisesBeforeRestart p e ->
  runFrom (exec (restart tsConfigPath change (before ++ (i, p) :: after)) m)
    (repeat (PromiseSettled 0) (length (before ++ (i, p) :: after)) ++ evs)
  = pre ([SetRestarting true; ClearConsole;
          Log trace "hook" (HookName "beforeWatcherStartOrRestart")]
         ++ beforeStartOrRestartTrace (PostInit change)
              (before ++ (i, p) :: after)
         ++ [Log trace "hook" (HookName "beforeWatcherRestart")]
         ++ beforeRestartTrace before
         ++ [Call_onBeforeWatcherRestart i; Uncaught e])
      (runFrom (aborted m, []) evs).
Proof.
  intros Hr Hp H3 Hb He. destruct m as [r b l]. cbn in Hr, Hp. subst r l.
  unfold restart. rewrite exec_Read. cbn [restarting].
  rewrite exec_Write, !exec_Do, !perform_quiet by reflexivity.
  rewrite !pre_pre, runFrom_pre.
  rewrite (runFrom_forAwait _ _ H3) by reflexivity.
  rewrite exec_Do, perform_quiet by reflexivity.
  rewrite (exec_forEach_onBeforeWatcherRestart_raises _ _ _ _ _ _ _ Hb He).
  rewrite (pair_pre _ (_ ++ _)).
  rewrite !pre_pre, !runFrom_pre, !pre_pre.
  rewrite <- !app_assoc. reflexivity.
Qed.

End CycleFacts.

(* ===================================================================== *)
(** * The restart protocol *)
(* ===================================================================== *)

Section TraceFacts.

Import Watcher Protocol.

Lemma flagWrites_app tr1 tr2 :
  flagWrites (tr1 ++ tr2) = flagWrites tr1 ++ flagWrites tr2.
Proof. apply flat_map_app. Qed.

Lemma flagWrites_beforeStartOrRestartTrace event ps :
  flagWrites (beforeStartOrRestartTrace event ps) = [].
Proof.
  induction ps as [|[i p] ps IH]; [reflexivity|].
  unfold beforeStartOrRestartTrace. cbn [flat_map fst snd].
  fold (beforeStartOrRestartTrace event ps).
  rewrite flagWrites_app, IH, app_nil_r.
  destruct (onBeforeWatcherStartOrRestart p) as [hook|]; [|reflexivity].
  destruct (hook event) as [[[changes|]|]|]; reflexivity.
Qed.

Lemma flagWrites_beforeRestartTrace ps :
  flagWrites (beforeRestartTrace ps) = [].
Proof.
  induction ps as [|[i p] ps IH]; [reflexivity|].
  unfold beforeRestartTrace. cbn [flat_map fst snd].
  fold (beforeRestartTrace ps).
  rewrite flagWrites_app, IH, app_nil_r.
  destruct (onBeforeWatcherRestart p); reflexivity.
Qed.

Lemma flagWrites_restartTrace tsConfigPath change ps :
  flagWrites (restartTrace tsConfigPath change ps) = [true].
Proof.
  unfold restartTrace. rewrite !flagWrites_app.
  rewrite flagWrites_beforeStartOrRestartTrace, flagWrites_beforeRestartTrace.
  destruct (String.eqb (fileOf change) tsConfigPath); reflexivity.
Qed.

Lemma compilerCalls_beforeStartOrRestartTrace event ps :
  filter isCompilerCall (beforeStartOrRestartTrace event ps) = [].
Proof.
  induction ps as [|[i p] ps IH]; [reflexivity|].
  unfold beforeStartOrRestartTrace. cbn [flat_map fst snd].
  fold (beforeStartOrRestartTrace event ps).
  rewrite filter_app, IH, app_nil_r.
  destruct (onBeforeWatcherStartOrRestart p) as [hook|]; [|reflexivity].
  destruct (hook event) as [[[changes|]|]|]; reflexivity.
Qed.

Lemma compilerCalls_beforeRestartTrace ps :
  filter isCompilerCall (beforeRestartTrace ps) = [].
Proof.
  induction ps as [|[i p] ps IH]; [reflexivity|].
  unfold beforeRestartTrace. cbn [flat_map fst snd].
  fold (beforeRestartTrace ps).
  rewrite filter_app, IH, app_nil_r.
  destruct (onBeforeWatcherRestart p); reflexivity.
Qed.

Lemma compilerCalls_restartTrace tsConfigPath change ps :
  filter isCompilerCall (restartTrace tsConfigPath change ps)
    = compilerCalls tsConfigPath (fileOf change).
Proof.
  unfold restartTrace, compilerCalls. rewrite !filter_app.
  rewrite compilerCalls_beforeStartOrRestartTrace,
    compilerCalls_beforeRestartTrace.
  destruct (String.eqb (fileOf change) tsConfigPath); reflexivity.
Qed.

End TraceFacts.

(** C1, as the claim states it, fails for a cycle that ends by an error:
    the restart below is accepted, the link fails, the cycle is over with
    nothing suspended, and the flag was set and never reset. *)
Lemma restart_flag_stays_set_after_failure :
  Watcher.pending (fst (Watcher.run Matcher.refglob Examples.bare Examples.tsconfig
     [Watcher.LinkSettled 0 (Watcher.Returns tt);
      Watcher.LensRestart "src/a.ts";
      Watcher.LinkSettled 0 (Watcher.Throws "spawn failed")])) = []
  /\ Watcher.restarting (fst (Watcher.run Matcher.refglob Examples.bare Examples.tsconfig
     [Watcher.LinkSettled 0 (Watcher.Returns tt);
      Watcher.LensRestart "src/a.ts";
      Watcher.LinkSettled 0 (Watcher.Throws "spawn failed")])) = true
  /\ Protocol.flagWrites (snd (Watcher.run Matcher.refglob Examples.bare Examples.tsconfig
     [Watcher.LinkSettled 0 (Watcher.Returns tt);
      Watcher.LensRestart "src/a.ts";
      Watcher.LinkSettled 0 (Watcher.Throws "spawn failed")]))
     = [true; false; true].
Proof. repeat split. Qed.

(** C1 (amended): a call of restart while the flag is set logs and
    returns without calling a hook, the compiler or the link; at most one
    cycle is suspended at any time; the flag is set and reset by turns, so
    that an accepted cycle sets it once and resets it at most once: once
    when the cycle runs to its end, and not at all when the link fails. *)
Theorem restart_busy_guard :
  forall glob options tsConfigPath,
  (forall change m,
      Watcher.restarting m = true ->
      Watcher.exec
        (Watcher.restart tsConfigPath change (Watcher.registered options)) m
      = (m, [Watcher.Log Watcher.trace "restart already in progress"
               Watcher.NoContext]))
  /\ (forall evs,
      length (Watcher.pending (fst (Watcher.run glob options tsConfigPath evs)))
        <= 1)
  /\ (forall evs,
      Protocol.alternating true
        (Protocol.flagWrites (snd (Watcher.run glob options tsConfigPath evs)))
      = true)
  /\ (forall change m result,
      Watcher.restarting m = false ->
      Watcher.pending m = [] ->
      Forall (fun ip => Protocol.settles (Watcher.PostInit change) (snd ip))
        (Watcher.registered options) ->
      Forall (fun ip => Protocol.returnsBeforeRestart (snd ip))
        (Watcher.registered options) ->
      Protocol.flagWrites
        (snd (Watcher.runFrom glob options tsConfigPath
           (Watcher.exec
              (Watcher.restart tsConfigPath change (Watcher.registered options))
              m)
           (Protocol.settleAll (Watcher.registered options) result)))
      = match result with
        | Watcher.Returns _ => [true; false]
        | Watcher.Throws _ => [true]
        end).
Proof.
  intros glob options tsConfigPath. split; [|split; [|split]].
  - intros change m Hr. unfold Watcher.restart.
    rewrite exec_Read, Hr, exec_Do, perform_quiet by reflexivity.
    reflexivity.
  - intros evs.
    destruct (run_consistent glob options tsConfigPath evs) as [q [_ [Hc _]]].
    exact (consistent_pending options q _ Hc).
  - intros evs.
    destruct (run_consistent glob options tsConfigPath evs) as [q [Hf _]].
    exact (follow_alternating options _ _ _ Hf).
  - intros change m result Hr Hp H3 H4.
    rewrite <- (app_nil_r (Protocol.settleAll _ result)).
    rewrite (restart_cycle glob options tsConfigPath change m result []
               Hr Hp H3 H4).
    cbn [Watcher.runFrom Protocol.pre snd].
    rewrite flagWrites_app, flagWrites_restartTrace.
    destruct result; reflexivity.
Qed.

Lemma restart_busy_guard_witness :
  Watcher.exec
    (Watcher.restart Examples.tsconfig (Watcher.PluginEvent "src/a.ts")
       (Watcher.registered Examples.withSteady))
    Examples.busyMachine
  = (Examples.busyMachine,
     [Watcher.Log Watcher.trace "restart already in progress"
        Watcher.NoContext]).
Proof.
  apply (proj1 (restart_busy_guard Matcher.refglob Examples.withSteady
                  Examples.tsconfig)).
  reflexivity.
Defined.

Section ExampleFacts.

Import Watcher Protocol Examples.

Lemma steady_settles event :
  Forall (fun ip => settles event (snd ip)) (registered withSteady).
Proof.
  repeat constructor. intros hook H. injection H as <-.
  eexists. reflexivity.
Qed.

Lemma steady_returnsBeforeRestart :
  Forall (fun ip => returnsBeforeRestart (snd ip)) (registered withSteady).
Proof.
  repeat constructor. intros hook H. injection H as <-.
  eexists. reflexivity.
Qed.

Lemma steady_returnsAfterRestart :
  Forall (fun ip => returnsAfterRestart (snd ip)) (registered withSteady).
Proof.
  repeat constructor. intros hook H. injection H as <-.
  eexists. reflexivity.
Qed.

End ExampleFacts.

(* ===================================================================== *)
(** * Waiting for the hooks and for the link *)
(* ===================================================================== *)

Section AwaitFacts.

Import Watcher Protocol.

Variable glob : string -> string -> bool.
Variable options : Opts.
Variable tsConfigPath : string.

Local Abbreviation step := (Watcher.step glob options tsConfigPath).
Local Abbreviation runFrom := (Watcher.runFrom glob options tsConfigPath).
Local Abbreviation run := (Watcher.run glob options tsConfigPath).

(** While the flag is set, an event that settles nothing starts nothing
    and leaves the suspended cycle as it is. *)
Lemma step_busy m ev :
  restarting m = true ->
  isSettlement ev = false ->
  restarting (fst (step m ev)) = true
  /\ pending (fst (step m ev)) = pending m
  /\ Forall (fun a => belongsToCycle a = false) (snd (step m ev)).
Proof.
  intros Hr Hev.
  assert (Hcb : forall p, Callback options tsConfigPath p ->
    restarting (fst (exec p m)) = true
    /\ pending (fst (exec p m)) = pending m
    /\ Forall (fun a => belongsToCycle a = false) (snd (exec p m))).
  { intros p Hcb. exact (exec_callback_busy options tsConfigPath p Hcb m Hr). }
  destruct ev; cbn [Watcher.step]; try discriminate.
  - apply Hcb. unfold intake. destruct (paused m); [constructor|].
    apply callback_emitAll.
  - apply Hcb. repeat constructor.
  - apply Hcb. repeat constructor.
  - apply Hcb. repeat constructor.
  - apply Hcb. unfold onServerListening.
    apply callback_forEach_onAfterWatcherRestart. repeat constructor.
  - apply Hcb. repeat constructor.
  - cbn. auto.
  - apply Hcb. repeat constructor.
  - apply Hcb. repeat constructor.
Qed.

Lemma runFrom_busy evs :
  Forall (fun ev => isSettlement ev = false) evs ->
  forall m out,
  restarting m = true ->
  exists extra,
    snd (runFrom (m, out) evs) = out ++ extra
    /\ Forall (fun a => belongsToCycle a = false) extra
    /\ restarting (fst (runFrom (m, out) evs)) = true
    /\ pending (fst (runFrom (m, out) evs)) = pending m.
Proof.
  induction 1 as [|ev evs Hev _ IH]; intros m out Hr.
  - exists []. cbn. rewrite app_nil_r. auto.
  - cbn [Watcher.runFrom]. rewrite andThen_exec.
    destruct (step_busy m ev Hr Hev) as [H1 [H2 H3]].
    destruct (step m ev) as [m1 o1]. cbn [fst snd] in *.
    change (pre out (m1, o1)) with (m1, out ++ o1).
    destruct (IH m1 (out ++ o1) H1) as [extra [He [Hall [Hr' Hp']]]].
    exists (o1 ++ extra). rewrite He, <- app_assoc, Hp', H2.
    repeat split; auto. apply Forall_app. auto.
Qed.

Lemma awaited_belongs a : isAwaited a = true -> belongsToCycle a = true.
Proof. destruct a; cbn; intros H; try discriminate; reflexivity. Qed.

Lemma outside_not_awaited a : belongsToCycle a = false -> isAwaited a = false.
Proof. destruct a; cbn; intros H; try discriminate; reflexivity. Qed.

Lemma outside_forallb tr :
  Forall (fun a => belongsToCycle a = false) tr ->
  forallb (fun b => negb (belongsToCycle b)) tr = true.
Proof.
  intros H. apply forallb_forall. intros a Ha.
  rewrite Forall_forall in H. now rewrite (H a Ha).
Qed.

Lemma halts_outside tr :
  Forall (fun a => belongsToCycle a = false) tr ->
  haltsAfterAwaited tr = true.
Proof.
  induction 1 as [|a tr Ha _ IH]; [reflexivity|].
  cbn [haltsAfterAwaited]. now rewrite (outside_not_awaited a Ha).
Qed.

Lemma halts_app_outside o1 o2 :
  haltsAfterAwaited o1 = true ->
  Forall (fun a => belongsToCycle a = false) o2 ->
  haltsAfterAwaited (o1 ++ o2) = true.
Proof.
  intros H1 H2. induction o1 as [|a o1 IH]; [now apply halts_outside|].
  cbn [app haltsAfterAwaited] in *. destruct (isAwaited a).
  - rewrite forallb_app, H1. now apply outside_forallb.
  - now apply IH.
Qed.

Lemma outside_halts_app o1 o2 :
  Forall (fun a => belongsToCycle a = false) o1 ->
  haltsAfterAwaited o2 = true ->
  haltsAfterAwaited (o1 ++ o2) = true.
Proof.
  intros H1 H2. induction H1 as [|a o1 Ha _ IH]; [exact H2|].
  cbn [app haltsAfterAwaited]. now rewrite (outside_not_awaited a Ha).
Qed.

Lemma outside_no_reset tr :
  Forall (fun a => belongsToCycle a = false) tr ->
  ~ In (SetRestarting false) tr /\ ~ In LinkStartOrRestart tr.
Proof.
  intros H. rewrite Forall_forall in H.
  split; intros Hin; specialize (H _ Hin); discriminate.
Qed.

Lemma paced_forAwait event ps k :
  Paced k -> Paced (forAwait_onBeforeWatcherStartOrRestart event ps k).
Proof.
  intros Hk. induction ps as [|[i p] rest IH]; [exact Hk|].
  cbn [forAwait_onBeforeWatcherStartOrRestart].
  destruct (onBeforeWatcherStartOrRestart p) as [hook|].
  - destruct (hook event) as [promise|e]; [|apply Paced_hook_throws].
    apply Paced_hook_awaited. intros [changes|]; [|exact IH].
    apply Paced_Do; [reflexivity|reflexivity|exact IH].
  - apply Paced_Await. intros _. exact IH.
Qed.

Lemma paced_forEach ps k :
  Paced k -> Paced (forEach_onBeforeWatcherRestart ps k).
Proof.
  intros Hk. induction ps as [|[i p] rest IH]; [exact Hk|].
  cbn [forEach_onBeforeWatcherRestart].
  destruct (onBeforeWatcherRestart p) as [hook|]; [|exact IH].
  apply Paced_Do; [reflexivity|reflexivity|].
  destruct (hook tt); [exact IH|constructor].
Qed.

(** The body of an accepted [restart], after the flag is set. *)
Lemma paced_restart change ps :
  Paced
    (Do ClearConsole
      (Do (Log trace "hook" (HookName "beforeWatcherStartOrRestart"))
        (forAwait_onBeforeWatcherStartOrRestart (PostInit change) ps
          (Do (Log trace "hook" (HookName "beforeWatcherRestart"))
            (forEach_onBeforeWatcherRestart ps
              (Do (Log info "restarting" (OfEvent (PostInit change)))
                ((if String.eqb (fileOf change) tsConfigPath
                  then fun k =>
                    Do (Log trace "reinitializing TS compilation" NoContext)
                      (Do CompilerInit k)
                  else fun k => k)
                 (Do (CompileChanged (fileOf change))
                   (Do LinkStartOrRestart
                     (AwaitLink (WriteRestarting false Done))))))))))).
Proof.
  apply Paced_Do; [reflexivity|reflexivity|].
  apply Paced_Do; [reflexivity|reflexivity|].
  apply paced_forAwait.
  apply Paced_Do; [reflexivity|reflexivity|].
  apply paced_forEach.
  apply Paced_Do; [reflexivity|reflexivity|].
  destruct (String.eqb (fileOf change) tsConfigPath);
    repeat (apply Paced_Do; [reflexivity|reflexivity|]); apply Paced_link.
Qed.

(** What the rest of a cycle does up to its next suspension. *)
Lemma exec_paced p :
  Paced p ->
  forall m,
  restarting (fst (exec p m)) = restarting m
  /\ (pending (fst (exec p m)) = pending m
      \/ exists s, pending (fst (exec p m)) = pending m ++ [s]
                   /\ PacedSuspended s)
  /\ haltsAfterAwaited (snd (exec p m)) = true
  /\ Forall (fun a => writesFlag a = false) (snd (exec p m))
  /\ (In LinkStartOrRestart (snd (exec p m)) ->
      pending (fst (exec p m))
      = pending m ++ [OnLink (WriteRestarting false Done)]).
Proof.
  induction 1 as [e|a k Ha Hw Hk IH|promise k Hk IH|i event e
                  |i event promise k Hk IH|]; intros m.
  - cbn. repeat split; auto. intros [H|[]]. discriminate.
  - rewrite exec_Do. destruct (IH (perform a m)) as [H1 [H2 [H3 [H4 H5]]]].
    cbn [pre fst snd app haltsAfterAwaited]. rewrite Ha.
    repeat split; auto.
    intros [H|H]; [subst a; discriminate|now apply H5].
  - cbn. repeat split; auto.
    + right. eexists. split; [reflexivity|exact Hk].
    + intros [].
  - cbn. repeat split; auto.
    intros [H|[H|[]]]; discriminate.
  - cbn. repeat split; auto.
    + right. eexists. split; [reflexivity|exact Hk].
    + intros [H|[]]. discriminate.
  - cbn. repeat split; auto.
    right. eexists. split; reflexivity.
Qed.

Lemma pacedSuspended_app l s :
  Forall PacedSuspended l -> PacedSuspended s -> Forall PacedSuspended (l ++ [s]).
Proof. intros Hl Hs. apply Forall_app. split; [exact Hl|now constructor]. Qed.

(** An accepted call of [restart]. *)
Lemma exec_restart_paced change m :
  restarting m = false ->
  pending m = [] ->
  restarting (fst (exec (restart tsConfigPath change (registered options)) m))
    = true
  /\ Forall PacedSuspended
       (pending (fst (exec (restart tsConfigPath change (registered options)) m)))
  /\ haltsAfterAwaited
       (snd (exec (restart tsConfigPath change (registered options)) m)) = true
  /\ ~ In (SetRestarting false)
         (snd (exec (restart tsConfigPath change (registered options)) m))
  /\ (In LinkStartOrRestart
        (snd (exec (restart tsConfigPath change (registered options)) m)) ->
      pending (fst (exec (restart tsConfigPath change (registered options)) m))
      = [OnLink (WriteRestarting false Done)]).
Proof.
  intros Hr Hp. unfold restart. rewrite exec_Read, Hr, exec_Write.
  destruct (exec_paced _ (paced_restart change (registered options))
              (setRestarting true m)) as [H1 [H2 [H3 [H4 H5]]]].
  cbn [pre fst snd app haltsAfterAwaited isAwaited].
  cbn [setRestarting restarting pending] in H1, H2, H5.
  rewrite Hp in H2, H5. cbn [app] in H2, H5.
  repeat split.
  - exact H1.
  - destruct H2 as [->|[s [-> Hs]]]; [constructor|now repeat constructor].
  - exact H3.
  - intros [H|H]; [discriminate|].
    rewrite Forall_forall in H4. specialize (H4 _ H). discriminate.
  - intros [H|H]; [discriminate|now apply H5].
Qed.

(** A callback of the watcher waits where a restart that it starts
    waits. *)
Lemma exec_callback_paced p :
  Callback options tsConfigPath p ->
  forall m,
  (restarting m = false -> pending m = []) ->
  Forall PacedSuspended (pending m) ->
  Forall PacedSuspended (pending (fst (exec p m)))
  /\ haltsAfterAwaited (snd (exec p m)) = true
  /\ ~ In (SetRestarting false) (snd (exec p m))
  /\ (In LinkStartOrRestart (snd (exec p m)) ->
      restarting (fst (exec p m)) = true
      /\ pending (fst (exec p m)) = [OnLink (WriteRestarting false Done)]).
Proof.
  induction 1 as [|e|a k Ha Hk IH|change k Hk IH]; intros m Hidle Hall.
  - cbn. split; [exact Hall|]. split; [reflexivity|].
    split; intros [].
  - cbn. split; [exact Hall|]. split; [reflexivity|].
    split; intros [H|[]]; discriminate.
  - rewrite exec_Do.
    destruct (IH (perform a m) Hidle Hall) as [H1 [H2 [H3 H4]]].
    cbn [pre fst snd app haltsAfterAwaited].
    rewrite (outside_not_awaited a (foreign_outside a Ha)).
    split; [exact H1|]. split; [exact H2|]. split.
    + intros [H|H]; [subst a; discriminate|now apply H3].
    + intros [H|H]; [subst a; discriminate|now apply H4].
  - rewrite exec_Async. pose proof (IH m Hidle Hall) as IHm.
    destruct (restarting m) eqn:Hr.
    + unfold restart. rewrite exec_Read, Hr.
      rewrite exec_Do, perform_quiet by reflexivity. cbn [exec].
      rewrite andThen_pre, andThen_exec, pre_nil.
      destruct IHm as [H1 [H2 [H3 H4]]].
      cbn [pre fst snd app haltsAfterAwaited isAwaited].
      split; [exact H1|]. split; [exact H2|]. split.
      * intros [H|H]; [discriminate|now apply H3].
      * intros [H|H]; [discriminate|now apply H4].
    + clear IHm.
      destruct (exec_restart_paced change m Hr (Hidle eq_refl))
        as [R1 [R2 [R3 [R4 R5]]]].
      unfold andThen.
      destruct (exec (restart tsConfigPath change (registered options)) m)
        as [m1 o1].
      cbn [fst snd] in *.
      destruct (exec_callback_busy options tsConfigPath k Hk m1 R1)
        as [B1 [B2 B3]].
      destruct (exec k m1) as [m2 o2]. cbn [fst snd] in *.
      destruct (outside_no_reset o2 B3) as [N1 N2].
      split; [now rewrite B2|]. split; [now apply halts_app_outside|]. split.
      * rewrite in_app_iff. intros [H|H]; [now apply R4|now apply N1].
      * intros H. split; [exact B1|]. rewrite B2. apply R5.
        apply in_app_or in H.
        destruct H as [H|H]; [exact H|now apply N2 in H].
Qed.

Lemma Forall_removeNth {A : Type} (P : A -> Prop) (l : list A) :
  Forall P l -> forall n, Forall P (removeNth n l).
Proof.
  induction 1 as [|x l Hx Hl IH]; intros [|n]; cbn [removeNth];
    try constructor; auto.
Qed.

Lemma consistent_idle q m :
  Consistent options q m -> restarting m = false -> pending m = [].
Proof.
  destruct q as [| |kind stage]; cbn; [contradiction| |].
  - now intros [_ H] _.
  - intros [H _] H'. congruence.
Qed.

Lemma consistent_waiting q m n s :
  Consistent options q m ->
  nth_error (pending m) n = Some s ->
  n = 0 /\ restarting m = true /\ pending m = [s].
Proof.
  destruct q as [| |kind stage]; cbn; [contradiction| |].
  - intros [_ ->]. now destruct n.
  - intros [Hr [->|[s' [-> _]]]] Hn; [now destruct n|].
    apply nth_error_single in Hn. destruct Hn as [-> ->]. auto.
Qed.

(** Every event of a run: the cycle waits where the code awaits, and the
    flag is reset only when the link has settled. *)
Lemma step_awaits q m ev :
  Consistent options q m ->
  Forall PacedSuspended (pending m) ->
  Forall PacedSuspended (pending (fst (step m ev)))
  /\ haltsAfterAwaited (snd (step m ev)) = true
  /\ (In (SetRestarting false) (snd (step m ev)) ->
      exists n u, ev = LinkSettled n (Returns u))
  /\ (In LinkStartOrRestart (snd (step m ev)) ->
      restarting (fst (step m ev)) = true
      /\ pending (fst (step m ev)) = [OnLink (WriteRestarting false Done)]).
Proof.
  intros Hc Hall.
  assert (Hcb : forall p, Callback options tsConfigPath p ->
    Forall PacedSuspended (pending (fst (exec p m)))
    /\ haltsAfterAwaited (snd (exec p m)) = true
    /\ (In (SetRestarting false) (snd (exec p m)) ->
        exists n u, ev = LinkSettled n (Returns u))
    /\ (In LinkStartOrRestart (snd (exec p m)) ->
        restarting (fst (exec p m)) = true
        /\ pending (fst (exec p m)) = [OnLink (WriteRestarting false Done)])).
  { intros p Hp.
    destruct (exec_callback_paced p Hp m (consistent_idle q m Hc) Hall)
      as [H1 [H2 [H3 H4]]].
    split; [exact H1|]. split; [exact H2|]. split; [|exact H4].
    intros H. now apply H3 in H. }
  assert (Hstay :
    Forall PacedSuspended (pending m)
    /\ haltsAfterAwaited [] = true
    /\ (In (SetRestarting false) [] ->
        exists n u, ev = LinkSettled n (Returns u))
    /\ (In LinkStartOrRestart [] ->
        restarting m = true
        /\ pending m = [OnLink (WriteRestarting false Done)])).
  { split; [exact Hall|]. split; [reflexivity|]. split; intros []. }
  assert (Hthrow : forall e n,
    Forall PacedSuspended (pending (wake n m))
    /\ haltsAfterAwaited [Uncaught e] = true
    /\ (In (SetRestarting false) [Uncaught e] ->
        exists n u, ev = LinkSettled n (Returns u))
    /\ (In LinkStartOrRestart [Uncaught e] ->
        restarting (wake n m) = true
        /\ pending (wake n m) = [OnLink (WriteRestarting false Done)])).
  { intros e n. split; [|split; [reflexivity|]].
    - cbn [wake pending]. now apply Forall_removeNth.
    - split; intros [H|[]]; discriminate. }
  destruct ev; cbn [Watcher.step].
  - apply Hcb. unfold intake. destruct (paused m); [constructor|].
    apply callback_emitAll.
  - apply Hcb. repeat constructor.
  - apply Hcb. repeat constructor.
  - apply Hcb. repeat constructor.
  - apply Hcb. unfold onServerListening.
    apply callback_forEach_onAfterWatcherRestart. repeat constructor.
  - apply Hcb. repeat constructor.
  - cbn. split; [exact Hall|]. split; [reflexivity|].
    split; intros [H|[]]; discriminate.
  - apply Hcb. repeat constructor.
  - apply Hcb. repeat constructor.
  - destruct (nth_error (pending m) n) as [[[value|e] k|k]|] eqn:Hn;
      try exact Hstay.
    + destruct (consistent_waiting q m n _ Hc Hn) as [-> [Hr Hp]].
      assert (Hk : forall v, Paced (k v)).
      { rewrite Hp in Hall. inversion Hall as [|s l Hs _]. exact Hs. }
      assert (Hw : pending (wake 0 m) = []).
      { cbn [wake pending]. now rewrite Hp. }
      destruct (exec_paced (k value) (Hk value) (wake 0 m))
        as [H1 [H2 [H3 [H4 H5]]]].
      rewrite Hw in H2, H5. cbn [app] in H2, H5.
      split; [|split; [exact H3|split]].
      * destruct H2 as [->|[s [-> Hs]]]; [constructor|now repeat constructor].
      * intros H. rewrite Forall_forall in H4. specialize (H4 _ H).
        discriminate.
      * intros H. split; [rewrite H1; exact Hr|now apply H5].
    + apply (Hthrow e n).
  - destruct (nth_error (pending m) n) as [[promise k|k]|] eqn:Hn;
      try exact Hstay.
    destruct result as [u|e]; [|apply (Hthrow e n)].
    destruct (consistent_waiting q m n _ Hc Hn) as [-> [Hr Hp]].
    assert (Hk : k = WriteRestarting false Done).
    { rewrite Hp in Hall. inversion Hall as [|s l Hs _]. exact Hs. }
    subst k. rewrite exec_Write. cbn [exec pre fst snd app].
    split; [|split; [reflexivity|split]].
    + cbn [wake setRestarting pending]. rewrite Hp. constructor.
    + intros _. now exists 0, u.
    + intros [H|[]]. discriminate.
Qed.

Lemma boot_awaits :
  Forall PacedSuspended (pending (fst (boot options)))
  /\ haltsAfterAwaited (snd (boot options)) = true
  /\ ~ In (SetRestarting false) (snd (boot options))
  /\ (In LinkStartOrRestart (snd (boot options)) ->
      restarting (fst (boot options)) = true
      /\ pending (fst (boot options)) = [OnLink (WriteRestarting false Done)]).
Proof.
  unfold boot, createWatcher. rewrite !exec_Do, exec_Write.
  rewrite !perform_quiet by reflexivity.
  assert (Hp : Paced
    (Do ClearConsole
      (forAwait_onBeforeWatcherStartOrRestart InitEvent (registered options)
        (Do LinkStartOrRestart (AwaitLink (WriteRestarting false Done)))))).
  { apply Paced_Do; [reflexivity|reflexivity|].
    apply paced_forAwait. apply Paced_link. }
  destruct (exec_paced _ Hp (setRestarting true initial))
    as [H1 [H2 [H3 [H4 H5]]]].
  cbn [pre fst snd app haltsAfterAwaited isAwaited].
  cbn [setRestarting initial restarting pending app] in H1, H2, H5.
  repeat split.
  - destruct H2 as [->|[s [-> Hs]]]; [constructor|now repeat constructor].
  - exact H3.
  - intros [H|[H|[H|H]]]; try discriminate.
    rewrite Forall_forall in H4. specialize (H4 _ H). discriminate.
  - exact H1.
  - apply H5. destruct H as [H|[H|[H|H]]]; try discriminate. exact H.
Qed.

Lemma runFrom_paced evs :
  forall r q,
  Consistent options q (fst r) ->
  Forall PacedSuspended (pending (fst r)) ->
  Forall PacedSuspended (pending (fst (runFrom r evs))).
Proof.
  induction evs as [|ev evs IH]; intros [m out] q Hc Hall; [exact Hall|].
  cbn [Watcher.runFrom fst] in *. rewrite andThen_exec.
  destruct (step_consistent glob options tsConfigPath q m ev Hc)
    as [q1 [_ [Hc1 _]]].
  destruct (step_awaits q m ev Hc Hall) as [H1 _].
  apply (IH (pre out (step m ev)) q1); assumption.
Qed.

(** In every run, what is suspended waits where the code awaits. *)
Lemma run_paced evs :
  exists q,
    Consistent options q (fst (run evs))
    /\ Forall PacedSuspended (pending (fst (run evs))).
Proof.
  destruct (run_consistent glob options tsConfigPath evs) as [q [_ [Hc _]]].
  exists q. split; [exact Hc|].
  destruct (boot_consistent options) as [q0 [_ [Hc0 _]]].
  apply (runFrom_paced evs (boot options) q0 Hc0).
  apply boot_awaits.
Qed.

(** A cycle that is suspended on the link stays so, whatever comes that
    settles nothing, and resets the flag when the link has settled. *)
Lemma link_awaited m out later u :
  restarting m = true ->
  pending m = [OnLink (WriteRestarting false Done)] ->
  Forall (fun ev => isSettlement ev = false) later ->
  exists extra,
    snd (runFrom (m, out) (later ++ [LinkSettled 0 (Returns u)]))
    = out ++ extra ++ [SetRestarting false]
    /\ Forall (fun a => belongsToCycle a = false) extra
    /\ restarting (fst (runFrom (m, out) (later ++ [LinkSettled 0 (Returns u)])))
       = false
    /\ pending (fst (runFrom (m, out) (later ++ [LinkSettled 0 (Returns u)])))
       = [].
Proof.
  intros Hr Hp Hlater.
  destruct (runFrom_busy later Hlater m out Hr) as [extra [He [Hx [Hr1 Hp1]]]].
  exists extra.
  rewrite (runFrom_app glob options tsConfigPath).
  destruct (runFrom (m, out) later) as [m1 o1]. cbn [fst snd] in *.
  subst o1. cbn [Watcher.runFrom]. rewrite andThen_exec.
  cbn [Watcher.step]. rewrite Hp1, Hp. cbn [nth_error].
  rewrite exec_Write. cbn [exec pre fst snd wake setRestarting
                           restarting pending removeNth].
  rewrite Hp1, Hp. cbn [removeNth].
  repeat split; auto. now rewrite <- app_assoc.
Qed.

End AwaitFacts.

(** The protocol refuses a process restart before the compiler, a
    before-restart hook before the before-start-or-restart hooks are
    through, and a cycle inside a cycle. *)
Example follow_refuses_restart_before_compile :
  Protocol.follow Examples.bare Protocol.Idle
    [Watcher.SetRestarting true; Watcher.LinkStartOrRestart] = None.
Proof. reflexivity. Qed.

Example follow_refuses_hook_out_of_phase :
  Protocol.follow Examples.withSteady Protocol.Idle
    [Watcher.SetRestarting true; Watcher.Call_onBeforeWatcherRestart 0] = None.
Proof. reflexivity. Qed.

Example follow_refuses_overlapping_cycles :
  Protocol.follow Examples.bare Protocol.Idle
    [Watcher.SetRestarting true; Watcher.SetRestarting true] = None.
Proof. reflexivity. Qed.

(** C2: in every run, what the watcher does stays in the order of the
    phases: in a cycle every before-start-or-restart hook is called, in
    the order of the plugins, before any before-restart hook, every
    before-restart hook before the compiler, the compiler before the
    request to restart the process, and the flag is reset after that
    request. The cycle waits where the code awaits: it is suspended after
    the call of each before-start-or-restart hook; in the set-up and in
    the turn of every event, nothing of a cycle is done after the call of
    such a hook or after the request to restart the process; while the
    flag is set, nothing of a cycle is done but in the turn of a
    settlement; and the flag is reset only in the turn in which the link
    has settled without an error. Once the restart of the process is
    requested, the cycle stays suspended on the link whatever comes that
    settles nothing, and when the link has settled the flag is reset.
    An accepted cycle in which every hook returns does exactly the phases
    in their order and then resets the flag. *)
Theorem restart_phases_in_order :
  forall glob options tsConfigPath,
  (forall evs, exists q,
      Protocol.follow options Protocol.NotStarted
        (snd (Watcher.run glob options tsConfigPath evs)) = Some q)
  /\ (forall event i p rest k m hook promise,
      Watcher.onBeforeWatcherStartOrRestart p = Some hook ->
      hook event = Watcher.Returns promise ->
      exists k',
        Watcher.exec
          (Watcher.forAwait_onBeforeWatcherStartOrRestart event
             ((i, p) :: rest) k) m
        = (Watcher.suspend (Watcher.OnPromise promise k') m,
           [Watcher.Call_onBeforeWatcherStartOrRestart i event]))
  /\ (Protocol.haltsAfterAwaited (snd (Watcher.boot options)) = true
      /\ ~ In (Watcher.SetRestarting false) (snd (Watcher.boot options)))
  /\ (forall evs ev,
      Protocol.haltsAfterAwaited
        (snd (Watcher.step glob options tsConfigPath
                (fst (Watcher.run glob options tsConfigPath evs)) ev)) = true
      /\ (Watcher.restarting
            (fst (Watcher.run glob options tsConfigPath evs)) = true ->
          Protocol.isSettlement ev = false ->
          Forall (fun a => Protocol.belongsToCycle a = false)
            (snd (Watcher.step glob options tsConfigPath
                    (fst (Watcher.run glob options tsConfigPath evs)) ev)))
      /\ (In (Watcher.SetRestarting false)
            (snd (Watcher.step glob options tsConfigPath
                    (fst (Watcher.run glob options tsConfigPath evs)) ev)) ->
          exists n u, ev = Watcher.LinkSettled n (Watcher.Returns u)))
  /\ (forall later u,
      In Watcher.LinkStartOrRestart (snd (Watcher.boot options)) ->
      Forall (fun ev => Protocol.isSettlement ev = false) later ->
      exists extra,
        snd (Watcher.run glob options tsConfigPath
               (later ++ [Watcher.LinkSettled 0 (Watcher.Returns u)]))
        = snd (Watcher.boot options) ++ extra ++ [Watcher.SetRestarting false]
        /\ Forall (fun a => Protocol.belongsToCycle a = false) extra
        /\ Watcher.restarting
             (fst (Watcher.run glob options tsConfigPath
                     (later ++ [Watcher.LinkSettled 0 (Watcher.Returns u)])))
           = false
        /\ Watcher.pending
             (fst (Watcher.run glob options tsConfigPath
                     (later ++ [Watcher.LinkSettled 0 (Watcher.Returns u)])))
           = [])
  /\ (forall evs ev later u,
      In Watcher.LinkStartOrRestart
        (snd (Watcher.step glob options tsConfigPath
                (fst (Watcher.run glob options tsConfigPath evs)) ev)) ->
      Forall (fun ev' => Protocol.isSettlement ev' = false) later ->
      exists extra,
        snd (Watcher.run glob options tsConfigPath
               (evs ++ ev :: later
                ++ [Watcher.LinkSettled 0 (Watcher.Returns u)]))
        = snd (Watcher.run glob options tsConfigPath (evs ++ [ev]))
          ++ extra ++ [Watcher.SetRestarting false]
        /\ Forall (fun a => Protocol.belongsToCycle a = false) extra
        /\ Watcher.restarting
             (fst (Watcher.run glob options tsConfigPath
                     (evs ++ ev :: later
                      ++ [Watcher.LinkSettled 0 (Watcher.Returns u)])))
           = false
        /\ Watcher.pending
             (fst (Watcher.run glob options tsConfigPath
                     (evs ++ ev :: later
                      ++ [Watcher.LinkSettled 0 (Watcher.Returns u)])))
           = [])
  /\ (forall change m,
      Watcher.restarting m = false ->
      Watcher.pending m = [] ->
      Forall (fun ip => Protocol.settles (Watcher.PostInit change) (snd ip))
        (Watcher.registered options) ->
      Forall (fun ip => Protocol.returnsBeforeRestart (snd ip))
        (Watcher.registered options) ->
      Watcher.runFrom glob options tsConfigPath
        (Watcher.exec
           (Watcher.restart tsConfigPath change (Watcher.registered options)) m)
        (Protocol.settleAll (Watcher.registered options) (Watcher.Returns tt))
      = ({| Watcher.restarting := false;
            Watcher.paused := Watcher.paused m;
            Watcher.pending := [] |},
         Protocol.restartTrace tsConfigPath change (Watcher.registered options)
         ++ [Watcher.SetRestarting false])).
Proof.
  intros glob options tsConfigPath.
  split; [|split; [|split; [|split; [|split; [|split]]]]].
  - intros evs.
    destruct (run_consistent glob options tsConfigPath evs) as [q [Hf _]].
    now exists q.
  - intros event i p rest k m hook promise Hh Hp.
    cbn [Watcher.forAwait_onBeforeWatcherStartOrRestart]. rewrite Hh, Hp.
    rewrite exec_Do, perform_quiet by reflexivity.
    eexists. reflexivity.
  - destruct (boot_awaits options) as [_ [H2 [H3 _]]]. now split.
  - intros evs ev.
    destruct (run_paced glob options tsConfigPath evs) as [q [Hc Hall]].
    destruct (step_awaits glob options tsConfigPath q _ ev Hc Hall)
      as [_ [H2 [H3 _]]].
    split; [exact H2|]. split; [|exact H3].
    intros Hr Hev.
    now apply (step_busy glob options tsConfigPath).
  - intros later u Hin Hlater.
    destruct (boot_awaits options) as [_ [_ [_ H4]]].
    destruct (H4 Hin) as [Hr Hp].
    unfold Watcher.run.
    destruct (Watcher.boot options) as [m0 o0]. cbn [fst snd] in *.
    apply (link_awaited glob options tsConfigPath); assumption.
  - intros evs ev later u Hin Hlater.
    destruct (run_paced glob options tsConfigPath evs) as [q [Hc Hall]].
    destruct (step_awaits glob options tsConfigPath q _ ev Hc Hall)
      as [_ [_ [_ H4]]].
    destruct (H4 Hin) as [Hr Hp].
    unfold Watcher.run in *.
    rewrite !(runFrom_app glob options tsConfigPath).
    destruct (Watcher.runFrom glob options tsConfigPath
                (Watcher.boot options) evs) as [m out].
    cbn [fst snd Watcher.runFrom] in *. rewrite andThen_exec.
    destruct (Watcher.step glob options tsConfigPath m ev) as [m1 o1].
    cbn [Protocol.pre fst snd] in *.
    apply (link_awaited glob options tsConfigPath); assumption.
  - intros change m Hr Hp H3 H4.
    rewrite <- (app_nil_r (Protocol.settleAll _ _)).
    rewrite (restart_cycle glob options tsConfigPath change m _ [] Hr Hp H3 H4).
    reflexivity.
Qed.

Lemma restart_phases_in_order_witness :
  Watcher.runFrom Matcher.refglob Examples.withSteady Examples.tsconfig
    (Watcher.exec
       (Watcher.restart Examples.tsconfig (Watcher.PluginEvent "src/a.ts")
          (Watcher.registered Examples.withSteady)) Examples.idle)
    (Protocol.settleAll (Watcher.registered Examples.withSteady)
       (Watcher.Returns tt))
  = ({| Watcher.restarting := false;
        Watcher.paused := Watcher.paused Examples.idle;
        Watcher.pending := [] |},
     Protocol.restartTrace Examples.tsconfig (Watcher.PluginEvent "src/a.ts")
       (Watcher.registered Examples.withSteady)
     ++ [Watcher.SetRestarting false]).
Proof.
  apply (proj2 (proj2 (proj2 (proj2 (proj2 (proj2
           (restart_phases_in_order Matcher.refglob
              Examples.withSteady Examples.tsconfig))))))).
  - reflexivity.
  - reflexivity.
  - apply steady_settles.
  - apply steady_returnsBeforeRestart.
Defined.

(** C3, as the claim states it, fails: after the link has failed in a
    restart the flag is still set, and the next restart is dropped as
    already in progress. *)
Lemma restart_after_link_failure_is_dropped :
  Watcher.run Matcher.refglob Examples.bare Examples.tsconfig
     [Watcher.LinkSettled 0 (Watcher.Returns tt);
      Watcher.LensRestart "src/a.ts";
      Watcher.LinkSettled 0 (Watcher.Throws "spawn failed");
      Watcher.LensRestart "src/a.ts"]
  = (Examples.busyMachine,
     [Watcher.CompilerInit; Watcher.ChokWatch ["src"];
      Watcher.SetRestarting true; Watcher.ClearConsole;
      Watcher.LinkStartOrRestart; Watcher.SetRestarting false;
      Watcher.SetRestarting true; Watcher.ClearConsole;
      Watcher.Log Watcher.trace "hook"
        (Watcher.HookName "beforeWatcherStartOrRestart");
      Watcher.Log Watcher.trace "hook"
        (Watcher.HookName "beforeWatcherRestart");
      Watcher.Log Watcher.info "restarting"
        (Watcher.OfEvent (Watcher.PostInit (Watcher.PluginEvent "src/a.ts")));
      Watcher.CompileChanged "src/a.ts"; Watcher.LinkStartOrRestart;
      Watcher.Uncaught "spawn failed";
      Watcher.Log Watcher.trace "restart already in progress"
        Watcher.NoContext]).
Proof. reflexivity. Qed.

(** C3 (amended): when the link's startOrRestart fails in a restart
    cycle, the error leaves the cycle uncaught and the flag is not reset:
    it stays set whatever comes after, and no later restart gets past the
    guard. *)
Theorem restart_link_failure_keeps_flag_set :
  forall glob options tsConfigPath change m e evs,
  Watcher.restarting m = false ->
  Watcher.pending m = [] ->
  Forall (fun ip => Protocol.settles (Watcher.PostInit change) (snd ip))
    (Watcher.registered options) ->
  Forall (fun ip => Protocol.returnsBeforeRestart (snd ip))
    (Watcher.registered options) ->
  exists extra,
    snd (Watcher.runFrom glob options tsConfigPath
           (Watcher.exec
              (Watcher.restart tsConfigPath change (Watcher.registered options))
              m)
           (Protocol.settleAll (Watcher.registered options) (Watcher.Throws e)
            ++ evs))
    = Protocol.restartTrace tsConfigPath change (Watcher.registered options)
      ++ [Watcher.Uncaught e] ++ extra
    /\ Forall (fun a => Protocol.belongsToCycle a = false) extra
    /\ Watcher.restarting
         (fst (Watcher.runFrom glob options tsConfigPath
            (Watcher.exec
               (Watcher.restart tsConfigPath change (Watcher.registered options))
               m)
            (Protocol.settleAll (Watcher.registered options) (Watcher.Throws e)
             ++ evs)))
       = true.
Proof.
  intros glob options tsConfigPath change m e evs Hr Hp H3 H4.
  rewrite (restart_cycle glob options tsConfigPath change m _ evs Hr Hp H3 H4).
  cbn [Protocol.ending].
  destruct (runFrom_aborted glob options tsConfigPath evs
              {| Watcher.restarting := true;
                 Watcher.paused := Watcher.paused m;
                 Watcher.pending := [] |}
              [Watcher.Uncaught e] eq_refl eq_refl)
    as [extra [He [Hall [Hr' _]]]].
  exists extra. cbn [Protocol.pre fst snd]. rewrite He.
  repeat split; auto.
Qed.

Lemma restart_link_failure_keeps_flag_set_witness :
  exists extra,
    snd (Watcher.runFrom Matcher.refglob Examples.withSteady Examples.tsconfig
           (Watcher.exec
              (Watcher.restart Examples.tsconfig (Watcher.PluginEvent "src/a.ts")
                 (Watcher.registered Examples.withSteady))
              Examples.idle)
           (Protocol.settleAll (Watcher.registered Examples.withSteady)
              (Watcher.Throws "spawn failed")
            ++ [Watcher.LensRestart "src/a.ts"]))
    = Protocol.restartTrace Examples.tsconfig (Watcher.PluginEvent "src/a.ts")
        (Watcher.registered Examples.withSteady)
      ++ [Watcher.Uncaught "spawn failed"] ++ extra
    /\ Forall (fun a => Protocol.belongsToCycle a = false) extra
    /\ Watcher.restarting
         (fst (Watcher.runFrom Matcher.refglob Examples.withSteady
            Examples.tsconfig
            (Watcher.exec
               (Watcher.restart Examples.tsconfig
                  (Watcher.PluginEvent "src/a.ts")
                  (Watcher.registered Examples.withSteady))
               Examples.idle)
            (Protocol.settleAll (Watcher.registered Examples.withSteady)
               (Watcher.Throws "spawn failed")
             ++ [Watcher.LensRestart "src/a.ts"])))
       = true.
Proof.
  apply (restart_link_failure_keeps_flag_set Matcher.refglob
           Examples.withSteady Examples.tsconfig).
  - reflexivity.
  - reflexivity.
  - apply steady_settles.
  - apply steady_returnsBeforeRestart.
Defined.

(** C5, as the claim states it, fails: a change of the tracked
    configuration file initializes the compiler again and then also runs
    compileChanged on that file. The first initialization below is the one
    of createWatcher. *)
Lemma restart_config_change_runs_compileChanged :
  filter Protocol.isCompilerCall
    (snd (Watcher.run Matcher.refglob Examples.bare Examples.tsconfig
       [Watcher.LinkSettled 0 (Watcher.Returns tt);
        Watcher.WatchAll Watcher.change "tsconfig.json";
        Watcher.LinkSettled 0 (Watcher.Returns tt)]))
  = [Watcher.CompilerInit; Watcher.CompilerInit;
     Watcher.CompileChanged "tsconfig.json"].
Proof. reflexivity. Qed.

(** C5 (amended): in an accepted restart cycle in which every hook
    returns, a change of the tracked configuration file initializes the
    compiler again and then runs compileChanged on that file; a change of
    any other file runs compileChanged only. *)
Theorem restart_compiler_calls :
  forall glob options tsConfigPath change m result,
  Watcher.restarting m = false ->
  Watcher.pending m = [] ->
  Forall (fun ip => Protocol.settles (Watcher.PostInit change) (snd ip))
    (Watcher.registered options) ->
  Forall (fun ip => Protocol.returnsBeforeRestart (snd ip))
    (Watcher.registered options) ->
  filter Protocol.isCompilerCall
    (snd (Watcher.runFrom glob options tsConfigPath
       (Watcher.exec
          (Watcher.restart tsConfigPath change (Watcher.registered options)) m)
       (Protocol.settleAll (Watcher.registered options) result)))
  = if String.eqb (Watcher.fileOf change) tsConfigPath
    then [Watcher.CompilerInit; Watcher.CompileChanged (Watcher.fileOf change)]
    else [Watcher.CompileChanged (Watcher.fileOf change)].
Proof.
  intros glob options tsConfigPath change m result Hr Hp H3 H4.
  rewrite <- (app_nil_r (Protocol.settleAll _ _)).
  rewrite (restart_cycle glob options tsConfigPath change m _ [] Hr Hp H3 H4).
  cbn [Watcher.runFrom Protocol.pre snd].
  rewrite filter_app, compilerCalls_restartTrace.
  unfold Protocol.compilerCalls.
  destruct result, (String.eqb (Watcher.fileOf change) tsConfigPath);
    reflexivity.
Qed.

Lemma restart_compiler_calls_witness :
  filter Protocol.isCompilerCall
    (snd (Watcher.runFrom Matcher.refglob Examples.withSteady Examples.tsconfig
       (Watcher.exec
          (Watcher.restart Examples.tsconfig
             (Watcher.ChokEvent Watcher.change "tsconfig.json")
             (Watcher.registered Examples.withSteady)) Examples.idle)
       (Protocol.settleAll (Watcher.registered Examples.withSteady)
          (Watcher.Returns tt))))
  = if String.eqb
         (Watcher.fileOf (Watcher.ChokEvent Watcher.change "tsconfig.json"))
         Examples.tsconfig
    then [Watcher.CompilerInit;
          Watcher.CompileChanged
            (Watcher.fileOf (Watcher.ChokEvent Watcher.change "tsconfig.json"))]
    else [Watcher.CompileChanged
            (Watcher.fileOf (Watcher.ChokEvent Watcher.change "tsconfig.json"))].
Proof.
  apply (restart_compiler_calls Matcher.refglob Examples.withSteady
           Examples.tsconfig).
  - reflexivity.
  - reflexivity.
  - apply steady_settles.
  - apply steady_returnsBeforeRestart.
Defined.

(** C4, as the claim states it, fails: in the restart below the
    before-restart hook of the first plugin throws; the error is not
    caught, the before-restart hook of the second plugin is not called,
    the compiler and the link are not called and the flag stays set. When
    the process then reports that it listens, the after-restart hook of
    the first plugin throws, the one of the second plugin is not called
    and the watcher is not resumed. *)
Lemma hook_error_is_not_isolated :
  Watcher.run Matcher.refglob Examples.withFaulty Examples.tsconfig
    [Watcher.PromiseSettled 0; Watcher.PromiseSettled 0;
     Watcher.LinkSettled 0 (Watcher.Returns tt);
     Watcher.LensRestart "src/a.ts";
     Watcher.PromiseSettled 0; Watcher.PromiseSettled 0;
     Watcher.ServerListening]
  = (Examples.busyMachine,
     [Watcher.CompilerInit; Watcher.ChokWatch ["src"];
      Watcher.SetRestarting true; Watcher.ClearConsole;
      Watcher.Call_onBeforeWatcherStartOrRestart 1 Watcher.InitEvent;
      Watcher.LinkStartOrRestart; Watcher.SetRestarting false;
      Watcher.SetRestarting true; Watcher.ClearConsole;
      Watcher.Log Watcher.trace "hook"
        (Watcher.HookName "beforeWatcherStartOrRestart");
      Watcher.Call_onBeforeWatcherStartOrRestart 1
        (Watcher.PostInit (Watcher.PluginEvent "src/a.ts"));
      Watcher.Log Watcher.trace "hook"
        (Watcher.HookName "beforeWatcherRestart");
      Watcher.Call_onBeforeWatcherRestart 0;
      Watcher.Uncaught "before failed";
      Watcher.Call_onAfterWatcherRestart 0;
      Watcher.Uncaught "after failed"]).
Proof. reflexivity. Qed.

(** A before-restart or after-restart hook that fails in the promise it
    returns stops nothing: in the same run as above, with the two hooks
    of the first plugin returning a rejected promise instead of throwing,
    the hooks of the second plugin are called, the restart goes on to the
    compiler and the link and resets the flag, and the watcher is
    resumed; the rejections appear nowhere. *)
Example rejected_hook_promise_is_dropped :
  Watcher.run Matcher.refglob Examples.withRejecting Examples.tsconfig
    [Watcher.PromiseSettled 0; Watcher.PromiseSettled 0;
     Watcher.LinkSettled 0 (Watcher.Returns tt);
     Watcher.LensRestart "src/a.ts";
     Watcher.PromiseSettled 0; Watcher.PromiseSettled 0;
     Watcher.LinkSettled 0 (Watcher.Returns tt);
     Watcher.ServerListening]
  = (Examples.idle,
     [Watcher.CompilerInit; Watcher.ChokWatch ["src"];
      Watcher.SetRestarting true; Watcher.ClearConsole;
      Watcher.Call_onBeforeWatcherStartOrRestart 1 Watcher.InitEvent;
      Watcher.LinkStartOrRestart; Watcher.SetRestarting false;
      Watcher.SetRestarting true; Watcher.ClearConsole;
      Watcher.Log Watcher.trace "hook"
        (Watcher.HookName "beforeWatcherStartOrRestart");
      Watcher.Call_onBeforeWatcherStartOrRestart 1
        (Watcher.PostInit (Watcher.PluginEvent "src/a.ts"));
      Watcher.Log Watcher.trace "hook"
        (Watcher.HookName "beforeWatcherRestart");
      Watcher.Call_onBeforeWatcherRestart 0;
      Watcher.Call_onBeforeWatcherRestart 1;
      Watcher.Log Watcher.info "restarting"
        (Watcher.OfEvent (Watcher.PostInit (Watcher.PluginEvent "src/a.ts")));
      Watcher.CompileChanged "src/a.ts"; Watcher.LinkStartOrRestart;
      Watcher.SetRestarting false;
      Watcher.Call_onAfterWatcherRestart 0;
      Watcher.Call_onAfterWatcherRestart 1;
      Watcher.WatcherResume]).
Proof. reflexivity. Qed.

(** C4 (amended): the hooks are called without a handler for their
    errors. When a before-start-or-restart hook of a plugin throws, or
    the promise it returns is rejected, or when a before-restart hook of
    a plugin throws, in an accepted restart cycle, the error leaves the
    cycle uncaught, and from then on nothing of a cycle happens any more:
    the hooks of the plugins after it are not called, the compiler and
    the link are not called, and the flag stays set. When an
    after-restart hook throws as the process reports that it listens, the
    hooks of the plugins after it are not called and the watcher is not
    resumed. What a before-restart or an after-restart hook returns is
    not awaited: when the promise returned by such a hook is rejected,
    the rejection is dropped; the hooks of the plugins after it are
    called, the cycle goes on to the compiler and the link and resets the
    flag, and the watcher is resumed. *)
Theorem hook_error_ends_the_cycle :
  forall glob options tsConfigPath,
  (forall change m before i p e after evs,
      Watcher.registered options = before ++ (i, p) :: after ->
      Watcher.restarting m = false ->
      Watcher.pending m = [] ->
      Forall (fun ip => Protocol.settles (Watcher.PostInit change) (snd ip))
        before ->
      Protocol.raisesBeforeStartOrRestart (Watcher.PostInit change) p e ->
      exists extra,
        snd (Watcher.runFrom glob options tsConfigPath
               (Watcher.exec
                  (Watcher.restart tsConfigPath change
                     (Watcher.registered options)) m)
               (repeat (Watcher.PromiseSettled 0) (S (length before)) ++ evs))
        = [Watcher.SetRestarting true; Watcher.ClearConsole;
           Watcher.Log Watcher.trace "hook"
             (Watcher.HookName "beforeWatcherStartOrRestart")]
          ++ Protocol.beforeStartOrRestartTrace (Watcher.PostInit change) before
          ++ [Watcher.Call_onBeforeWatcherStartOrRestart i
                (Watcher.PostInit change);
              Watcher.Uncaught e]
          ++ extra
        /\ Forall (fun a => Protocol.belongsToCycle a = false) extra
        /\ Watcher.restarting
             (fst (Watcher.runFrom glob options tsConfigPath
                (Watcher.exec
                   (Watcher.restart tsConfigPath change
                      (Watcher.registered options)) m)
                (repeat (Watcher.PromiseSettled 0) (S (length before)) ++ evs)))
           = true)
  /\ (forall change m before i p e after evs,
      Watcher.registered options = before ++ (i, p) :: after ->
      Watcher.restarting m = false ->
      Watcher.pending m = [] ->
      Forall (fun ip => Protocol.settles (Watcher.PostInit change) (snd ip))
        (Watcher.registered options) ->
      Forall (fun ip => Protocol.returnsBeforeRestart (snd ip)) before ->
      Protocol.raisesBeforeRestart p e ->
      exists extra,
        snd (Watcher.runFrom glob options tsConfigPath
               (Watcher.exec
                  (Watcher.restart tsConfigPath change
                     (Watcher.registered options)) m)
               (repeat (Watcher.PromiseSettled 0)
                  (length (Watcher.registered options)) ++ evs))
        = [Watcher.SetRestarting true; Watcher.ClearConsole;
           Watcher.Log Watcher.trace "hook"
             (Watcher.HookName "beforeWatcherStartOrRestart")]
          ++ Protocol.beforeStartOrRestartTrace (Watcher.PostInit change)
               (Watcher.registered options)
          ++ [Watcher.Log Watcher.trace "hook"
                (Watcher.HookName "beforeWatcherRestart")]
          ++ Protocol.beforeRestartTrace before
          ++ [Watcher.Call_onBeforeWatcherRestart i; Watcher.Uncaught e]
          ++ extra
        /\ Forall (fun a => Protocol.belongsToCycle a = false) extra
        /\ Watcher.restarting
             (fst (Watcher.runFrom glob options tsConfigPath
                (Watcher.exec
                   (Watcher.restart tsConfigPath change
                      (Watcher.registered options)) m)
                (repeat (Watcher.PromiseSettled 0)
                   (length (Watcher.registered options)) ++ evs)))
           = true)
  /\ (forall m before i p e after,
      Watcher.registered options = before ++ (i, p) :: after ->
      Forall (fun ip => Protocol.returnsAfterRestart (snd ip)) before ->
      Protocol.raisesAfterRestart p e ->
      Watcher.step glob options tsConfigPath m Watcher.ServerListening
      = (m, Protocol.afterRestartTrace before
            ++ [Watcher.Call_onAfterWatcherRestart i; Watcher.Uncaught e]))
  /\ (forall change m before i p e after,
      Watcher.registered options = before ++ (i, p) :: after ->
      Watcher.restarting m = false ->
      Watcher.pending m = [] ->
      Forall (fun ip => Protocol.settles (Watcher.PostInit change) (snd ip))
        (Watcher.registered options) ->
      Forall (fun ip => Protocol.returnsBeforeRestart (snd ip)) before ->
      Forall (fun ip => Protocol.returnsBeforeRestart (snd ip)) after ->
      Protocol.rejectsBeforeRestart p e ->
      Watcher.runFrom glob options tsConfigPath
        (Watcher.exec
           (Watcher.restart tsConfigPath change (Watcher.registered options)) m)
        (Protocol.settleAll (Watcher.registered options) (Watcher.Returns tt))
      = ({| Watcher.restarting := false;
            Watcher.paused := Watcher.paused m;
            Watcher.pending := [] |},
         [Watcher.SetRestarting true; Watcher.ClearConsole;
          Watcher.Log Watcher.trace "hook"
            (Watcher.HookName "beforeWatcherStartOrRestart")]
         ++ Protocol.beforeStartOrRestartTrace (Watcher.PostInit change)
              (Watcher.registered options)
         ++ [Watcher.Log Watcher.trace "hook"
               (Watcher.HookName "beforeWatcherRestart")]
         ++ Protocol.beforeRestartTrace before
         ++ [Watcher.Call_onBeforeWatcherRestart i]
         ++ Protocol.beforeRestartTrace after
         ++ [Watcher.Log Watcher.info "restarting"
               (Watcher.OfEvent (Watcher.PostInit change))]
         ++ (if String.eqb (Watcher.fileOf change) tsConfigPath
             then [Watcher.Log Watcher.trace "reinitializing TS compilation"
                     Watcher.NoContext;
                   Watcher.CompilerInit]
             else [])
         ++ [Watcher.CompileChanged (Watcher.fileOf change);
             Watcher.LinkStartOrRestart;
             Watcher.SetRestarting false]))
  /\ (forall m before i p e after,
      Watcher.registered options = before ++ (i, p) :: after ->
      Forall (fun ip => Protocol.returnsAfterRestart (snd ip)) before ->
      Forall (fun ip => Protocol.returnsAfterRestart (snd ip)) after ->
      Protocol.rejectsAfterRestart p e ->
      Watcher.step glob options tsConfigPath m Watcher.ServerListening
      = ({| Watcher.restarting := Watcher.restarting m;
            Watcher.paused := false;
            Watcher.pending := Watcher.pending m |},
         Protocol.afterRestartTrace before
         ++ [Watcher.Call_onAfterWatcherRestart i]
         ++ Protocol.afterRestartTrace after
         ++ [Watcher.WatcherResume])).
Proof.
  intros glob options tsConfigPath. split; [|split; [|split; [|split]]].
  - intros change m before i p e after evs Hs Hr Hp Hb He. rewrite Hs.
    rewrite (restart_beforeStartOrRestart_raises glob options tsConfigPath
               change m before i p e after evs Hr Hp Hb He).
    destruct (runFrom_aborted glob options tsConfigPath evs
                (Protocol.aborted m) [] eq_refl eq_refl)
      as [extra [Hx [Hall [Hr' _]]]].
    exists extra. cbn [Protocol.pre fst snd]. rewrite Hx.
    cbn [app] in *. repeat split; auto.
    repeat (rewrite <- app_assoc; cbn [app]). reflexivity.
  - intros change m before i p e after evs Hs Hr Hp H3 Hb He.
    rewrite Hs in *.
    rewrite (restart_beforeRestart_raises glob options tsConfigPath
               change m before i p e after evs Hr Hp H3 Hb He).
    destruct (runFrom_aborted glob options tsConfigPath evs
                (Protocol.aborted m) [] eq_refl eq_refl)
      as [extra [Hx [Hall [Hr' _]]]].
    exists extra. cbn [Protocol.pre fst snd]. rewrite Hx.
    cbn [app] in *. repeat split; auto.
    repeat (rewrite <- app_assoc; cbn [app]). reflexivity.
  - intros m before i p e after Hs Hb He.
    cbn [Watcher.step]. unfold Watcher.onServerListening. rewrite Hs.
    apply exec_forEach_onAfterWatcherRestart_raises; assumption.
  - intros change m before i p e after Hs Hr Hp H3 Hb Ha He.
    assert (H4 : Forall (fun ip => Protocol.returnsBeforeRestart (snd ip))
                   (Watcher.registered options)).
    { rewrite Hs. apply Forall_app. split; [exact Hb|].
      constructor; [|exact Ha].
      exact (rejects_returnsBeforeRestart p e He). }
    assert (Htr : Protocol.beforeRestartTrace (Watcher.registered options)
                  = Protocol.beforeRestartTrace before
                    ++ [Watcher.Call_onBeforeWatcherRestart i]
                    ++ Protocol.beforeRestartTrace after).
    { rewrite Hs, beforeRestartTrace_app. f_equal.
      destruct He as [hook [Hh _]].
      unfold Protocol.beforeRestartTrace. cbn [flat_map fst snd].
      now rewrite Hh. }
    rewrite <- (app_nil_r (Protocol.settleAll _ _)).
    rewrite (restart_cycle glob options tsConfigPath change m _ [] Hr Hp H3 H4).
    cbn [Watcher.runFrom Protocol.ending]. unfold Protocol.pre.
    cbn [fst snd]. f_equal.
    unfold Protocol.restartTrace. rewrite Htr.
    destruct (String.eqb (Watcher.fileOf change) tsConfigPath);
      repeat (rewrite <- app_assoc; cbn [app]); reflexivity.
  - intros m before i p e after Hs Hb Ha He.
    assert (H4 : Forall (fun ip => Protocol.returnsAfterRestart (snd ip))
                   (Watcher.registered options)).
    { rewrite Hs. apply Forall_app. split; [exact Hb|].
      constructor; [|exact Ha].
      exact (rejects_returnsAfterRestart p e He). }
    assert (Htr : Protocol.afterRestartTrace (Watcher.registered options)
                  = Protocol.afterRestartTrace before
                    ++ [Watcher.Call_onAfterWatcherRestart i]
                    ++ Protocol.afterRestartTrace after).
    { rewrite Hs, afterRestartTrace_app. f_equal.
      destruct He as [hook [Hh _]].
      unfold Protocol.afterRestartTrace. cbn [flat_map fst snd].
      now rewrite Hh. }
    cbn [Watcher.step]. unfold Watcher.onServerListening.
    rewrite (exec_forEach_onAfterWatcherRestart _ H4).
    rewrite exec_Do. cbn [Watcher.exec]. unfold Protocol.pre.
    cbn [fst snd]. f_equal. rewrite Htr.
    repeat (rewrite <- app_assoc; cbn [app]). reflexivity.
Qed.

Lemma hook_error_ends_the_cycle_witness :
  Watcher.step Matcher.refglob Examples.withFaulty Examples.tsconfig
    Examples.idle Watcher.ServerListening
  = (Examples.idle,
     Protocol.afterRestartTrace []
     ++ [Watcher.Call_onAfterWatcherRestart 0;
         Watcher.Uncaught "after failed"])
  /\ Watcher.step Matcher.refglob Examples.withRejecting Examples.tsconfig
       Examples.busyMachine Watcher.ServerListening
     = ({| Watcher.restarting := Watcher.restarting Examples.busyMachine;
           Watcher.paused := false;
           Watcher.pending := Watcher.pending Examples.busyMachine |},
        Protocol.afterRestartTrace []
        ++ [Watcher.Call_onAfterWatcherRestart 0]
        ++ Protocol.afterRestartTrace [(1, Examples.steady)]
        ++ [Watcher.WatcherResume]).
Proof.
  split.
  - apply (proj1 (proj2 (proj2 (hook_error_ends_the_cycle Matcher.refglob
                           Examples.withFaulty Examples.tsconfig))))
      with (p := Examples.faulty) (after := [(1, Examples.steady)]).
    + reflexivity.
    + constructor.
    + exists (fun _ => Watcher.Throws "after failed"). split; reflexivity.
  - apply (proj2 (proj2 (proj2 (proj2 (hook_error_ends_the_cycle
                           Matcher.refglob Examples.withRejecting
                           Examples.tsconfig)))))
      with (p := Examples.rejecting) (e := "after rejected"%string).
    + reflexivity.
    + constructor.
    + repeat constructor. intros hook H. injection H as <-.
      eexists. reflexivity.
    + exists (fun _ => Watcher.Returns (Watcher.Throws "after rejected")).
      split; reflexivity.
Defined.

(* ===================================================================== *)
(** * Dispatch of watch events *)
(* ===================================================================== *)

Section DispatchFacts.

Import Watcher Protocol.

Variable glob : string -> string -> bool.
Variable options : Opts.
Variable tsConfigPath : string.

(** What the listeners of the plugins do does not depend on the
    machine. *)
Lemma exec_pluginListeners ps event file m :
  exec (pluginListeners glob ps event file Done) m
  = (m, pluginDeliveries glob ps event file).
Proof.
  induction ps as [|[i p] ps IH]; [reflexivity|].
  cbn [pluginListeners pluginDeliveries].
  destruct (onFileWatcherEvent p) as [handler|]; [|exact IH].
  destruct (isMatchedByPluginListener glob p file).
  - rewrite !exec_Do, !perform_quiet by reflexivity.
    destruct (handler event file); [rewrite IH|]; reflexivity.
  - rewrite exec_Do, perform_quiet by reflexivity.
    rewrite IH. reflexivity.
Qed.

Lemma andThen_Done r : andThen r (exec Done) = r.
Proof.
  destruct r as [m out]. unfold andThen. cbn [exec].
  now rewrite app_nil_r.
Qed.




End DispatchFacts.



(* ===================================================================== *)
(** * Pausing and the first start *)
(* ===================================================================== *)

Section PauseFacts.

Import Watcher Protocol.

Variable glob : string -> string -> bool.
Variable options : Opts.
Variable tsConfigPath : string.

Lemma step_paused m ev :
  paused (fst (step glob options tsConfigPath m ev))
  = pausedAfter (snd (step glob options tsConfigPath m ev)) (paused m).
Proof.
  destruct ev; cbn [step]; try apply exec_paused.
  - destruct (nth_error (pending m) n) as [[[value|e] k|k]|];
      try reflexivity; apply (exec_paused _ (wake n m)).
  - destruct (nth_error (pending m) n) as [[promise k|k]|];
      try reflexivity.
    destruct result; apply (exec_paused _ (wake n m)).
Qed.

Lemma runFrom_paused evs :
  forall r b,
  paused (fst r) = pausedAfter (snd r) b ->
  paused (fst (runFrom glob options tsConfigPath r evs))
  = pausedAfter (snd (runFrom glob options tsConfigPath r evs)) b.
Proof.
  induction evs as [|ev evs IH]; intros [m out] b H; [exact H|].
  cbn [runFrom]. apply IH. rewrite andThen_exec. cbn [pre fst snd] in *.
  now rewrite pausedAfter_app, <- H, step_paused.
Qed.

(** Whether the watcher is paused is decided by the pause and resume
    calls made so far. *)
Lemma run_paused evs :
  paused (fst (run glob options tsConfigPath evs))
  = pausedAfter (snd (run glob options tsConfigPath evs)) false.
Proof.
  unfold run. apply runFrom_paused. unfold boot.
  apply (exec_paused _ initial).
Qed.

Lemma exec_forAwait_restarting event ps k :
  (forall m, restarting m = true -> restarting (fst (exec k m)) = true) ->
  forall m, restarting m = true ->
  restarting
    (fst (exec (forAwait_onBeforeWatcherStartOrRestart event ps k) m))
  = true.
Proof.
  intros Hk. destruct ps as [|[i p] ps]; intros m Hr; [now apply Hk|].
  cbn [forAwait_onBeforeWatcherStartOrRestart].
  destruct (onBeforeWatcherStartOrRestart p) as [hook|]; [|exact Hr].
  rewrite exec_Do. cbn [pre fst].
  destruct (hook event); exact Hr.
Qed.

Lemma firstStartTrace_onlyInRestart ps :
  Forall (fun a => onlyInRestart a = false) (firstStartTrace ps).
Proof.
  unfold firstStartTrace. repeat constructor.
  apply Forall_app. split; [|repeat constructor].
  induction ps as [|[i p] ps IH]; [constructor|].
  unfold beforeStartOrRestartTrace. cbn [flat_map fst snd].
  apply Forall_app. split; [|exact IH].
  destruct (onBeforeWatcherStartOrRestart p) as [hook|]; [|constructor].
  constructor; [reflexivity|].
  destruct (hook InitEvent) as [[[changes|]|]|]; repeat constructor.
Qed.

End PauseFacts.

(** C7, as the claim states it, fails: the restart below does not pause
    the watcher, and the watch event that comes while the restart is on
    is taken in and reaches the core listener, where the guard drops it. *)
Lemma restart_does_not_pause_the_watcher :
  Watcher.restarting
    (fst (Watcher.run Matcher.refglob Examples.withSteady Examples.tsconfig
       [Watcher.PromiseSettled 0; Watcher.LinkSettled 0 (Watcher.Returns tt);
        Watcher.WatchAll Watcher.change "src/a.ts";
        Watcher.WatchAll Watcher.change "src/b.ts"])) = true
  /\ Watcher.paused
    (fst (Watcher.run Matcher.refglob Examples.withSteady Examples.tsconfig
       [Watcher.PromiseSettled 0; Watcher.LinkSettled 0 (Watcher.Returns tt);
        Watcher.WatchAll Watcher.change "src/a.ts";
        Watcher.WatchAll Watcher.change "src/b.ts"])) = false
  /\ snd (Watcher.run Matcher.refglob Examples.withSteady Examples.tsconfig
       [Watcher.PromiseSettled 0; Watcher.LinkSettled 0 (Watcher.Returns tt);
        Watcher.WatchAll Watcher.change "src/a.ts";
        Watcher.WatchAll Watcher.change "src/b.ts"])
     = [Watcher.CompilerInit; Watcher.ChokWatch ["src"];
        Watcher.SetRestarting true; Watcher.ClearConsole;
        Watcher.Call_onBeforeWatcherStartOrRestart 0 Watcher.InitEvent;
        Watcher.LinkStartOrRestart; Watcher.SetRestarting false;
        Watcher.Log Watcher.trace "global listener - matched file"
          (Watcher.OfEvent (Watcher.PostInit
             (Watcher.ChokEvent Watcher.change "src/a.ts")));
        Watcher.SetRestarting true; Watcher.ClearConsole;
        Watcher.Log Watcher.trace "hook"
          (Watcher.HookName "beforeWatcherStartOrRestart");
        Watcher.Call_onBeforeWatcherStartOrRestart 0
          (Watcher.PostInit (Watcher.ChokEvent Watcher.change "src/a.ts"));
        Watcher.Log Watcher.trace "global listener - matched file"
          (Watcher.OfEvent (Watcher.PostInit
             (Watcher.ChokEvent Watcher.change "src/b.ts")));
        Watcher.Log Watcher.trace "restart already in progress"
          Watcher.NoContext].
Proof. repeat split. Qed.

(** C7 (amended): the watcher is paused only by the pause control that a
    plugin is given: in a run in which no plugin uses it, no start or
    restart pauses the watcher and the watcher is never paused. When the
    process reports that it listens, the after-restart hook of every
    plugin is called in the order of the plugins (as long as none
    raises), and after the last of them the watcher is resumed. *)
Theorem watcher_resumed_after_hooks_never_paused_by_restart :
  forall glob options tsConfigPath,
  (forall evs,
      ~ In Watcher.LensPause evs ->
      ~ In Watcher.WatcherPause
          (snd (Watcher.run glob options tsConfigPath evs))
      /\ Watcher.paused (fst (Watcher.run glob options tsConfigPath evs))
         = false)
  /\ (forall m,
      Forall (fun ip => Protocol.returnsAfterRestart (snd ip))
        (Watcher.registered options) ->
      Watcher.step glob options tsConfigPath m Watcher.ServerListening
      = ({| Watcher.restarting := Watcher.restarting m;
            Watcher.paused := false;
            Watcher.pending := Watcher.pending m |},
         Protocol.afterRestartTrace (Watcher.registered options)
         ++ [Watcher.WatcherResume])).
Proof.
  intros glob options tsConfigPath. split.
  - intros evs Hev.
    destruct (run_consistent glob options tsConfigPath evs) as [q [_ [_ Hno]]].
    specialize (Hno Hev). split; [exact Hno|].
    rewrite run_paused. now apply pausedAfter_no_pause.
  - intros m Ha. cbn [Watcher.step]. unfold Watcher.onServerListening.
    rewrite (exec_forEach_onAfterWatcherRestart _ Ha).
    rewrite exec_Do. reflexivity.
Qed.

Lemma watcher_resumed_after_hooks_never_paused_by_restart_witness :
  Watcher.step Matcher.refglob Examples.withSteady Examples.tsconfig
    Examples.busyMachine Watcher.ServerListening
  = ({| Watcher.restarting := Watcher.restarting Examples.busyMachine;
        Watcher.paused := false;
        Watcher.pending := Watcher.pending Examples.busyMachine |},
     Protocol.afterRestartTrace (Watcher.registered Examples.withSteady)
     ++ [Watcher.WatcherResume]).
Proof.
  apply (proj2 (watcher_resumed_after_hooks_never_paused_by_restart
                  Matcher.refglob Examples.withSteady Examples.tsconfig)).
  apply steady_returnsAfterRestart.
Defined.

(** C8, as the claim states it, fails: the first start calls the
    before-start-or-restart hook with the init event and starts the
    process; it calls no before-restart hook and no compileChanged, which
    a restart of the same project does. *)
Lemma first_start_skips_phases_of_a_restart :
  Watcher.run Matcher.refglob Examples.withSteady Examples.tsconfig
    [Watcher.PromiseSettled 0; Watcher.LinkSettled 0 (Watcher.Returns tt)]
  = (Examples.idle,
     [Watcher.CompilerInit; Watcher.ChokWatch ["src"];
      Watcher.SetRestarting true; Watcher.ClearConsole;
      Watcher.Call_onBeforeWatcherStartOrRestart 0 Watcher.InitEvent;
      Watcher.LinkStartOrRestart; Watcher.SetRestarting false])
  /\ Watcher.runFrom Matcher.refglob Examples.withSteady Examples.tsconfig
       (Watcher.exec
          (Watcher.restart Examples.tsconfig (Watcher.PluginEvent "src/a.ts")
             (Watcher.registered Examples.withSteady)) Examples.idle)
       [Watcher.PromiseSettled 0; Watcher.LinkSettled 0 (Watcher.Returns tt)]
     = (Examples.idle,
        [Watcher.SetRestarting true; Watcher.ClearConsole;
         Watcher.Log Watcher.trace "hook"
           (Watcher.HookName "beforeWatcherStartOrRestart");
         Watcher.Call_onBeforeWatcherStartOrRestart 0
           (Watcher.PostInit (Watcher.PluginEvent "src/a.ts"));
         Watcher.Log Watcher.trace "hook"
           (Watcher.HookName "beforeWatcherRestart");
         Watcher.Call_onBeforeWatcherRestart 0;
         Watcher.Log Watcher.info "restarting"
           (Watcher.OfEvent
              (Watcher.PostInit (Watcher.PluginEvent "src/a.ts")));
         Watcher.CompileChanged "src/a.ts";
         Watcher.LinkStartOrRestart; Watcher.SetRestarting false]).
Proof. split; reflexivity. Qed.

(** C8 (amended): the first start is one cycle of its own, tagged with the
    init event: it sets the flag before anything is awaited, calls the
    before-start-or-restart hook of every plugin with the init event in
    the order of the plugins, merges the patches, starts the process and
    resets the flag. It calls no before-restart hook and no
    compileChanged: these two phases belong to the restarts only. *)
Theorem first_start_runs_start_hooks_only :
  forall glob options tsConfigPath,
  Watcher.restarting (fst (Watcher.boot options)) = true
  /\ Forall (fun a => Protocol.onlyInRestart a = false)
       (Protocol.firstStartTrace (Watcher.registered options))
  /\ (Forall (fun ip => Protocol.settles Watcher.InitEvent (snd ip))
        (Watcher.registered options) ->
      Watcher.run glob options tsConfigPath
        (Protocol.settleAll (Watcher.registered options) (Watcher.Returns tt))
      = (Watcher.initial,
         [Watcher.CompilerInit;
          Watcher.ChokWatch
            (Watcher.sourceRoot options
             :: Watcher.pluginWatchContributions options)]
         ++ Protocol.firstStartTrace (Watcher.registered options)
         ++ [Watcher.SetRestarting false])).
Proof.
  intros glob options tsConfigPath. split; [|split].
  - unfold Watcher.boot, Watcher.createWatcher.
    rewrite !exec_Do, exec_Write, exec_Do. cbn [Protocol.pre fst].
    apply exec_forAwait_restarting; [|reflexivity].
    intros m Hr. rewrite exec_Do. exact Hr.
  - apply firstStartTrace_onlyInRestart.
  - intros H3.
    rewrite <- (app_nil_r (Protocol.settleAll _ _)).
    rewrite (first_start glob options tsConfigPath _ [] H3).
    cbn [Watcher.runFrom Protocol.ending]. unfold Protocol.pre.
    cbn [fst snd]. now rewrite <- app_assoc.
Qed.

Lemma first_start_runs_start_hooks_only_witness :
  Watcher.run Matcher.refglob Examples.withSteady Examples.tsconfig
    (Protocol.settleAll (Watcher.registered Examples.withSteady)
       (Watcher.Returns tt))
  = (Watcher.initial,
     [Watcher.CompilerInit;
      Watcher.ChokWatch
        (Watcher.sourceRoot Examples.withSteady
         :: Watcher.pluginWatchContributions Examples.withSteady)]
     ++ Protocol.firstStartTrace (Watcher.registered Examples.withSteady)
     ++ [Watcher.SetRestarting false]).
Proof.
  apply (proj2 (proj2 (first_start_runs_start_hooks_only Matcher.refglob
                         Examples.withSteady Examples.tsconfig))).
  apply steady_settles.
Defined.

(* ===================================================================== *)
(** * Properties of the start module *)
(* ===================================================================== *)

Section StartModuleFacts.

Import StartModule.
Local Open Scope string_scope.

Lemma length_append s1 s2 :
  String.length (s1 ++ s2) = String.length s1 + String.length s2.
Proof. induction s1 as [|c s1 IH]; cbn; [reflexivity|now rewrite IH]. Qed.

Lemma differAt_neq k s1 s2 : differAt k s1 s2 -> s1 <> s2.
Proof. intros [_ [_ H]] ->. now apply H. Qed.

Lemma differAt_append_r k s1 s2 r :
  differAt k s1 s2 -> differAt k (s1 ++ r) (s2 ++ r).
Proof.
  intros [H1 [H2 H]]. unfold differAt. rewrite !length_append.
  repeat split; try lia.
  now rewrite <- !append_correct1.
Qed.

Lemma differAt_append_l k s1 s2 p :
  differAt k s1 s2 -> differAt (k + String.length p) (p ++ s1) (p ++ s2).
Proof.
  intros [H1 [H2 H]]. unfold differAt. rewrite !length_append.
  repeat split; try lia.
  now rewrite <- !append_correct2.
Qed.

Lemma namedImportAlias_inj r1 r2 :
  namedImportAlias r1 = namedImportAlias r2 ->
  substring 2 3 r1 = substring 2 3 r2.
Proof.
  unfold namedImportAlias. intros H. cbn [String.append] in H.
  injection H. auto.
Qed.

(** The aliases follow the numbers drawn, plugin by plugin. *)
Lemma aliasesFrom_eq random1 random2 names :
  forall i,
  aliasesFrom random1 i names = aliasesFrom random2 i names ->
  forall k, k < List.length names ->
  substring 2 3 (random1 (i + k)) = substring 2 3 (random2 (i + k)).
Proof.
  induction names as [|name names IH]; intros i H k Hk; cbn in Hk; [lia|].
  cbn [aliasesFrom] in H.
  assert (Ha : namedImportAlias (random1 i) = namedImportAlias (random2 i))
    by congruence.
  assert (Hrest : aliasesFrom random1 (S i) names
                  = aliasesFrom random2 (S i) names)
    by congruence.
  destruct k as [|k].
  - rewrite Nat.add_0_r. now apply namedImportAlias_inj.
  - replace (i + S k) with (S i + k) by lia. apply IH; [exact Hrest|lia].
Qed.

End StartModuleFacts.

(** C10: without runtime plugins the content does not depend on the
    numbers drawn, so two calls with equal inputs return equal strings;
    with runtime plugins every alias is made from the number drawn for its
    plugin, so that two draws that differ for some plugin give different
    aliases, and the content of two calls with equal inputs can differ. *)
Theorem createStartModuleContent_deterministic_without_plugins :
  (forall EOL stripIndent resolveFrom stripExt pathRelative config
          random1 random2,
      StartModule.runtimePluginNames config = [] ->
      StartModule.createStartModuleContent EOL stripIndent resolveFrom
        stripExt pathRelative config random1
      = StartModule.createStartModuleContent EOL stripIndent resolveFrom
          stripExt pathRelative config random2)
  /\ (forall config random1 random2 k,
      k < length (StartModule.runtimePluginNames config) ->
      substring 2 3 (random1 k) <> substring 2 3 (random2 k) ->
      StartModule.aliasAndPluginNames config random1
      <> StartModule.aliasAndPluginNames config random2)
  /\ (forall EOL resolveFrom stripExt pathRelative,
      StartModule.createStartModuleContent EOL StartModule.refStripIndent
        resolveFrom stripExt pathRelative StartModule.onePlugin
        (fun _ => "0.1111")
      <> StartModule.createStartModuleContent EOL StartModule.refStripIndent
           resolveFrom stripExt pathRelative StartModule.onePlugin
           (fun _ => "0.2222")).
Proof.
  split; [|split].
  - intros EOL stripIndent resolveFrom stripExt pathRelative config
      random1 random2 Hnames.
    unfold StartModule.createStartModuleContent. rewrite Hnames. reflexivity.
  - intros config random1 random2 k Hk Hne Heq. apply Hne.
    apply (aliasesFrom_eq random1 random2 _ 0 Heq k Hk).
  - intros EOL resolveFrom stripExt pathRelative.
    unfold StartModule.createStartModuleContent.
    cbn -[String.append StartModule.refStripIndent].
    eapply differAt_neq.
    apply differAt_append_r, differAt_append_r, differAt_append_l
      with (k := 51).
    repeat split.
    + apply Nat.ltb_lt. vm_compute. reflexivity.
    + apply Nat.ltb_lt. vm_compute. reflexivity.
    + vm_compute. discriminate.
Qed.

Lemma createStartModuleContent_deterministic_without_plugins_witness :
  StartModule.createStartModuleContent StartModule.nl
    StartModule.refStripIndent (fun _ root => root) (fun path => path)
    (fun _ to => to) StartModule.noPlugin (fun _ => "0.1111")
  = StartModule.createStartModuleContent StartModule.nl
      StartModule.refStripIndent (fun _ root => root) (fun path => path)
      (fun _ to => to) StartModule.noPlugin (fun _ => "0.2222").
Proof.
  apply (proj1 createStartModuleContent_deterministic_without_plugins).
  reflexivity.
Defined.

(* ===================================================================== *)
(** * Further properties of the path matcher and of the core listener *)
(* ===================================================================== *)

Section MatcherMoreFacts.

Import Matcher Watcher Derived.

Variable glob : string -> string -> bool.

Lemma filter_negated_app_deny (allow deny : list string) :
  map slice1
    (filter isNegated
       (allow ++ map (fun pattern => ("!" ++ pattern)%string) deny))
  = map slice1 (filter isNegated allow) ++ deny
  /\ filter (fun item => negb (isNegated item))
       (allow ++ map (fun pattern => ("!" ++ pattern)%string) deny)
     = filter (fun item => negb (isNegated item)) allow.
Proof.
  rewrite !filter_app.
  destruct (filter_negated_deny deny) as [-> ->].
  rewrite map_app, map_map, app_nil_r.
  now rewrite (map_ext _ (fun d => d) (fun d => slice1_bang d)), map_id.
Qed.

(** The matcher in terms of its two lists, whatever the allow list
    holds. *)
Lemma createPathMatcher_lists (allow deny : list string) (path : string) :
  createPathMatcher glob (Some allow) (Some deny) path
  = negb (existsb (fun g => glob g path)
            (map slice1 (filter isNegated allow) ++ deny))
    && existsb (fun p => satisfies glob p path)
         (filter (fun item => negb (isNegated item)) allow).
Proof.
  unfold createPathMatcher, anymatch.
  destruct (filter_negated_app_deny allow deny) as [-> ->].
  now destruct (existsb _ (_ ++ deny)).
Qed.

Lemma createPathMatcher_absent (toMatch toIgnore : option (list string)) :
  createPathMatcher glob toMatch toIgnore
  = createPathMatcher glob (Some (orEmpty toMatch)) (Some (orEmpty toIgnore)).
Proof. destruct toMatch, toIgnore; reflexivity. Qed.

Lemma fold_left_contributions {A : Type} (f : A -> list string) (l : list A) :
  forall init,
  fold_left (fun patterns p => patterns ++ f p) l init = init ++ flat_map f l.
Proof.
  induction l as [|x l IH]; intros init; cbn [fold_left flat_map].
  - now rewrite app_nil_r.
  - now rewrite IH, app_assoc.
Qed.

Lemma pluginIgnoreContributions_flat_map options :
  pluginIgnoreContributions options
  = flat_map ignorePatternsOf (plugins options).
Proof.
  unfold pluginIgnoreContributions.
  now rewrite (fold_left_contributions ignorePatternsOf).
Qed.

End MatcherMoreFacts.

(** X1: a pattern of the allow list that starts with [!] works as an
    ignore pattern: a path that the rest of the pattern accepts is
    rejected, whatever the other patterns are. *)
Theorem createPathMatcher_negated_allow_rejects :
  forall glob allow toIgnore pattern path,
  In ("!" ++ pattern)%string allow ->
  glob pattern path = true ->
  Matcher.createPathMatcher glob (Some allow) toIgnore path = false.
Proof.
  intros glob allow toIgnore pattern path Hin Hg.
  rewrite createPathMatcher_absent, createPathMatcher_lists.
  assert (Hex : existsb (fun g => glob g path)
            (map Matcher.slice1 (filter Matcher.isNegated allow)
             ++ Watcher.orEmpty toIgnore) = true).
  { apply existsb_exists. exists pattern. split; [|exact Hg].
    apply in_or_app. left.
    change pattern with (Matcher.slice1 ("!" ++ pattern)%string).
    apply in_map. apply filter_In. split; [exact Hin|reflexivity]. }
  cbn [Watcher.orEmpty] in *. now rewrite Hex.
Qed.

Lemma createPathMatcher_negated_allow_rejects_witness :
  Matcher.createPathMatcher Matcher.refglob
    (Some ["src/**/*.ts"; "!src/**/*.test.ts"]) None "src/a.test.ts" = false.
Proof.
  apply (createPathMatcher_negated_allow_rejects Matcher.refglob
           ["src/**/*.ts"; "!src/**/*.test.ts"] None "src/**/*.test.ts").
  - right. left. reflexivity.
  - reflexivity.
Defined.

(** X2: more ignore patterns never make a path match: what a matcher with
    the ignore patterns [deny ++ more] accepts, the matcher with [deny]
    accepts as well. *)
Theorem createPathMatcher_more_ignores_reject_more :
  forall glob toMatch deny more path,
  Matcher.createPathMatcher glob toMatch (Some (deny ++ more)) path = true ->
  Matcher.createPathMatcher glob toMatch (Some deny) path = true.
Proof.
  intros glob toMatch deny more path.
  rewrite !(createPathMatcher_absent glob toMatch), !createPathMatcher_lists.
  cbn [Watcher.orEmpty]. rewrite !andb_true_iff, !negb_true_iff.
  intros [Hneg Hpos]. split; [|exact Hpos].
  rewrite !existsb_app in *.
  apply orb_false_iff in Hneg. destruct Hneg as [H1 H2].
  apply orb_false_iff in H2. destruct H2 as [H2 _].
  now rewrite H1, H2.
Qed.

Lemma createPathMatcher_more_ignores_reject_more_witness :
  Matcher.createPathMatcher Matcher.refglob (Some ["src/**/*.ts"])
    (Some ["src/**/*.test.ts"]) "src/a.ts" = true.
Proof.
  apply (createPathMatcher_more_ignores_reject_more Matcher.refglob
           (Some ["src/**/*.ts"]) ["src/**/*.test.ts"] ["src/generated/**"]).
  reflexivity.
Defined.

(** X3: when no plugin gives an ignore pattern for the app, the core
    listener ignores no file. *)
Theorem coreListener_ignores_nothing_by_default :
  forall glob options file,
  (forall p, In p (Watcher.plugins options) -> Derived.ignorePatternsOf p = []) ->
  Watcher.isIgnoredByCoreListener glob options file = false.
Proof.
  intros glob options file Hnone.
  unfold Watcher.isIgnoredByCoreListener.
  rewrite pluginIgnoreContributions_flat_map.
  assert (Hnil : flat_map Derived.ignorePatternsOf (Watcher.plugins options) = []).
  { induction (Watcher.plugins options) as [|p l IH]; [reflexivity|].
    cbn [flat_map]. rewrite (Hnone p (or_introl eq_refl)).
    apply IH. intros q Hq. apply Hnone. now right. }
  rewrite Hnil. apply createPathMatcher_no_allow.
Qed.

Lemma coreListener_ignores_nothing_by_default_witness :
  Watcher.isIgnoredByCoreListener Matcher.refglob Examples.withSteady
    "src/a.ts" = false.
Proof.
  apply coreListener_ignores_nothing_by_default.
  intros p [<-|[]]. reflexivity.
Defined.

(** X4: the core listener ignores a file exactly when an ignore pattern
    given by some plugin accepts it and no such pattern that starts with
    [!] rejects it; ignore patterns are gathered from all plugins. *)
Theorem coreListener_ignores_contributed_patterns :
  forall glob options file,
  Watcher.isIgnoredByCoreListener glob options file = true
  <->
  (exists p pattern,
      In p (Watcher.plugins options) /\
      In pattern (Derived.ignorePatternsOf p) /\
      Matcher.isNegated pattern = false /\
      Matcher.satisfies glob pattern file = true)
  /\ (forall p pattern,
      In p (Watcher.plugins options) ->
      In pattern (Derived.ignorePatternsOf p) ->
      Matcher.isNegated pattern = true ->
      glob (Matcher.slice1 pattern) file = false).
Proof.
  intros glob options file.
  unfold Watcher.isIgnoredByCoreListener.
  rewrite createPathMatcher_absent, createPathMatcher_lists.
  cbn [Watcher.orEmpty]. rewrite app_nil_r.
  rewrite pluginIgnoreContributions_flat_map.
  rewrite andb_true_iff, negb_true_iff, existsb_exists.
  split.
  - intros [Hneg [pattern [Hin Hsat]]].
    apply filter_In in Hin. destruct Hin as [Hin Hn].
    apply negb_true_iff in Hn.
    apply in_flat_map in Hin. destruct Hin as [p [Hp Hpat]].
    split; [now exists p, pattern|].
    intros q pat Hq Hpatq Hnq.
    destruct (glob (Matcher.slice1 pat) file) eqn:E; [|reflexivity].
    assert (Hex : existsb (fun g => glob g file)
              (map Matcher.slice1
                 (filter Matcher.isNegated
                    (flat_map Derived.ignorePatternsOf
                       (Watcher.plugins options)))) = true).
    { apply existsb_exists. exists (Matcher.slice1 pat). split; [|exact E].
      apply in_map. apply filter_In. split; [|exact Hnq].
      apply in_flat_map. now exists q. }
    congruence.
  - intros [[p [pattern [Hp [Hpat [Hn Hsat]]]]] Hneg]. split.
    + destruct (existsb _ _) eqn:E; [|reflexivity].
      apply existsb_exists in E. destruct E as [g [Hg Hglob]].
      apply in_map_iff in Hg. destruct Hg as [pat [<- Hpatin]].
      apply filter_In in Hpatin. destruct Hpatin as [Hpatin Hnpat].
      apply in_flat_map in Hpatin. destruct Hpatin as [q [Hq Hqpat]].
      rewrite (Hneg q pat Hq Hqpat Hnpat) in Hglob. discriminate.
    + exists pattern. split; [|exact Hsat].
      apply filter_In. split; [|now rewrite Hn].
      apply in_flat_map. now exists p.
Qed.

Lemma coreListener_ignores_contributed_patterns_witness :
  Watcher.isIgnoredByCoreListener Matcher.refglob Examples.withGenerator
    "src/generated/types.ts" = true.
Proof.
  apply (proj2 (coreListener_ignores_contributed_patterns Matcher.refglob
                  Examples.withGenerator "src/generated/types.ts")).
  split.
  - exists Examples.generator, "src/generated/**".
    repeat split; try reflexivity; now left.
  - intros p pattern [<-|[]] [<-|[]]. discriminate.
Defined.

(* ===================================================================== *)
(** * Further properties of the runs of the watcher *)
(* ===================================================================== *)

Section RunFacts.

Import Watcher Protocol Derived.

Variable glob : string -> string -> bool.
Variable options : Opts.
Variable tsConfigPath : string.

Local Abbreviation step := (Watcher.step glob options tsConfigPath).
Local Abbreviation runFrom := (Watcher.runFrom glob options tsConfigPath).
Local Abbreviation run := (Watcher.run glob options tsConfigPath).
Local Abbreviation restart := (Watcher.restart tsConfigPath).

(** The before-restart hooks and what follows them keep the flag set. *)
Lemma exec_forEach_onBeforeWatcherRestart_restarting ps k :
  (forall m, restarting m = true -> restarting (fst (exec k m)) = true) ->
  forall m, restarting m = true ->
  restarting (fst (exec (forEach_onBeforeWatcherRestart ps k) m)) = true.
Proof.
  intros Hk. induction ps as [|[i p] ps IH]; intros m Hr; [now apply Hk|].
  cbn [forEach_onBeforeWatcherRestart].
  destruct (onBeforeWatcherRestart p) as [hook|]; [|now apply IH].
  rewrite exec_Do. cbn [pre fst].
  destruct (hook tt); [now apply IH|exact Hr].
Qed.

(** An accepted call of [restart] sets the flag, and the flag is still
    set when the call gives the control back. *)
Lemma exec_restart_accepted change m :
  restarting m = false ->
  restarting (fst (exec (restart change (registered options)) m)) = true
  /\ exists rest,
       snd (exec (restart change (registered options)) m)
       = SetRestarting true :: ClearConsole
         :: Log trace "hook" (HookName "beforeWatcherStartOrRestart") :: rest.
Proof.
  intros Hr. unfold Watcher.restart. rewrite exec_Read, Hr.
  rewrite exec_Write, !exec_Do. cbn [pre fst snd app]. split.
  - apply exec_forAwait_restarting; [|reflexivity].
    intros m1 H1. rewrite exec_Do. cbn [pre fst].
    apply exec_forEach_onBeforeWatcherRestart_restarting; [|exact H1].
    intros m2 H2. rewrite exec_Do. cbn [pre fst].
    destruct (String.eqb (fileOf change) tsConfigPath);
      rewrite !exec_Do; cbn [pre fst exec]; exact H2.
  - eexists. reflexivity.
Qed.

Lemma exec_forEach_onAfterWatcherRestart_outside ps :
  forall m,
  restarting (fst (exec (forEach_onAfterWatcherRestart ps
                          (Do WatcherResume Done)) m)) = restarting m
  /\ pending (fst (exec (forEach_onAfterWatcherRestart ps
                           (Do WatcherResume Done)) m)) = pending m
  /\ Forall (fun a => belongsToCycle a = false)
       (snd (exec (forEach_onAfterWatcherRestart ps
                     (Do WatcherResume Done)) m)).
Proof.
  induction ps as [|[i p] ps IH]; intros m.
  - cbn. repeat split; repeat constructor.
  - cbn [forEach_onAfterWatcherRestart].
    destruct (onAfterWatcherRestart p) as [hook|]; [|apply IH].
    rewrite exec_Do. cbn [pre fst snd app].
    destruct (hook tt).
    + destruct (IH (perform (Call_onAfterWatcherRestart i) m))
        as [H1 [H2 H3]].
      repeat split; auto.
    + cbn. repeat split; repeat constructor.
Qed.

Lemma boot_restarting : restarting (fst (boot options)) = true.
Proof.
  unfold boot, createWatcher.
  rewrite !exec_Do, exec_Write, exec_Do. cbn [pre fst].
  apply exec_forAwait_restarting; [|reflexivity].
  intros m Hr. rewrite exec_Do. exact Hr.
Qed.

Lemma updatesOf_app tr1 tr2 :
  updatesOf (tr1 ++ tr2) = updatesOf tr1 ++ updatesOf tr2.
Proof. apply flat_map_app. Qed.

Lemma updatesOf_beforeStartOrRestartTrace event ps :
  updatesOf (beforeStartOrRestartTrace event ps) = patches event ps.
Proof.
  induction ps as [|[i p] ps IH]; [reflexivity|].
  unfold beforeStartOrRestartTrace, patches. cbn [flat_map fst snd].
  fold (beforeStartOrRestartTrace event ps). fold (patches event ps).
  rewrite updatesOf_app, IH. f_equal.
  destruct (onBeforeWatcherStartOrRestart p) as [hook|]; [|reflexivity].
  destruct (hook event) as [[[changes|]|]|]; reflexivity.
Qed.

Lemma updatesOf_beforeRestartTrace ps :
  updatesOf (beforeRestartTrace ps) = [].
Proof.
  induction ps as [|[i p] ps IH]; [reflexivity|].
  unfold beforeRestartTrace. cbn [flat_map fst snd].
  fold (beforeRestartTrace ps). rewrite updatesOf_app, IH, app_nil_r.
  destruct (onBeforeWatcherRestart p); reflexivity.
Qed.

(** X7: a watch event for a file that the core listener does not ignore,
    taken in while no restart is on, starts a restart: the flag is set at
    once and is still set when the listeners are through. *)
Theorem watched_file_starts_restart :
  forall m type file,
  isIgnoredByCoreListener glob options file = false ->
  paused m = false ->
  restarting m = false ->
  restarting (fst (step m (WatchAll type file))) = true
  /\ exists rest,
       snd (step m (WatchAll type file))
       = Log trace "global listener - matched file"
           (OfEvent (PostInit (ChokEvent type file)))
         :: SetRestarting true :: ClearConsole
         :: Log trace "hook" (HookName "beforeWatcherStartOrRestart")
         :: rest.
Proof.
  intros m type file Hig Hp Hr. cbn [Watcher.step]. unfold intake.
  rewrite Hp. unfold emitAll, coreListener. rewrite Hig.
  rewrite exec_Do, perform_quiet by reflexivity.
  rewrite exec_Async. unfold andThen.
  destruct (exec_restart_accepted (ChokEvent type file) m Hr)
    as [Hflag [rest Hout]].
  destruct (exec (restart (ChokEvent type file) (registered options)) m)
    as [m1 o1].
  rewrite exec_pluginListeners. cbn [pre fst snd app] in *.
  split; [exact Hflag|]. rewrite Hout. eexists. reflexivity.
Qed.


(** X9: until the first start is settled, no event starts a restart: the
    flag stays set and what is done after the set-up belongs to no
    cycle. *)
Theorem no_restart_during_first_start :
  forall evs,
  Forall (fun ev => isSettlement ev = false) evs ->
  restarting (fst (run evs)) = true
  /\ exists extra,
       snd (run evs) = snd (boot options) ++ extra
       /\ Forall (fun a => belongsToCycle a = false) extra.
Proof.
  intros evs Hevs. unfold Watcher.run.
  destruct (boot options) as [m0 o0] eqn:Hboot.
  assert (Hr : restarting m0 = true).
  { pose proof boot_restarting as H. now rewrite Hboot in H. }
  destruct (runFrom_busy glob options tsConfigPath evs Hevs m0 o0 Hr) as [extra [He [Hall [Hr' _]]]].
  split; [exact Hr'|]. exists extra. cbn [snd]. auto.
Qed.

(** X10: a restart that ran to its end leaves the watcher ready for the
    next one: a restart asked for by a plugin after it is accepted and
    runs its own phases, one cycle after the other. *)
Theorem restarts_follow_one_another :
  forall change m file,
  restarting m = false ->
  pending m = [] ->
  Forall (fun ip => settles (PostInit change) (snd ip)) (registered options) ->
  Forall (fun ip => settles (PostInit (PluginEvent file)) (snd ip))
    (registered options) ->
  Forall (fun ip => returnsBeforeRestart (snd ip)) (registered options) ->
  runFrom (exec (restart change (registered options)) m)
    (settleAll (registered options) (Returns tt)
     ++ LensRestart file :: settleAll (registered options) (Returns tt))
  = ({| restarting := false; paused := paused m; pending := [] |},
     restartTrace tsConfigPath change (registered options)
     ++ [SetRestarting false]
     ++ restartTrace tsConfigPath (PluginEvent file) (registered options)
     ++ [SetRestarting false]).
Proof.
  intros change m file Hr Hp H3 H3' H4.
  rewrite (restart_cycle glob options tsConfigPath change m _ _ Hr Hp H3 H4).
  cbn [ending Watcher.runFrom]. rewrite andThen_exec.
  cbn [Watcher.step]. unfold lensRestart.
  rewrite exec_Async, andThen_Done.
  rewrite runFrom_pre.
  rewrite <- (app_nil_r (settleAll _ _)).
  rewrite (restart_cycle glob options tsConfigPath (PluginEvent file)
             {| restarting := false; paused := paused m; pending := [] |}
             _ [] eq_refl eq_refl H3' H4).
  cbn [ending Watcher.runFrom]. unfold pre. cbn [fst snd paused].
  reflexivity.
Qed.

(** X11: in a restart in which every hook returns, [link.updateOptions]
    is called with exactly the runner changes that the hooks gave, in the
    order of the plugins, and every one of these calls comes before the
    request to restart the process. *)
Theorem patches_merged_in_order_before_restart :
  forall change m result,
  restarting m = false ->
  pending m = [] ->
  Forall (fun ip => settles (PostInit change) (snd ip)) (registered options) ->
  Forall (fun ip => returnsBeforeRestart (snd ip)) (registered options) ->
  exists before after,
    snd (runFrom (exec (restart change (registered options)) m)
           (settleAll (registered options) result))
    = before ++ LinkStartOrRestart :: after
    /\ updatesOf before = patches (PostInit change) (registered options)
    /\ updatesOf after = [].
Proof.
  intros change m result Hr Hp H3 H4.
  rewrite <- (app_nil_r (settleAll _ _)).
  rewrite (restart_cycle glob options tsConfigPath change m _ [] Hr Hp H3 H4).
  cbn [Watcher.runFrom pre snd]. unfold restartTrace.
  exists ([SetRestarting true; ClearConsole;
           Log trace "hook" (HookName "beforeWatcherStartOrRestart")]
          ++ beforeStartOrRestartTrace (PostInit change) (registered options)
          ++ [Log trace "hook" (HookName "beforeWatcherRestart")]
          ++ beforeRestartTrace (registered options)
          ++ [Log info "restarting" (OfEvent (PostInit change))]
          ++ (if String.eqb (fileOf change) tsConfigPath
              then [Log trace "reinitializing TS compilation" NoContext;
                    CompilerInit]
              else [])
          ++ [CompileChanged (fileOf change)]),
         (snd (ending m result)).
  repeat split.
  - repeat (rewrite <- app_assoc; cbn [app]). reflexivity.
  - rewrite !updatesOf_app, updatesOf_beforeStartOrRestartTrace,
      updatesOf_beforeRestartTrace.
    destruct (String.eqb (fileOf change) tsConfigPath); cbn;
      now rewrite app_nil_r.
  - destruct result; reflexivity.
Qed.

(** X12: only a watch event, the restart control of a plugin and the
    settlement of what a cycle waits for touch the restart state: every
    other event (a watcher error, ready, a module imported by the runner,
    the process listening, pause, resume, the exit of the process) leaves
    the flag and the suspended cycle as they are and does nothing of a
    cycle. *)
Theorem other_events_leave_restart_state :
  forall m ev,
  callsRestart ev = false ->
  isSettlement ev = false ->
  restarting (fst (step m ev)) = restarting m
  /\ pending (fst (step m ev)) = pending m
  /\ Forall (fun a => belongsToCycle a = false) (snd (step m ev)).
Proof.
  intros m ev Hc Hs.
  assert (Hone : forall a,
    belongsToCycle a = false ->
    restarting (fst (exec (Do a Done) m)) = restarting m
    /\ pending (fst (exec (Do a Done) m)) = pending m
    /\ Forall (fun a => belongsToCycle a = false) (snd (exec (Do a Done) m))).
  { intros a Ha. cbn. repeat split. repeat constructor. exact Ha. }
  destruct ev; try discriminate; cbn [Watcher.step].
  - now apply Hone.
  - now apply Hone.
  - now apply Hone.
  - apply exec_forEach_onAfterWatcherRestart_outside.
  - now apply Hone.
  - now apply Hone.
  - unfold onBeforeExit. cbn. repeat split. repeat constructor.
Qed.

(** X13: the before-start-or-restart hooks run one after the other: when
    the hooks of the plugins before a plugin have settled, the hook of
    that plugin has been called and the cycle waits for it; no hook of a
    later plugin, and nothing of a later phase, has been called. *)
Theorem hooks_run_one_after_the_other :
  forall change m before i p after,
  registered options = before ++ (i, p) :: after ->
  restarting m = false ->
  pending m = [] ->
  Forall (fun ip => settles (PostInit change) (snd ip)) before ->
  returnsPromise (PostInit change) p ->
  snd (runFrom (exec (restart change (registered options)) m)
         (repeat (PromiseSettled 0) (length before)))
  = [SetRestarting true; ClearConsole;
     Log trace "hook" (HookName "beforeWatcherStartOrRestart")]
    ++ beforeStartOrRestartTrace (PostInit change) before
    ++ callOf (PostInit change) (i, p)
  /\ length (pending (fst (runFrom
       (exec (restart change (registered options)) m)
       (repeat (PromiseSettled 0) (length before))))) = 1
  /\ restarting (fst (runFrom
       (exec (restart change (registered options)) m)
       (repeat (PromiseSettled 0) (length before)))) = true.
Proof.
  intros change m before i p after Hs Hr Hp Hb Hret. rewrite Hs.
  destruct m as [r b l]. cbn in Hr, Hp. subst r l.
  unfold Watcher.restart. rewrite exec_Read. cbn [restarting].
  rewrite exec_Write, !exec_Do, !perform_quiet by reflexivity.
  rewrite !pre_pre, runFrom_pre, forAwait_app.
  rewrite <- (app_nil_r (repeat _ _)).
  rewrite (runFrom_forAwait glob options tsConfigPath _ _ Hb) by reflexivity.
  cbn [Watcher.runFrom forAwait_onBeforeWatcherStartOrRestart].
  unfold callOf, returnsPromise in *. cbn [fst snd].
  destruct (onBeforeWatcherStartOrRestart p) as [hook|].
  - destruct (Hret hook eq_refl) as [promise Hh]. rewrite Hh.
    rewrite exec_Do, perform_quiet by reflexivity.
    cbn [exec]. unfold pre. cbn [fst snd].
    repeat split; rewrite <- ?app_assoc; reflexivity.
  - cbn [exec]. unfold pre. cbn [fst snd].
    repeat split; rewrite <- ?app_assoc, ?app_nil_r; reflexivity.
Qed.

End RunFacts.

Section MoreExampleFacts.

Import Watcher Protocol Derived Examples MoreExamples.

Lemma patching_settles event :
  Forall (fun ip => settles event (snd ip)) (registered withPatching).
Proof.
  repeat constructor; intros hook H; injection H as <-;
    eexists; reflexivity.
Qed.

Lemma patching_returnsBeforeRestart :
  Forall (fun ip => returnsBeforeRestart (snd ip)) (registered withPatching).
Proof.
  repeat constructor; intros hook H; try discriminate.
  injection H as <-. eexists. reflexivity.
Qed.

End MoreExampleFacts.

Lemma watched_file_starts_restart_witness :
  Watcher.restarting
    (fst (Watcher.step Matcher.refglob Examples.withSteady Examples.tsconfig
            Examples.idle (Watcher.WatchAll Watcher.change "src/a.ts")))
  = true.
Proof.
  apply (proj1 (watched_file_starts_restart Matcher.refglob
                  Examples.withSteady Examples.tsconfig Examples.idle
                  Watcher.change "src/a.ts" eq_refl eq_refl eq_refl)).
Defined.


Lemma no_restart_during_first_start_witness :
  Watcher.restarting
    (fst (Watcher.run Matcher.refglob Examples.withSteady Examples.tsconfig
            [Watcher.WatchAll Watcher.change "src/a.ts";
             Watcher.LensRestart "src/b.ts"]))
  = true.
Proof.
  apply (no_restart_during_first_start Matcher.refglob Examples.withSteady
           Examples.tsconfig).
  repeat constructor.
Defined.

Lemma restarts_follow_one_another_witness :
  Watcher.runFrom Matcher.refglob Examples.withSteady Examples.tsconfig
    (Watcher.exec
       (Watcher.restart Examples.tsconfig
          (Watcher.ChokEvent Watcher.change "src/a.ts")
          (Watcher.registered Examples.withSteady)) Examples.idle)
    (Protocol.settleAll (Watcher.registered Examples.withSteady)
       (Watcher.Returns tt)
     ++ Watcher.LensRestart "src/b.ts"
        :: Protocol.settleAll (Watcher.registered Examples.withSteady)
             (Watcher.Returns tt))
  = ({| Watcher.restarting := false;
        Watcher.paused := Watcher.paused Examples.idle;
        Watcher.pending := [] |},
     Protocol.restartTrace Examples.tsconfig
       (Watcher.ChokEvent Watcher.change "src/a.ts")
       (Watcher.registered Examples.withSteady)
     ++ [Watcher.SetRestarting false]
     ++ Protocol.restartTrace Examples.tsconfig
          (Watcher.PluginEvent "src/b.ts")
          (Watcher.registered Examples.withSteady)
     ++ [Watcher.SetRestarting false]).
Proof.
  apply (restarts_follow_one_another Matcher.refglob Examples.withSteady
           Examples.tsconfig).
  - reflexivity.
  - reflexivity.
  - apply steady_settles.
  - apply steady_settles.
  - apply steady_returnsBeforeRestart.
Defined.

Lemma patches_merged_in_order_before_restart_witness :
  exists before after,
    snd (Watcher.runFrom Matcher.refglob MoreExamples.withPatching
           Examples.tsconfig
           (Watcher.exec
              (Watcher.restart Examples.tsconfig
                 (Watcher.PluginEvent "prisma/schema.prisma")
                 (Watcher.registered MoreExamples.withPatching))
              Examples.idle)
           (Protocol.settleAll (Watcher.registered MoreExamples.withPatching)
              (Watcher.Returns tt)))
    = before ++ Watcher.LinkStartOrRestart :: after
    /\ Derived.updatesOf before
       = Derived.patches
           (Watcher.PostInit (Watcher.PluginEvent "prisma/schema.prisma"))
           (Watcher.registered MoreExamples.withPatching)
    /\ Derived.updatesOf after = [].
Proof.
  apply (patches_merged_in_order_before_restart Matcher.refglob
           MoreExamples.withPatching Examples.tsconfig).
  - reflexivity.
  - reflexivity.
  - apply patching_settles.
  - apply patching_returnsBeforeRestart.
Defined.

Lemma other_events_leave_restart_state_witness :
  Watcher.pending
    (fst (Watcher.step Matcher.refglob Examples.withSteady Examples.tsconfig
            MoreExamples.waiting Watcher.ServerListening))
  = Watcher.pending MoreExamples.waiting.
Proof.
  apply (other_events_leave_restart_state Matcher.refglob Examples.withSteady
           Examples.tsconfig MoreExamples.waiting Watcher.ServerListening
           eq_refl eq_refl).
Defined.

Lemma hooks_run_one_after_the_other_witness :
  snd (Watcher.runFrom Matcher.refglob MoreExamples.withPatching
         Examples.tsconfig
         (Watcher.exec
            (Watcher.restart Examples.tsconfig
               (Watcher.PluginEvent "src/a.ts")
               (Watcher.registered MoreExamples.withPatching)) Examples.idle)
         (repeat (Watcher.PromiseSettled 0)
            (length [(0, MoreExamples.patching)])))
  = [Watcher.SetRestarting true; Watcher.ClearConsole;
     Watcher.Log Watcher.trace "hook"
       (Watcher.HookName "beforeWatcherStartOrRestart")]
    ++ Protocol.beforeStartOrRestartTrace
         (Watcher.PostInit (Watcher.PluginEvent "src/a.ts"))
         [(0, MoreExamples.patching)]
    ++ Derived.callOf (Watcher.PostInit (Watcher.PluginEvent "src/a.ts"))
         (1, Examples.steady).
Proof.
  apply (proj1 (hooks_run_one_after_the_other Matcher.refglob
                  MoreExamples.withPatching Examples.tsconfig
                  (Watcher.PluginEvent "src/a.ts") Examples.idle
                  [(0, MoreExamples.patching)] 1 Examples.steady []
                  eq_refl eq_refl eq_refl
                  ltac:(repeat constructor; intros hook H;
                        injection H as <-; eexists; reflexivity)
                  ltac:(intros hook H; injection H as <-;
                        eexists; reflexivity))).
Defined.

(* ===================================================================== *)
(** * Further properties of the start module *)
(* ===================================================================== *)

Section StartModuleMoreFacts.

Import StartModule Derived.
Local Open Scope string_scope.

Variable EOL : string.
Variable stripIndent : string -> string.
Variable stripExt : string -> string.
Variable pathRelative : string -> string -> string.

Lemma string_app_assoc (s1 s2 s3 : string) :
  (s1 ++ s2) ++ s3 = s1 ++ s2 ++ s3.
Proof. induction s1 as [|c s1 IH]; cbn; [reflexivity|now rewrite IH]. Qed.

Lemma string_app_nil_r (s : string) : s ++ "" = s.
Proof. induction s as [|c s IH]; cbn; [reflexivity|now rewrite IH]. Qed.

Lemma string_app_eq_nil (s1 s2 : string) :
  s1 ++ s2 = "" -> s1 = "" /\ s2 = "".
Proof. destruct s1; cbn; [auto|discriminate]. Qed.

Lemma startsWith_refl h : startsWith h h.
Proof. exists "". now rewrite string_app_nil_r. Qed.

Lemma startsWith_app h s t : startsWith h s -> startsWith h (s ++ t).
Proof.
  intros [rest ->]. exists (rest ++ t). apply string_app_assoc.
Qed.

Lemma substring_length n m s : String.length (substring n m s) <= m.
Proof.
  revert n m. induction s as [|c s IH]; intros n m.
  - destruct n, m; cbn; lia.
  - destruct n as [|n].
    + destruct m as [|m]; cbn; [lia|]. specialize (IH 0 m). lia.
    + cbn. apply IH.
Qed.

Lemma aliasesFrom_ext random1 random2 names :
  forall i,
  (forall k, k < List.length names ->
     digits random1 (i + k) = digits random2 (i + k)) ->
  aliasesFrom random1 i names = aliasesFrom random2 i names.
Proof.
  induction names as [|name names IH]; intros i H; [reflexivity|].
  cbn [aliasesFrom]. unfold namedImportAlias.
  pose proof (H 0 ltac:(cbn; lia)) as H0. rewrite Nat.add_0_r in H0.
  unfold digits in H0. rewrite H0. f_equal.
  apply IH. intros k Hk.
  replace (S i + k) with (i + S k) by lia. apply H. cbn. lia.
Qed.

Lemma aliasesFrom_names random names :
  forall i, map snd (aliasesFrom random i names) = names.
Proof.
  induction names as [|name names IH]; intros i; [reflexivity|].
  cbn [aliasesFrom map snd]. now rewrite IH.
Qed.

Lemma aliasesFrom_aliases random names :
  forall i,
  map fst (aliasesFrom random i names)
  = map (fun d => "plugin_" ++ d)
      (map (digits random) (seq i (List.length names))).
Proof.
  induction names as [|name names IH]; intros i; [reflexivity|].
  cbn [aliasesFrom map fst List.length seq]. now rewrite IH.
Qed.

Lemma NoDup_map_plugin (l : list string) :
  NoDup (map (fun d => "plugin_" ++ d) l) <-> NoDup l.
Proof.
  split; [apply NoDup_map_inv|].
  induction 1 as [|d l Hd _ IH]; cbn [map]; constructor; [|exact IH].
  intros Hin. apply in_map_iff in Hin. destruct Hin as [d' [Heq Hd']].
  cbn in Heq. injection Heq as ->. now apply Hd.
Qed.

Lemma fold_left_imports (f : string -> string) (l : list string) :
  forall init,
  fold_left (fun script modulePath => script ++ nl ++ f modulePath) l init
  = init ++ fold_left (fun script modulePath => script ++ nl ++ f modulePath)
              l "".
Proof.
  induction l as [|m l IH]; intros init; cbn [fold_left].
  - now rewrite string_app_nil_r.
  - rewrite IH, (IH ("" ++ nl ++ f m)). cbn [String.append].
    now rewrite string_app_assoc.
Qed.

End StartModuleMoreFacts.

Section StartModuleMore.

Import StartModule Derived.
Local Open Scope string_scope.

Variable EOL : string.
Variable stripIndent : string -> string.
Variable resolveFrom : string -> string -> string.
Variable stripExt : string -> string.
Variable pathRelative : string -> string -> string.

Local Abbreviation content :=
  (createStartModuleContent EOL stripIndent resolveFrom stripExt pathRelative).

(** X14: the content depends on the numbers drawn only through the three
    characters taken from each of them, one number for each runtime
    plugin: draws that agree on these characters give the same content. *)
Theorem createStartModuleContent_depends_on_digits_only :
  forall config random1 random2,
  (forall i, i < List.length (runtimePluginNames config) ->
     digits random1 i = digits random2 i) ->
  content config random1 = content config random2.
Proof.
  intros config random1 random2 H.
  assert (Ha : aliasAndPluginNames config random1
               = aliasAndPluginNames config random2).
  { unfold aliasAndPluginNames. apply aliasesFrom_ext. exact H. }
  unfold createStartModuleContent. cbv zeta. rewrite Ha. reflexivity.
Qed.

(** X15: the aliases come with the names of the runtime plugins, every
    name once and in the given order, and every alias is [plugin_]
    followed by at most three characters. *)
Theorem aliases_keep_names_and_shape :
  forall config random,
  map snd (aliasAndPluginNames config random) = runtimePluginNames config
  /\ Forall (fun entry =>
               exists d, fst entry = "plugin_" ++ d /\ String.length d <= 3)
       (aliasAndPluginNames config random).
Proof.
  intros config random. unfold aliasAndPluginNames.
  split; [apply aliasesFrom_names|].
  assert (Hall : forall names i,
    Forall (fun entry =>
              exists d, fst entry = "plugin_" ++ d /\ String.length d <= 3)
      (aliasesFrom random i names)).
  { induction names as [|name names IH]; intros i; cbn [aliasesFrom];
      constructor; [|apply IH].
    cbn [fst]. exists (substring 2 3 (random i)).
    split; [reflexivity|apply substring_length]. }
  apply Hall.
Qed.

(** X16: two runtime plugins get the same alias exactly when the numbers
    drawn for them agree on the characters taken: the aliases are
    pairwise different if and only if these characters are. *)
Theorem aliases_distinct_iff_digits_distinct :
  forall config random,
  NoDup (map fst (aliasAndPluginNames config random))
  <-> NoDup (map (digits random)
               (seq 0 (List.length (runtimePluginNames config)))).
Proof.
  intros config random. unfold aliasAndPluginNames.
  rewrite aliasesFrom_aliases. apply NoDup_map_plugin.
Qed.

(** X17: the static imports are empty exactly when the project has no
    schema module, and the imports of two lists of modules one after the
    other are the imports of the first followed by the imports of the
    second. *)
Theorem printStaticImports_empty_and_append :
  (forall layout absolutePaths,
      printStaticImports stripExt pathRelative layout absolutePaths = ""
      <-> schemaModules layout = [])
  /\ (forall layout absolutePaths modules1 modules2,
      printStaticImports stripExt pathRelative
        (withModules layout (modules1 ++ modules2)) absolutePaths
      = printStaticImports stripExt pathRelative
          (withModules layout modules1) absolutePaths
        ++ printStaticImports stripExt pathRelative
             (withModules layout modules2) absolutePaths).
Proof.
  split.
  - intros layout absolutePaths. unfold printStaticImports.
    destruct (schemaModules layout) as [|m l]; [now split|].
    split; [|discriminate]. cbn [fold_left].
    rewrite (fold_left_imports
               (fun modulePath => printSideEffectsImport
                  (if truthy absolutePaths then stripExt modulePath
                   else relativeTranspiledImportPath stripExt pathRelative
                          layout modulePath))).
    intros H. apply string_app_eq_nil in H. destruct H as [H _].
    discriminate.
  - intros layout absolutePaths modules1 modules2.
    unfold printStaticImports. cbn [schemaModules withModules].
    rewrite fold_left_app.
    apply (fold_left_imports
             (fun modulePath => printSideEffectsImport
                (if truthy absolutePaths then stripExt modulePath
                 else relativeTranspiledImportPath stripExt pathRelative
                        (withModules layout (modules1 ++ modules2))
                        modulePath))).
Qed.

(** X18: the content begins with the line that marks a generated start
    module, whatever the configuration is. *)
Theorem createStartModuleContent_begins_with_header :
  forall config random,
  startsWith ("// " ++ START_MODULE_HEADER ++ nl) (content config random).
Proof.
  intros config random. unfold createStartModuleContent. cbv zeta.
  repeat first
    [ apply startsWith_refl
    | apply startsWith_app
    | match goal with
      | |- startsWith _ (match ?x with _ => _ end) => destruct x
      end ].
Qed.

End StartModuleMore.

(** X19: with relative module imports (the absolute imports not asked
    for), the content is made without resolving any module from the
    project root: it is the same whatever [resolveFrom] would give. *)
Theorem relative_imports_resolve_nothing :
  forall EOL stripIndent resolveFrom1 resolveFrom2 stripExt pathRelative
         config random,
  StartModule.truthy (StartModule.absoluteModuleImports config) = false ->
  StartModule.createStartModuleContent EOL stripIndent resolveFrom1 stripExt
    pathRelative config random
  = StartModule.createStartModuleContent EOL stripIndent resolveFrom2 stripExt
      pathRelative config random.
Proof.
  intros EOL stripIndent resolveFrom1 resolveFrom2 stripExt pathRelative
    config random H.
  unfold StartModule.createStartModuleContent. cbv zeta.
  rewrite (map_ext (StartModule.printPluginImport resolveFrom1 config)
             (StartModule.printPluginImport resolveFrom2 config)).
  - rewrite H. reflexivity.
  - intros [aliasName pluginName]. unfold StartModule.printPluginImport.
    now rewrite H.
Qed.

Lemma createStartModuleContent_depends_on_digits_only_witness :
  StartModule.createStartModuleContent StartModule.nl
    StartModule.refStripIndent (fun _ root => root) (fun path => path)
    (fun _ to => to) MoreExamples.twoPlugins (fun _ => "0.1234")
  = StartModule.createStartModuleContent StartModule.nl
      StartModule.refStripIndent (fun _ root => root) (fun path => path)
      (fun _ to => to) MoreExamples.twoPlugins (fun _ => "0.12399").
Proof.
  apply createStartModuleContent_depends_on_digits_only.
  intros i _. reflexivity.
Defined.

Lemma aliases_distinct_iff_digits_distinct_witness :
  NoDup (map fst
           (StartModule.aliasAndPluginNames MoreExamples.twoPlugins
              (fun i => match i with 0 => "0.111" | _ => "0.222" end))).
Proof.
  apply (proj2 (aliases_distinct_iff_digits_distinct MoreExamples.twoPlugins
                  (fun i => match i with 0 => "0.111" | _ => "0.222" end))).
  repeat constructor; cbn; intuition discriminate.
Defined.

Lemma printStaticImports_empty_and_append_witness :
  StartModule.printStaticImports (fun path => path) (fun _ to => to)
    (StartModule.layout StartModule.onePlugin) None = ""%string.
Proof.
  apply (proj2 (proj1 (printStaticImports_empty_and_append
                         (fun path => path) (fun _ to => to))
                  (StartModule.layout StartModule.onePlugin) None)).
  reflexivity.
Defined.

Lemma relative_imports_resolve_nothing_witness :
  StartModule.createStartModuleContent StartModule.nl
    StartModule.refStripIndent (fun _ root => root) (fun path => path)
    (fun _ to => to) MoreExamples.twoPlugins (fun _ => "0.1234")
  = StartModule.createStartModuleContent StartModule.nl
      StartModule.refStripIndent (fun id _ => id) (fun path => path)
      (fun _ to => to) MoreExamples.twoPlugins (fun _ => "0.1234").
Proof.
  apply relative_imports_resolve_nothing. reflexivity.
Defined.

(* ===================================================================== *)
(** * Further properties of the dispatch and of the first start *)
(* ===================================================================== *)

Section DispatchMoreFacts.

Import Watcher Protocol Derived.

Variable glob : string -> string -> bool.
Variable options : Opts.
Variable tsConfigPath : string.















End DispatchMoreFacts.


